(** * Cybersecurity risk calculator: the risk quantification engine

    A shallow embedding of the computational core of the calculator
    (the [results] memo, [generateRealisticPercentiles], [validateInput])
    and of the Netlify signup function, with the properties stated about
    them.

    JavaScript numbers are IEEE 754 binary64 values.  They are modelled
    exactly: a finite double is an integer multiple of 2^-1074 (the smallest
    subnormal), so [Fin k] stands for the double of value [k * 2^-1074], and
    every arithmetic operation computes the exact rational result and rounds
    it to the nearest double, ties to even, overflowing to an infinity.  The
    two zeros are identified: the program only adds, subtracts, multiplies,
    divides by nonzero constants, compares, and calls [Math.max], [Math.min],
    [Math.round] and [Math.log10], none of which tells them apart. *)

From Stdlib Require Import ZArith Lia Bool List Ascii String PrimFloat SpecFloat FloatOps.
From stdpp Require Import gmap strings pretty.

Local Open Scope Z_scope.

(** ** Binary64 numbers *)

Module Num.

(** [U] is the double 1.0 counted in units of 2^-1074; [OVF] is 2^1024 in
    the same units, the first magnitude that no finite double reaches. *)
Definition U : Z := 2 ^ 1074.
Definition OVF : Z := 2 ^ 2098.

Inductive num : Type :=
| NaN
| Inf (neg : bool)
| Fin (k : Z).

(** Binary exponent of the last place of a magnitude whose integer part is
    [n] units: below 2^53 units the spacing of doubles is one unit. *)
Definition shift (n : Z) : Z := Z.max 0 (Z.log2 n - 52).

(** The magnitude [a / (b * 2^s)] units ([0 <= a], [0 < b], [0 <= s])
    rounded to 53 significant bits, to nearest, ties to even.  [n] is its
    integer part, [d] one unit in the last place as a divisor of [a], [q]
    and [r] the quotient and the remainder of [a] by [d]. *)
Definition round_pos (a b s : Z) : Z :=
  let n := Z.shiftr a s / b in
  let e := shift n in
  let d := b * 2 ^ (s + e) in
  let q := Z.shiftr n e in
  let r := a - q * d in
  match 2 * r ?= d with
  | Lt => q
  | Gt => q + 1
  | Eq => if Z.even q then q else q + 1
  end * 2 ^ e.

(** The rational [a / (b * 2^s)] units rounded to a double. *)
Definition rnd (a b s : Z) : num :=
  let m := round_pos (Z.abs a) b s in
  if OVF <=? m then Inf (a <? 0) else Fin (Z.sgn a * m).

(** The decimal literal [n / d]. *)
Definition lit (n d : Z) : num := rnd (n * U) d 0.

Definition fneg (x : num) : num :=
  match x with
  | NaN => NaN
  | Inf s => Inf (negb s)
  | Fin k => Fin (- k)
  end.

Definition fadd (x y : num) : num :=
  match x, y with
  | NaN, _ | _, NaN => NaN
  | Inf s, Inf t => if Bool.eqb s t then Inf s else NaN
  | Inf s, Fin _ | Fin _, Inf s => Inf s
  | Fin a, Fin b => rnd (a + b) 1 0
  end.

Definition fsub (x y : num) : num := fadd x (fneg y).

Definition fmul (x y : num) : num :=
  match x, y with
  | NaN, _ | _, NaN => NaN
  | Inf s, Inf t => Inf (xorb s t)
  | Inf s, Fin k | Fin k, Inf s =>
      if k =? 0 then NaN else Inf (xorb s (k <? 0))
  | Fin a, Fin b => rnd (a * b) 1 1074
  end.

(** Division; a zero divisor counts as [+0] (the program never divides by
    zero: its two divisors are the literals 100 and 10000000). *)
Definition fdiv (x y : num) : num :=
  match x, y with
  | NaN, _ | _, NaN => NaN
  | Inf _, Inf _ => NaN
  | Inf s, Fin k => Inf (xorb s (k <? 0))
  | Fin _, Inf _ => Fin 0
  | Fin a, Fin b =>
      if b =? 0 then (if a =? 0 then NaN else Inf (a <? 0))
      else rnd (Z.sgn b * a * U) (Z.abs b) 0
  end.

(** The comparisons [<] and [<=] of the language: false on [NaN]. *)
Definition nlt (x y : num) : bool :=
  match x, y with
  | NaN, _ | _, NaN => false
  | Inf s, Inf t => s && negb t
  | Inf s, Fin _ => s
  | Fin _, Inf t => negb t
  | Fin a, Fin b => a <? b
  end.

Definition nle (x y : num) : bool :=
  match x, y with
  | NaN, _ | _, NaN => false
  | Inf s, Inf t => s || negb t
  | Inf s, Fin _ => s
  | Fin _, Inf t => negb t
  | Fin a, Fin b => a <=? b
  end.

Definition ngt (x y : num) : bool := nlt y x.
Definition nge (x y : num) : bool := nle y x.

(** [Math.max] and [Math.min] of two arguments. *)
Definition Math_max (x y : num) : num :=
  match x, y with
  | NaN, _ | _, NaN => NaN
  | _, _ => if nlt x y then y else x
  end.

Definition Math_min (x y : num) : num :=
  match x, y with
  | NaN, _ | _, NaN => NaN
  | _, _ => if nlt y x then y else x
  end.

(** [Math.round]: the integer nearest to [x], halves going up, that is
    [floor (x + 1/2)]; the shift is the division by [2 * U] rounded down. *)
Definition Math_round (x : num) : num :=
  match x with
  | Fin k => Fin (Z.shiftr (2 * k + U) 1075 * U)
  | _ => x
  end.

(** [Math.log10].  The language fixes the result at [NaN], the infinities,
    zero, one and the negative numbers; everywhere else it is
    "implementation-approximated", which is the parameter [approx]: the
    result chosen by the engine for a positive finite double other than
    one, given in units. *)
Definition Math_log10 (approx : Z -> num) (x : num) : num :=
  match x with
  | NaN => NaN
  | Inf false => Inf false
  | Inf true => NaN
  | Fin k =>
      if k =? U then Fin 0
      else if k =? 0 then Inf true
      else if k <? 0 then NaN
      else approx k
  end.

(** Reading of a primitive binary64 value of the proof assistant, used to
    check the model against the hardware arithmetic. *)
Definition of_prim (f : float) : num :=
  match Prim2SF f with
  | S754_zero _ => Fin 0
  | S754_infinity s => Inf s
  | S754_nan => NaN
  | S754_finite s m e =>
      Fin ((if s then - Z.pos m else Z.pos m) * 2 ^ (e + 1074))
  end.

Definition is_nan (x : num) : bool :=
  match x with NaN => true | _ => false end.

Definition is_finite (x : num) : bool :=
  match x with Fin _ => true | _ => false end.

(** The number of units of a finite double. *)
Definition units (x : num) : Z := match x with Fin k => k | _ => 0 end.

(** The textbook statement of the rounding, against which [round_pos] is
    proved: [rne a d] is the integer nearest to [a / d], ties to even, and
    [round_ref a b] rounds the magnitude [a / b] at the exponent [shift]
    gives it. *)
Definition rne (a d : Z) : Z :=
  let q := a / d in
  match 2 * (a mod d) ?= d with
  | Lt => q
  | Gt => q + 1
  | Eq => if Z.even q then q else q + 1
  end.

Definition round_ref (a b : Z) : Z :=
  let e := shift (a / b) in rne a (b * 2 ^ e) * 2 ^ e.

(** [k] units is a double: rounding leaves it alone. *)
Definition double (k : Z) : Prop := rnd k 1 0 = Fin k.

End Num.

Import Num.

Local Open Scope string_scope.

(** ** The engine: constants *)

(** The integer literal [n]. *)
Definition int (n : Z) : num := lit n 1.

Module SECURITY_WEIGHTS.
Definition BACKUPS : num := lit 15 100.
Definition MFA : num := lit 2 10.
Definition PHISHING_TRAINING : num := lit 15 100.
Definition VENDOR_REVIEWS : num := lit 25 100.
Definition IR_TABLETOP : num := lit 1 10.
Definition BASE_SECURITY : num := lit 15 100.
End SECURITY_WEIGHTS.

(** Display-only fields of the catalogs (icons, colours) are left out. *)
Record CostCategory : Type := {
  cat_name : string;
  cat_baseCost : num
}.

Definition COST_CATEGORIES : list CostCategory :=
  [ {| cat_name := "Emergency IT/Forensics"; cat_baseCost := int 85000 |};
    {| cat_name := "Legal/Compliance"; cat_baseCost := int 120000 |};
    {| cat_name := "PR/Client Communications"; cat_baseCost := int 45000 |};
    {| cat_name := "Revenue Loss"; cat_baseCost := int 180000 |};
    {| cat_name := "Temporary Systems"; cat_baseCost := int 60000 |};
    {| cat_name := "Staff Overtime"; cat_baseCost := int 40000 |};
    {| cat_name := "Client Churn"; cat_baseCost := int 390000 |};
    {| cat_name := "Insurance Premium Increase"; cat_baseCost := int 25000 |};
    {| cat_name := "Security Overhaul"; cat_baseCost := int 150000 |};
    {| cat_name := "Regulatory Fines"; cat_baseCost := int 75000 |};
    {| cat_name := "Audit Costs"; cat_baseCost := int 30000 |} ].

Record ThreatScenario : Type := {
  sc_name : string;
  sc_baseCost : num;
  sc_frequency : num;
  sc_severity : num
}.

Definition THREAT_SCENARIOS : list ThreatScenario :=
  [ {| sc_name := "Phishing"; sc_baseCost := int 300000;
       sc_frequency := lit 3 10; sc_severity := lit 7 10 |};
    {| sc_name := "Ransomware"; sc_baseCost := int 800000;
       sc_frequency := lit 15 100; sc_severity := lit 9 10 |};
    {| sc_name := "Vendor Breach"; sc_baseCost := int 450000;
       sc_frequency := lit 2 10; sc_severity := lit 6 10 |} ].

Record Limits : Type := { min : num; max : num }.

(** [INPUT_LIMITS[field]]: [None] is a field without configured limits.
    (Names inherited from the object prototype are not modelled.) *)
Definition INPUT_LIMITS (field : string) : option Limits :=
  if String.eqb field "employees" then
    Some {| min := int 1; max := int 1000000 |}
  else if String.eqb field "revenue" then
    Some {| min := int 0; max := int 100000000000 |}
  else if String.eqb field "insurance" then
    Some {| min := int 0; max := int 50000000 |}
  else None.

(** ** The engine: percentile synthesis *)

Record OrganizationFactors : Type := {
  f_sizeFactor : num;
  f_revenueFactor : num;
  f_riskReduction : num
}.

Record Percentiles : Type := {
  p5th : num;
  p25th : num;
  Median : num;
  p75th : num;
  p95th : num
}.

Definition adjustedBase (baseCost : num) (f : OrganizationFactors) : num :=
  fmul (fmul (fmul baseCost (f_sizeFactor f)) (f_revenueFactor f))
       (fsub (int 1) (f_riskReduction f)).

Definition generateRealisticPercentiles
    (baseCost : num) (organizationFactors : OrganizationFactors) : Percentiles :=
  let adjustedBase := adjustedBase baseCost organizationFactors in
  let baseVariance := fmul adjustedBase (lit 6 10) in
  let longTailFactor := lit 18 10 in
  {| p5th := Math_round (Math_max (fmul adjustedBase (lit 15 100))
                                  (fsub adjustedBase (fmul baseVariance (lit 15 10))));
     p25th := Math_round (fmul adjustedBase (lit 55 100));
     Median := Math_round adjustedBase;
     p75th := Math_round (fmul adjustedBase (lit 165 100));
     p95th := Math_round (fmul (fmul adjustedBase longTailFactor) (lit 22 10)) |}.

(** ** The engine: the [results] memo *)

(** The [inputs] state of the component. *)
Record Inputs : Type := {
  employees : num;
  revenue : num;
  insurance : num;
  backupsIsolated : bool;
  mfaEnabled : bool;
  phishingTraining : bool;
  vendorReviews : bool;
  irTabletop : bool
}.

Record ScenarioResult : Type := {
  s_scenario : ThreatScenario;
  percentiles : Percentiles
}.

Record CostBreakdownEntry : Type := {
  e_category : CostCategory;
  e_reductionFactor : num;
  e_adjustedCost : num;
  e_colorIndex : nat
}.

Record RiskAssessmentResult : Type := {
  r_scenarios : list ScenarioResult;
  r_costBreakdown : list CostBreakdownEntry;
  r_totalCost : num;
  r_securityScore : num;
  r_riskReduction : num
}.

(** The controls of the source, for statements that range over them. *)
Inductive control : Type :=
| BackupsIsolated | MfaEnabled | PhishingTraining | VendorReviews | IrTabletop.

(** [{ ...inputs, [c]: true }]. *)
Definition enable (c : control) (i : Inputs) : Inputs :=
  {| employees := employees i; revenue := revenue i; insurance := insurance i;
     backupsIsolated := match c with BackupsIsolated => true | _ => backupsIsolated i end;
     mfaEnabled := match c with MfaEnabled => true | _ => mfaEnabled i end;
     phishingTraining := match c with PhishingTraining => true | _ => phishingTraining i end;
     vendorReviews := match c with VendorReviews => true | _ => vendorReviews i end;
     irTabletop := match c with IrTabletop => true | _ => irTabletop i end |}.

Module Engine.
Import SECURITY_WEIGHTS.

(** The constants bound inside the memo, as functions of [inputs]. *)
Definition securityScore (inputs : Inputs) : num :=
  fadd (fadd (fadd (fadd (fadd
    (if backupsIsolated inputs then BACKUPS else int 0)
    (if mfaEnabled inputs then MFA else int 0))
    (if phishingTraining inputs then PHISHING_TRAINING else int 0))
    (if vendorReviews inputs then VENDOR_REVIEWS else int 0))
    (if irTabletop inputs then IR_TABLETOP else int 0))
    BASE_SECURITY.

Definition riskReduction (inputs : Inputs) : num :=
  Math_min (fmul (securityScore inputs) (lit 65 100)) (lit 75 100).

(** [[...].filter(Boolean).length] over the five controls. *)
Definition enabledControls (inputs : Inputs) : nat :=
  length (filter (fun b : bool => b)
    [ backupsIsolated inputs; mfaEnabled inputs; phishingTraining inputs;
      vendorReviews inputs; irTabletop inputs ]).

Definition synergyBonus (inputs : Inputs) : num :=
  if (4 <=? enabledControls inputs)%nat then lit 15 100
  else if (3 <=? enabledControls inputs)%nat then lit 10 100
  else int 0.

(** The category-specific reductions, accumulated by the five [if]s. *)
Definition directReduction (inputs : Inputs) (category : CostCategory) : num :=
  let r := int 0 in
  let r := if String.eqb (cat_name category) "Emergency IT/Forensics" && backupsIsolated inputs
           then fadd r (lit 35 100) else r in
  let r := if String.eqb (cat_name category) "Revenue Loss" && mfaEnabled inputs
           then fadd r (lit 25 100) else r in
  let r := if String.eqb (cat_name category) "Client Churn" && phishingTraining inputs
           then fadd r (lit 30 100) else r in
  let r := if String.eqb (cat_name category) "Regulatory Fines" && vendorReviews inputs
           then fadd r (lit 45 100) else r in
  let r := if String.eqb (cat_name category) "Staff Overtime" && irTabletop inputs
           then fadd r (lit 40 100) else r in
  r.

Definition reductionFactor (inputs : Inputs) (category : CostCategory) : num :=
  Math_min (fadd (directReduction inputs category) (synergyBonus inputs)) (lit 70 100).

(** The same two quantities without their [Math.min] caps, for the
    comparison of the capped and the uncapped pipeline. *)
Definition riskReduction_uncapped (inputs : Inputs) : num :=
  fmul (securityScore inputs) (lit 65 100).

Definition reductionFactor_uncapped (inputs : Inputs) (category : CostCategory) : num :=
  fadd (directReduction inputs category) (synergyBonus inputs).

Definition scenarios (organizationFactors : OrganizationFactors) : list ScenarioResult :=
  map (fun scenario =>
         {| s_scenario := scenario;
            percentiles :=
              generateRealisticPercentiles (sc_baseCost scenario) organizationFactors |})
      THREAT_SCENARIOS.

Definition costEntry (reductionFactor sizeFactor : num) (index : nat)
    (category : CostCategory) : CostBreakdownEntry :=
  let adjustedCost :=
    fmul (fmul (cat_baseCost category) (fsub (int 1) reductionFactor)) sizeFactor in
  {| e_category := category;
     e_reductionFactor := reductionFactor;
     e_adjustedCost := Math_round adjustedCost;
     e_colorIndex := (index mod 11)%nat |}.

(** [l.map((a, index) => f index a)]. *)
Fixpoint mapi {A B : Type} (f : nat -> A -> B) (index : nat) (l : list A) : list B :=
  match l with
  | [] => []
  | a :: l' => f index a :: mapi f (S index) l'
  end.

Definition adjustedCosts (reductionFactor : CostCategory -> num) (sizeFactor : num)
  : list CostBreakdownEntry :=
  mapi (fun index category => costEntry (reductionFactor category) sizeFactor index category)
       0%nat COST_CATEGORIES.

Definition totalCost (adjustedCosts : list CostBreakdownEntry) : num :=
  fold_left (fun sum cat => fadd sum (e_adjustedCost cat)) adjustedCosts (int 0).

(** The body of the [try] block once its leading constants are bound.  It
    only applies arithmetic and [Math] functions to numbers and maps over
    the two fixed catalogs; none of these operations raises an exception, so
    the [catch] branch, which returns [null] (here [None]), is never
    entered. *)
Definition assess (securityScore sizeFactor revenueFactor riskReduction : num)
    (reductionFactor : CostCategory -> num) : option RiskAssessmentResult :=
  let organizationFactors :=
    {| f_sizeFactor := sizeFactor;
       f_revenueFactor := revenueFactor;
       f_riskReduction := riskReduction |} in
  let scenarios := scenarios organizationFactors in
  let adjustedCosts := adjustedCosts reductionFactor sizeFactor in
  let totalCost := totalCost adjustedCosts in
  Some {| r_scenarios := scenarios;
          r_costBreakdown := adjustedCosts;
          r_totalCost := totalCost;
          r_securityScore := Math_round (fmul securityScore (int 100));
          r_riskReduction := Math_round (fmul riskReduction (int 100)) |}.

Section WithLog10.

(** The implementation-approximated part of the engine's [Math.log10]. *)
Variable approx : Z -> num.

Definition sizeFactor (inputs : Inputs) : num :=
  Math_max (int 1)
    (fadd (fmul (Math_log10 approx
                   (fdiv (Math_max (employees inputs) (int 10)) (int 100)))
                (lit 2 10))
          (int 1)).

Definition revenueFactor (inputs : Inputs) : num :=
  Math_max (int 1)
    (fadd (fmul (Math_log10 approx
                   (fdiv (Math_max (revenue inputs) (int 1000000)) (int 10000000)))
                (lit 15 100))
          (int 1)).

Definition organizationFactors (inputs : Inputs) : OrganizationFactors :=
  {| f_sizeFactor := sizeFactor inputs;
     f_revenueFactor := revenueFactor inputs;
     f_riskReduction := riskReduction inputs |}.

(** The memo. *)
Definition results (inputs : Inputs) : option RiskAssessmentResult :=
  assess (securityScore inputs) (sizeFactor inputs) (revenueFactor inputs)
         (riskReduction inputs) (reductionFactor inputs).

(** The memo with both caps removed. *)
Definition results_uncapped (inputs : Inputs) : option RiskAssessmentResult :=
  assess (securityScore inputs) (sizeFactor inputs) (revenueFactor inputs)
         (riskReduction_uncapped inputs) (reductionFactor_uncapped inputs).

End WithLog10.
End Engine.

(** ** Statements about the engine *)

(** The order the percentile distribution is to have. *)
Definition ordered (p : Percentiles) : bool :=
  nle (int 0) (p5th p) && nle (p5th p) (p25th p) && nle (p25th p) (Median p)
  && nle (Median p) (p75th p) && nle (p75th p) (p95th p).

(** A value is within the configured range of a field. *)
Definition in_limits (field : string) (value : num) : bool :=
  match INPUT_LIMITS field with
  | Some limits => nle (min limits) value && nle value (max limits)
  | None => true
  end.

Definition in_range (inputs : Inputs) : bool :=
  in_limits "employees" (employees inputs)
  && in_limits "revenue" (revenue inputs)
  && in_limits "insurance" (insurance inputs).

(** What is asked of the approximated part of [Math.log10]: a finite
    result, of magnitude at most 400 (the decimal logarithm of a positive
    finite double lies between -324 and 309). *)
Definition log10_bounded (approx : Z -> num) : Prop :=
  forall k, 0 < k -> exists y, approx k = Fin y /\ - (400 * U) <= y <= 400 * U.

(** The two arguments of [Math.max] in the '5th' entry. *)
Definition floor5 (x : num) : num := fmul x (lit 15 100).
Definition spread5 (x : num) : num :=
  fsub x (fmul (fmul x (lit 6 10)) (lit 15 10)).

(** [lo <= x <= hi]. *)
Definition within (lo hi x : num) : Prop := nle lo x = true /\ nle x hi = true.

(** [x] is the whole number [n] give or take one. *)
Definition near (x : num) (n : Z) : bool := nle (int (n - 1)) x && nle x (int (n + 1)).

(** The worked example: the initial state of the component. *)
Definition example_inputs : Inputs :=
  {| employees := int 250; revenue := int 50000000; insurance := int 1000000;
     backupsIsolated := true; mfaEnabled := true; phishingTraining := true;
     vendorReviews := true; irTabletop := true |}.

Definition no_controls (employees revenue insurance : num) : Inputs :=
  {| employees := employees; revenue := revenue; insurance := insurance;
     backupsIsolated := false; mfaEnabled := false; phishingTraining := false;
     vendorReviews := false; irTabletop := false |}.

(** A logarithm for closed evaluations: at 2.5 and at 5, the two arguments
    the worked example reaches, the doubles nearest to the decimal
    logarithms (0x1.977d95ec10c02p-2 and 0x1.65df657b04301p-1, that is
    0.3979400086720376 and 0.6989700043360189); zero elsewhere. *)
Definition approx_sample (k : Z) : num :=
  if Z.eqb k (5 * 2 ^ 1073) then Fin (0x1977d95ec10c02 * 2 ^ 1020)
  else if Z.eqb k (5 * U) then Fin (0x165df657b04301 * 2 ^ 1021)
  else Fin 0.

(** ** Input validation *)

Section Validation.

(** [Number.prototype.toLocaleString], which depends on the locale. *)
Variable toLocaleString : num -> string.

Definition boundMessage (limits : Limits) : string :=
  String.append "Value must be between "
    (String.append (toLocaleString (min limits))
       (String.append " and " (toLocaleString (max limits)))).

(** [validateInput(field, value)] run on the error state [inputErrors]: the
    returned boolean and the state after the [setInputErrors] update. *)
Definition validateInput (field : string) (value : num)
    (inputErrors : gmap string string) : bool * gmap string string :=
  match INPUT_LIMITS field with
  | None => (true, inputErrors)
  | Some limits =>
      if nlt value (min limits) || ngt value (max limits)
      then (false, <[field := boundMessage limits]> inputErrors)
      else (true, delete field inputErrors)
  end.

End Validation.

(** ** The input handlers *)

(** A value handed to [handleInputChange], as [typeof] tells them apart. *)
Inductive value : Type :=
| Number (n : num)
| Boolean (b : bool).

(** The two pieces of state the handlers write. *)
Record State : Type := {
  st_inputs : Inputs;
  st_inputErrors : gmap string string
}.

(** [{ ...prev, [field]: value }] on the eight fields of the state, for a
    value of the type the field holds: every call of the component is of this
    kind.  [None] stands for the other updates (a new key, or a number under
    a control and conversely), which leave the shape of [Inputs]. *)
Definition set_field (field : string) (v : value) (prev : Inputs) : option Inputs :=
  match v with
  | Number n =>
      if String.eqb field "employees" then
        Some {| employees := n; revenue := revenue prev; insurance := insurance prev;
                backupsIsolated := backupsIsolated prev; mfaEnabled := mfaEnabled prev;
                phishingTraining := phishingTraining prev;
                vendorReviews := vendorReviews prev; irTabletop := irTabletop prev |}
      else if String.eqb field "revenue" then
        Some {| employees := employees prev; revenue := n; insurance := insurance prev;
                backupsIsolated := backupsIsolated prev; mfaEnabled := mfaEnabled prev;
                phishingTraining := phishingTraining prev;
                vendorReviews := vendorReviews prev; irTabletop := irTabletop prev |}
      else if String.eqb field "insurance" then
        Some {| employees := employees prev; revenue := revenue prev; insurance := n;
                backupsIsolated := backupsIsolated prev; mfaEnabled := mfaEnabled prev;
                phishingTraining := phishingTraining prev;
                vendorReviews := vendorReviews prev; irTabletop := irTabletop prev |}
      else None
  | Boolean b =>
      if String.eqb field "backupsIsolated" then
        Some {| employees := employees prev; revenue := revenue prev;
                insurance := insurance prev;
                backupsIsolated := b; mfaEnabled := mfaEnabled prev;
                phishingTraining := phishingTraining prev;
                vendorReviews := vendorReviews prev; irTabletop := irTabletop prev |}
      else if String.eqb field "mfaEnabled" then
        Some {| employees := employees prev; revenue := revenue prev;
                insurance := insurance prev;
                backupsIsolated := backupsIsolated prev; mfaEnabled := b;
                phishingTraining := phishingTraining prev;
                vendorReviews := vendorReviews prev; irTabletop := irTabletop prev |}
      else if String.eqb field "phishingTraining" then
        Some {| employees := employees prev; revenue := revenue prev;
                insurance := insurance prev;
                backupsIsolated := backupsIsolated prev; mfaEnabled := mfaEnabled prev;
                phishingTraining := b;
                vendorReviews := vendorReviews prev; irTabletop := irTabletop prev |}
      else if String.eqb field "vendorReviews" then
        Some {| employees := employees prev; revenue := revenue prev;
                insurance := insurance prev;
                backupsIsolated := backupsIsolated prev; mfaEnabled := mfaEnabled prev;
                phishingTraining := phishingTraining prev;
                vendorReviews := b; irTabletop := irTabletop prev |}
      else if String.eqb field "irTabletop" then
        Some {| employees := employees prev; revenue := revenue prev;
                insurance := insurance prev;
                backupsIsolated := backupsIsolated prev; mfaEnabled := mfaEnabled prev;
                phishingTraining := phishingTraining prev;
                vendorReviews := vendorReviews prev; irTabletop := b |}
      else None
  end.

(** [x || 0] on a number: [NaN] and zero are falsy. *)
Definition or_zero (x : num) : num :=
  if is_nan x || (nle x (Fin 0) && nle (Fin 0) x) then int 0 else x.

(** The fields wired to a number box and to a checkbox. *)
Definition number_fields : list string := ["employees"; "revenue"; "insurance"].
Definition control_fields : list string :=
  ["backupsIsolated"; "mfaEnabled"; "phishingTraining"; "vendorReviews"; "irTabletop"].

(** What the user does: an edit of a number box, [parsed] being what
    [parseInt] made of its text, or a click on a checkbox. *)
Inductive event : Type :=
| Edit (field : string) (parsed : num)
| Toggle (field : string) (checked : bool).

(** The events the page can raise. *)
Definition wired (ev : event) : Prop :=
  match ev with
  | Edit field _ => In field number_fields
  | Toggle field _ => In field control_fields
  end.

(** The state the component starts in. *)
Definition initial : State :=
  {| st_inputs := example_inputs; st_inputErrors := ∅ |}.

Section Handlers.

Variable toLocaleString : num -> string.

(** [handleInputChange(field, value)] as a function of the state. *)
Definition handleInputChange (field : string) (v : value) (st : State) : option State :=
  match v with
  | Number n =>
      let (ok, errors) := validateInput toLocaleString field n (st_inputErrors st) in
      if ok then
        option_map (fun i => {| st_inputs := i; st_inputErrors := errors |})
                   (set_field field v (st_inputs st))
      else Some {| st_inputs := st_inputs st; st_inputErrors := errors |}
  | Boolean _ =>
      option_map (fun i => {| st_inputs := i; st_inputErrors := st_inputErrors st |})
                 (set_field field v (st_inputs st))
  end.

(** The [onChange] handlers of the number boxes and of the checkboxes. *)
Definition onChange (ev : event) (st : State) : option State :=
  match ev with
  | Edit field parsed => handleInputChange field (Number (or_zero parsed)) st
  | Toggle field checked => handleInputChange field (Boolean checked) st
  end.

(** The states the page can be in. *)
Inductive reachable : State -> Prop :=
| reachable_initial : reachable initial
| reachable_step st ev st' :
    reachable st -> wired ev -> onChange ev st = Some st' -> reachable st'.

End Handlers.

(** The number stored under a field. *)
Definition number_of (field : string) (i : Inputs) : option num :=
  if String.eqb field "employees" then Some (employees i)
  else if String.eqb field "revenue" then Some (revenue i)
  else if String.eqb field "insurance" then Some (insurance i)
  else None.

(** The setting stored under a field. *)
Definition control_of (field : string) (i : Inputs) : option bool :=
  if String.eqb field "backupsIsolated" then Some (backupsIsolated i)
  else if String.eqb field "mfaEnabled" then Some (mfaEnabled i)
  else if String.eqb field "phishingTraining" then Some (phishingTraining i)
  else if String.eqb field "vendorReviews" then Some (vendorReviews i)
  else if String.eqb field "irTabletop" then Some (irTabletop i)
  else None.

(** ** The data of the two charts *)

(** A point of the bar chart (the colour is left out). *)
Record ChartPoint : Type := {
  c_scenario : string;
  c_percentile : string;
  c_value : num
}.

(** [Object.entries(percentiles)]: the five keys in the order of insertion. *)
Definition entries (p : Percentiles) : list (string * num) :=
  [ ("5th", p5th p); ("25th", p25th p); ("Median", Median p);
    ("75th", p75th p); ("95th", p95th p) ].

(** The [chartData] memo; [None] is the [null] result. *)
Definition chartData (results : option RiskAssessmentResult) : list ChartPoint :=
  match results with
  | None => []
  | Some results =>
      flat_map (fun scenario =>
                  map (fun '(percentile, value) =>
                         {| c_scenario := sc_name (s_scenario scenario);
                            c_percentile := percentile;
                            c_value := Math_round value |})
                      (entries (percentiles scenario)))
               (r_scenarios results)
  end.

(** A slice of the pie chart (the colour is left out). *)
Record PieSlice : Type := {
  p_name : string;
  p_value : num
}.

(** [name.split('/')[0]]: the text before the first slash. *)
Fixpoint before_slash (s : string) : string :=
  match s with
  | EmptyString => EmptyString
  | String c s' =>
      if Ascii.eqb c "/"%char then EmptyString else String c (before_slash s')
  end.

(** The [pieData] memo: [slice(0, 6)] keeps the first six entries. *)
Definition pieData (results : option RiskAssessmentResult) : list PieSlice :=
  match results with
  | None => []
  | Some results =>
      map (fun cat => {| p_name := before_slash (cat_name (e_category cat));
                         p_value := e_adjustedCost cat |})
          (firstn 6 (r_costBreakdown results))
  end.

(** ** The signup function *)

Module Webhook.

#[local] Set Warnings "-register-all".
Inductive json : Type :=
| JNull
| JBool (b : bool)
| JNumber (n : num)
| JString (s : string)
| JArray (l : list json)
| JObject (l : list (string * json)).

(** The event handed to the function; [None] is a missing or null body. *)
Record Event : Type := { ev_body : option string }.

Record Response : Type := { statusCode : Z; body : string }.

Inductive completion (A : Type) : Type :=
| Normal (a : A)
| Throw (error : string).
Arguments Normal {A} a.
Arguments Throw {A} error.

Definition bind {A B : Type} (c : completion A) (f : A -> completion B) : completion B :=
  match c with
  | Normal a => f a
  | Throw e => Throw e
  end.

Definition try_catch {A : Type} (c : completion A) (handler : string -> completion A)
  : completion A :=
  match c with
  | Normal a => Normal a
  | Throw e => handler e
  end.

Definition truthy (v : json) : bool :=
  match v with
  | JNull => false
  | JBool b => b
  | JNumber n => negb (is_nan n) && negb (nle n (Fin 0) && nle (Fin 0) n)
  | JString s => negb (String.eqb s EmptyString)
  | JArray _ | JObject _ => true
  end.

Fixpoint lookup_key (key : string) (l : list (string * json)) : option json :=
  match l with
  | [] => None
  | (k, v) :: l' => if String.eqb k key then Some v else lookup_key key l'
  end.

(** The property read [v.key]: a [TypeError] on [null], the member of an
    object, [undefined] ([None]) otherwise. *)
Definition get (v : json) (key : string) : completion (option json) :=
  match v with
  | JNull => Throw "TypeError"
  | JObject l => Normal (lookup_key key l)
  | _ => Normal None
  end.

Definition granted : json :=
  JObject [("app_metadata", JObject [("roles", JArray [JString "subscriber"])])].

Section Handler.

(** [JSON.parse]; [None] is the [SyntaxError] it throws. *)
Variable JSON_parse : string -> option json.

(** [JSON.stringify], on the two literal objects the function passes it. *)
Variable JSON_stringify : json -> string.

(** The text given to [JSON.parse]: [event.body || '{}']. *)
Definition parsed_text (event : Event) : string :=
  match ev_body event with
  | Some s => if String.eqb s EmptyString then "{}" else s
  | None => "{}"
  end.

(** [exports.handler]; the event itself may be missing ([None]). *)
Definition handler (event : option Event) : completion Response :=
  try_catch
    (bind (match event with
           | Some e => Normal (parsed_text e)
           | None => Throw "TypeError"
           end) (fun text =>
     bind (match JSON_parse text with
           | Some v => Normal v
           | None => Throw "SyntaxError"
           end) (fun payload =>
     bind (if truthy payload then
             bind (get payload "user") (fun u =>
               Normal (match u with
                       | Some u' => if truthy u' then u' else payload
                       | None => payload
                       end))
           else Normal payload) (fun user =>
     Normal {| statusCode := 200; body := JSON_stringify granted |}))))
    (fun e => Normal {| statusCode := 200; body := JSON_stringify (JObject []) |}).

End Handler.
End Webhook.

(** ** Definitions used by the statements and their proofs *)

Local Open Scope Z_scope.

(** [x <= y] between values that are not negative (an infinity included). *)
Definition le_pos (x y : num) : Prop := nle (Fin 0) x = true /\ nle x y = true.

(** Equality of numbers as values of the model (here [NaN] equals itself:
    this is identity, not the [==] of the language). *)
Definition num_eqb (x y : num) : bool :=
  match x, y with
  | NaN, NaN => true
  | Inf s, Inf t => Bool.eqb s t
  | Fin a, Fin b => a =? b
  | _, _ => false
  end.

(** [f] holds of the two lists position by position. *)
Fixpoint forallb2 {A B : Type} (f : A -> B -> bool) (l : list A) (l' : list B) : bool :=
  match l, l' with
  | [], [] => true
  | a :: l, b :: l' => f a b && forallb2 f l l'
  | _, _ => false
  end.

(** The five controls. *)
Definition controls : list control :=
  [BackupsIsolated; MfaEnabled; PhishingTraining; VendorReviews; IrTabletop].

(** Every control enabled in [i] is enabled in [j]. *)
Definition controls_le (i j : Inputs) : bool :=
  implb (backupsIsolated i) (backupsIsolated j)
  && implb (mfaEnabled i) (mfaEnabled j)
  && implb (phishingTraining i) (phishingTraining j)
  && implb (vendorReviews i) (vendorReviews j)
  && implb (irTabletop i) (irTabletop j).

(** A fraction as the rounded percentage the result carries. *)
Definition percent (x : num) : num := Math_round (fmul x (int 100)).

(** Closed facts about the score, checked by evaluation for each of the 32
    settings of the controls. *)
Definition check_score (i : Inputs) : bool :=
  let s := Engine.securityScore i in
  is_finite s && nle (lit 15 100) s && nle s (int 1)
  && forallb (fun c => nle s (Engine.securityScore (enable c i))
                       && nle (percent s) (percent (Engine.securityScore (enable c i))))
             controls.

(** Closed facts about the risk reduction. *)
Definition check_rr (i : Inputs) : bool :=
  let r := Engine.riskReduction i in
  num_eqb r (Engine.riskReduction_uncapped i)
  && nle r (lit 65 100) && nle r (lit 75 100)
  && nle (percent r) (int 75)
  && nle (Fin 0) (fsub (int 1) r) && nle (fsub (int 1) r) (int 1).

(** Closed facts about the reduction factors of the eleven categories: their
    range, the uncapped sum, and the effect of enabling each control. *)
Definition check_rf (i : Inputs) : bool :=
  let row := map (Engine.reductionFactor i) COST_CATEGORIES in
  forallb (fun x => nle (Fin 0) x && nle x (lit 70 100)
                    && nle x (fadd (lit 45 100) (lit 15 100))) row
  && forallb2 num_eqb row (map (Engine.reductionFactor_uncapped i) COST_CATEGORIES)
  && forallb (fun c => forallb2 nle row (map (Engine.reductionFactor (enable c i)) COST_CATEGORIES))
             controls.

(** A profile with every control enabled. *)
Definition all_controls (employees revenue insurance : num) : Inputs :=
  {| employees := employees; revenue := revenue; insurance := insurance;
     backupsIsolated := true; mfaEnabled := true; phishingTraining := true;
     vendorReviews := true; irTabletop := true |}.

(** One adjusted cost, as the memo computes it. *)
Definition cost (rf : CostCategory -> num) (s : num) (cat : CostCategory) : num :=
  Math_round (fmul (fmul (cat_baseCost cat) (fsub (int 1) (rf cat))) s).

(** The shape shared by [sizeFactor] and [revenueFactor]. *)
Definition scaleFactor (approx : Z -> num) (x : num) (floor ref : Z) (c : num) : num :=
  Math_max (int 1)
    (fadd (fmul (Math_log10 approx (fdiv (Math_max x (int floor)) (int ref))) c) (int 1)).

(** [x] lies between the finite doubles [lo] and [hi]. *)
Definition bounded (lo hi x : num) : Prop :=
  is_finite lo = true /\ is_finite hi = true /\ nle lo x = true /\ nle x hi = true.

(** The scenario of a given name in the result. *)
Definition find_scenario (name : string) (l : list ScenarioResult) : option ScenarioResult :=
  find (fun s => String.eqb (sc_name (s_scenario s)) name) l.

(** [x] is [n / 10000] to four decimal places. *)
Definition near4 (x : num) (n : Z) : bool :=
  nle (lit (2 * n - 1) 20000) x && nle x (lit (2 * n + 1) 20000).

(** The two factors and the adjusted base of the worked example at the two
    ends of the interval allowed to the logarithm. *)
Definition size_lo : num :=
  Math_max (int 1) (fadd (fmul (lit 397939 1000000) (lit 2 10)) (int 1)).
Definition size_hi : num :=
  Math_max (int 1) (fadd (fmul (lit 397941 1000000) (lit 2 10)) (int 1)).
Definition revenue_lo : num :=
  Math_max (int 1) (fadd (fmul (lit 698969 1000000) (lit 15 100)) (int 1)).
Definition revenue_hi : num :=
  Math_max (int 1) (fadd (fmul (lit 698971 1000000) (lit 15 100)) (int 1)).

Definition base_lo : num :=
  fmul (fmul (fmul (int 300000) size_lo) revenue_lo)
       (fsub (int 1) (Engine.riskReduction example_inputs)).
Definition base_hi : num :=
  fmul (fmul (fmul (int 300000) size_hi) revenue_hi)
       (fsub (int 1) (Engine.riskReduction example_inputs)).

(** The adjusted base of the Phishing scenario in the worked example. *)
Definition example_base (approx : Z -> num) : num :=
  adjustedBase (int 300000) (Engine.organizationFactors approx example_inputs).

(** en-US rendering of a whole number: digits in groups of three. *)
Fixpoint group3 (digits : list ascii) (n : nat) : list ascii :=
  match digits with
  | [] => []
  | d :: rest =>
      match n, rest with
      | 2%nat, _ :: _ => d :: ","%char :: group3 rest 0
      | _, _ => d :: group3 rest (S n)
      end
  end.

(** [toLocaleString] in the en-US locale, on whole numbers. *)
Definition toLocaleString_enUS (x : num) : string :=
  match x with
  | NaN => "NaN"%string
  | Inf false => "Infinity"%string
  | Inf true => "-Infinity"%string
  | Fin k =>
      let n := Z.abs k / U in
      let digits := rev (group3 (rev (list_ascii_of_string (pretty n))) 0) in
      String.append (if Z.ltb k 0 then "-"%string else EmptyString)
                    (string_of_list_ascii digits)
  end.

(** The worked example with a head count that is not a number. *)
Definition nan_employees : Inputs :=
  {| employees := NaN; revenue := int 50000000; insurance := int 1000000;
     backupsIsolated := true; mfaEnabled := true; phishingTraining := true;
     vendorReviews := true; irTabletop := true |}.

(** ** Definitions used by the further properties *)

(** A logarithm that is not positive below one. *)
Definition log10_sign (approx : Z -> num) : Prop :=
  forall k, 0 < k < U -> nle (approx k) (Fin 0) = true.

(** The five percentiles of [p] are at most those of [p']. *)
Definition percentiles_le (p p' : Percentiles) : bool :=
  nle (p5th p) (p5th p') && nle (p25th p) (p25th p') && nle (Median p) (Median p')
  && nle (p75th p) (p75th p') && nle (p95th p) (p95th p').

(** A logarithm that does not decrease. *)
Definition log10_monotone (approx : Z -> num) : Prop :=
  forall k k', 0 < k <= k' ->
    nle (Math_log10 approx (Fin k)) (Math_log10 approx (Fin k')) = true.

(** [{ ...inputs, employees, revenue }]. *)
Definition resize (employees' revenue' : num) (i : Inputs) : Inputs :=
  {| employees := employees'; revenue := revenue'; insurance := insurance i;
     backupsIsolated := backupsIsolated i; mfaEnabled := mfaEnabled i;
     phishingTraining := phishingTraining i; vendorReviews := vendorReviews i;
     irTabletop := irTabletop i |}.

(** A crude logarithm for closed evaluations: -1 below one, 1 above. *)
Definition approx_step (k : Z) : num := if Z.ltb k U then Fin (- U) else Fin U.

(** What the five [if]s of the memo give: the control that reduces a
    category directly, and the reduction in hundredths. *)
Definition direct_control (name : string) : option (control * Z) :=
  if String.eqb name "Emergency IT/Forensics" then Some (BackupsIsolated, 35)
  else if String.eqb name "Revenue Loss" then Some (MfaEnabled, 25)
  else if String.eqb name "Client Churn" then Some (PhishingTraining, 30)
  else if String.eqb name "Regulatory Fines" then Some (VendorReviews, 45)
  else if String.eqb name "Staff Overtime" then Some (IrTabletop, 40)
  else None.

(** The setting of a control. *)
Definition enabled (c : control) (i : Inputs) : bool :=
  match c with
  | BackupsIsolated => backupsIsolated i
  | MfaEnabled => mfaEnabled i
  | PhishingTraining => phishingTraining i
  | VendorReviews => vendorReviews i
  | IrTabletop => irTabletop i
  end.

(** The direct reduction and the synergy bonus, in hundredths. *)
Definition direct_percent (inputs : Inputs) (name : string) : Z :=
  match direct_control name with
  | Some (c, n) => if enabled c inputs then n else 0
  | None => 0
  end.

Definition synergy_percent (inputs : Inputs) : Z :=
  if (4 <=? Engine.enabledControls inputs)%nat then 15
  else if (3 <=? Engine.enabledControls inputs)%nat then 10
  else 0.

(** The reduction factor the memo computes from [n] hundredths of direct
    reduction and [m] hundredths of bonus (zero standing for an addition
    that is not made). *)
Definition reduction_of (n m : Z) : num :=
  fadd (if Z.eqb n 0 then int 0 else fadd (int 0) (lit n 100))
       (if Z.eqb m 0 then int 0 else lit m 100).

(** The display of a reduction: its rounded percentage is the sum of the
    hundredths, and it is above zero when the sum is. *)
Definition check_display (n m : Z) : bool :=
  num_eqb (percent (reduction_of n m)) (int (n + m))
  && Bool.eqb (nlt (int 0) (reduction_of n m)) (Z.ltb 0 (n + m)).

(** The weights of the enabled controls and the base weight, in hundredths. *)
Definition score_percent (inputs : Inputs) : Z :=
  (if backupsIsolated inputs then 15 else 0) + (if mfaEnabled inputs then 20 else 0)
  + (if phishingTraining inputs then 15 else 0) + (if vendorReviews inputs then 25 else 0)
  + (if irTabletop inputs then 10 else 0) + 15.

(** A profile-free setting of the five controls. *)
Definition setting (b m p v t : bool) : Inputs :=
  {| employees := Fin 0; revenue := Fin 0; insurance := Fin 0;
     backupsIsolated := b; mfaEnabled := m; phishingTraining := p;
     vendorReviews := v; irTabletop := t |}.

Definition check_score_display (i : Inputs) : bool :=
  num_eqb (percent (Engine.securityScore i)) (int (score_percent i)).

(** * Facts about the arithmetic *)

(** ** The rounding agrees with its textbook statement *)

Lemma shift_nonneg n : 0 <= shift n.
Proof. unfold shift. lia. Qed.

Lemma pow2_pos e : 0 <= e -> 0 < 2 ^ e.
Proof. intros. apply Z.pow_pos_nonneg; lia. Qed.

Lemma round_pos_ref a b s :
  0 <= a -> 0 < b -> 0 <= s -> round_pos a b s = round_ref a (b * 2 ^ s).
Proof.
  intros Ha Hb Hs. unfold round_pos, round_ref, rne.
  pose proof (pow2_pos s Hs) as Hps.
  rewrite (Z.shiftr_div_pow2 a s) by assumption.
  rewrite Z.div_div by lia.
  replace (2 ^ s * b) with (b * 2 ^ s) by lia.
  set (n := a / (b * 2 ^ s)).
  pose proof (shift_nonneg n) as He.
  set (e := shift n) in *.
  pose proof (pow2_pos e He) as Hpe.
  rewrite Z.shiftr_div_pow2 by assumption.
  rewrite Z.pow_add_r by assumption.
  replace (b * (2 ^ s * 2 ^ e)) with (b * 2 ^ s * 2 ^ e) by lia.
  set (d := b * 2 ^ s * 2 ^ e).
  assert (Hd : 0 < d) by (unfold d; nia).
  assert (Hq : n / 2 ^ e = a / d).
  { unfold n, d. rewrite Z.div_div by nia. reflexivity. }
  rewrite Hq.
  replace (a - a / d * d) with (a mod d) by (rewrite Z.mod_eq by lia; lia).
  reflexivity.
Qed.

Lemma rne_floor d a : a / d <= rne a d <= a / d + 1.
Proof.
  unfold rne. destruct (2 * (a mod d) ?= d); try destruct (Z.even (a / d)); lia.
Qed.

Lemma rne_err d a (Hd : 0 < d) : 2 * a - d <= 2 * (d * rne a d) <= 2 * a + d.
Proof.
  unfold rne. pose proof (Z.div_mod a d ltac:(lia)) as E.
  pose proof (Z.mod_pos_bound a d Hd) as B.
  destruct (Z.compare_spec (2 * (a mod d)) d); try destruct (Z.even (a / d)); nia.
Qed.

Lemma rne_mono d a1 a2 (Hd : 0 < d) : a1 <= a2 -> rne a1 d <= rne a2 d.
Proof.
  intros H.
  assert (Hq : a1 / d <= a2 / d) by (apply Z.div_le_mono; lia).
  destruct (Z.eq_dec (a1 / d) (a2 / d)) as [E|N].
  - assert (Hr : a1 mod d <= a2 mod d).
    { rewrite !Z.mod_eq by lia. rewrite E. lia. }
    unfold rne. rewrite E.
    destruct (Z.compare_spec (2 * (a1 mod d)) d), (Z.compare_spec (2 * (a2 mod d)) d);
      destruct (Z.even (a2 / d)); lia.
  - pose proof (rne_floor d a1). pose proof (rne_floor d a2). lia.
Qed.

Lemma rne_exact d m (Hd : 0 < d) : rne (m * d) d = m.
Proof.
  unfold rne. rewrite Z.div_mul, Z.mod_mul by lia.
  destruct (Z.compare_spec (2 * 0) d); lia.
Qed.

Lemma rne_nonneg d a (Hd : 0 < d) : 0 <= a -> 0 <= rne a d.
Proof.
  intros. pose proof (rne_floor d a). pose proof (Z.div_pos a d). lia.
Qed.

Lemma rne_scale a d c : 0 < d -> 0 < c -> rne (a * c) (d * c) = rne a d.
Proof.
  intros Hd Hc. unfold rne.
  rewrite Z.div_mul_cancel_r by lia.
  rewrite Z.mul_mod_distr_r by lia.
  replace (2 * (a mod d * c) ?= d * c) with (2 * (a mod d) ?= d); [reflexivity|].
  destruct (Z.compare_spec (2 * (a mod d)) d);
    symmetry; [apply Z.compare_eq_iff | apply Z.compare_lt_iff | apply Z.compare_gt_iff]; nia.
Qed.

Lemma shift_spec n : 0 <= n ->
  let e := shift n in
  (e = 0 /\ n < 2 ^ 53) \/ (0 < e /\ 2 ^ (52 + e) <= n < 2 ^ (53 + e)).
Proof.
  intros Hn e. unfold e, shift.
  destruct (Z.eq_dec n 0) as [->|N].
  - left. split; [reflexivity | apply pow2_pos; lia].
  - pose proof (Z.log2_spec n ltac:(lia)) as [L1 L2].
    pose proof (Z.log2_nonneg n).
    destruct (Z_le_gt_dec (Z.log2 n - 52) 0).
    + left. split; [lia|].
      eapply Z.lt_le_trans; [exact L2|]. apply Z.pow_le_mono_r; lia.
    + right. rewrite Z.max_r by lia. split; [lia|].
      replace (52 + (Z.log2 n - 52)) with (Z.log2 n) by lia.
      replace (53 + (Z.log2 n - 52)) with (Z.succ (Z.log2 n)) by lia.
      lia.
Qed.

Lemma shift_mono n1 n2 : n1 <= n2 -> shift n1 <= shift n2.
Proof.
  intros. unfold shift. pose proof (Z.log2_le_mono n1 n2 H). lia.
Qed.

Lemma round_ref_range a b (Hb : 0 < b) : 0 <= a ->
  let e := shift (a / b) in
  0 <= round_ref a b <= 2 ^ 53 * 2 ^ e /\ (0 < e -> 2 ^ 52 * 2 ^ e <= round_ref a b).
Proof.
  intros Ha e.
  assert (Hn : 0 <= a / b) by (apply Z.div_pos; lia).
  pose proof (shift_nonneg (a / b)) as He. fold e in He.
  pose proof (pow2_pos e He) as Hpe.
  assert (Hd : 0 < b * 2 ^ e) by nia.
  pose proof (rne_floor (b * 2 ^ e) a) as [F1 F2].
  pose proof (rne_nonneg (b * 2 ^ e) a Hd Ha) as F0.
  pose proof (Z.div_mod a b ltac:(lia)) as E.
  pose proof (Z.mod_pos_bound a b Hb) as B.
  assert (Hup : a / (b * 2 ^ e) < 2 ^ 53).
  { apply Z.div_lt_upper_bound; [lia|].
    destruct (shift_spec (a / b) Hn) as [[E0 L]|[E1 [L1 L2]]]; fold e in E0 || fold e in E1.
    - rewrite E0. change (2 ^ 0) with 1. nia.
    - fold e in L2. rewrite Z.pow_add_r in L2 by lia. nia. }
  unfold round_ref. fold e. split.
  - split; [nia|]. apply Z.mul_le_mono_nonneg_r; lia.
  - intros Hpos.
    destruct (shift_spec (a / b) Hn) as [[E0 L]|[E1 [L1 L2]]]; fold e in E0 || fold e in E1; [lia|].
    fold e in L1. rewrite Z.pow_add_r in L1 by lia.
    assert (2 ^ 52 <= a / (b * 2 ^ e)).
    { apply Z.div_le_lower_bound; [lia|]. pose proof (pow2_pos 52 ltac:(lia)). nia. }
    apply Z.mul_le_mono_nonneg_r; lia.
Qed.

Lemma round_ref_mono a1 a2 b (Hb : 0 < b) : 0 <= a1 -> a1 <= a2 -> round_ref a1 b <= round_ref a2 b.
Proof.
  intros H1 H2.
  assert (Hq : a1 / b <= a2 / b) by (apply Z.div_le_mono; lia).
  pose proof (shift_mono _ _ Hq) as He.
  pose proof (shift_nonneg (a1 / b)) as He1.
  destruct (Z.eq_dec (shift (a1 / b)) (shift (a2 / b))) as [E|N].
  - unfold round_ref. rewrite <- E.
    pose proof (pow2_pos _ He1).
    apply Z.mul_le_mono_nonneg_r; [lia|]. apply rne_mono; [nia|lia].
  - pose proof (round_ref_range a1 b Hb H1) as [[_ R1] _].
    pose proof (round_ref_range a2 b Hb ltac:(lia)) as [_ R2].
    specialize (R2 ltac:(lia)).
    rewrite <- Z.pow_add_r in R1, R2 by lia.
    assert (2 ^ (53 + shift (a1 / b)) <= 2 ^ (52 + shift (a2 / b)))
      by (apply Z.pow_le_mono_r; lia).
    lia.
Qed.

(** The rounding error is at most half a unit in the last place. *)
Lemma round_ref_err a b (Hb : 0 < b) : 0 <= a ->
  2 ^ 54 * a - 2 * a - 2 ^ 53 * b <= 2 ^ 54 * (b * round_ref a b)
    <= 2 ^ 54 * a + 2 * a + 2 ^ 53 * b.
Proof.
  intros Ha.
  assert (Hn : 0 <= a / b) by (apply Z.div_pos; lia).
  pose proof (shift_nonneg (a / b)) as He.
  pose proof (pow2_pos _ He) as Hpe.
  set (e := shift (a / b)) in *.
  assert (Hd : 0 < b * 2 ^ e) by nia.
  pose proof (rne_err (b * 2 ^ e) a Hd) as R.
  pose proof (Z.div_mod a b ltac:(lia)) as E.
  pose proof (Z.mod_pos_bound a b Hb) as B.
  assert (HD : 2 ^ 52 * (b * 2 ^ e) <= a + 2 ^ 52 * b).
  { destruct (shift_spec (a / b) Hn) as [[E0 L]|[E1 [L1 L2]]]; fold e in E0 || fold e in E1.
    - rewrite E0. change (2 ^ 0) with 1. lia.
    - fold e in L1. rewrite Z.pow_add_r in L1 by lia.
      pose proof (pow2_pos 52 ltac:(lia)). nia. }
  unfold round_ref. fold e.
  replace (b * (rne a (b * 2 ^ e) * 2 ^ e)) with (b * 2 ^ e * rne a (b * 2 ^ e)) by lia.
  change (2 ^ 54) with (4 * 2 ^ 52). change (2 ^ 53) with (2 * 2 ^ 52).
  pose proof (pow2_pos 52 ltac:(lia)).
  set (P := 2 ^ 52) in *. set (D := b * 2 ^ e) in *. set (R' := rne a D) in *.
  nia.
Qed.

Lemma round_ref_scale a b c : 0 <= a -> 0 < b -> 0 < c ->
  round_ref (a * c) (b * c) = round_ref a b.
Proof.
  intros. unfold round_ref. rewrite Z.div_mul_cancel_r by lia.
  pose proof (pow2_pos _ (shift_nonneg (a / b))).
  replace (b * c * 2 ^ shift (a / b)) with (b * 2 ^ shift (a / b) * c) by lia.
  rewrite rne_scale by nia. reflexivity.
Qed.

(** A magnitude with at most 53 significant bits is a fixed point. *)
Lemma round_ref_grid m j : 0 <= m <= 2 ^ 53 -> 0 <= j ->
  round_ref (m * 2 ^ j) 1 = m * 2 ^ j.
Proof.
  intros Hm Hj. unfold round_ref. rewrite Z.div_1_r.
  pose proof (pow2_pos j Hj) as Hpj.
  set (v := m * 2 ^ j). assert (Hv : 0 <= v) by (unfold v; nia).
  pose proof (shift_nonneg v) as He. pose proof (pow2_pos _ He) as Hpe.
  set (e := shift v) in *.
  assert (Hdiv : exists q, v = q * (1 * 2 ^ e)).
  { destruct (Z_le_gt_dec e j).
    - exists (m * 2 ^ (j - e)). unfold v. rewrite Z.mul_1_l, <- Z.mul_assoc, <- Z.pow_add_r by lia.
      do 2 f_equal. lia.
    - destruct (shift_spec v Hv) as [[E0 L]|[E1 [L1 L2]]]; fold e in E0 || fold e in E1; [lia|].
      fold e in L1.
      assert (Hle : v <= 2 ^ (53 + j)).
      { unfold v. rewrite Z.pow_add_r by lia. nia. }
      assert (Hej : e = j + 1).
      { destruct (Z_le_gt_dec e (j + 1)); [lia|].
        assert (2 ^ (53 + j) < 2 ^ (52 + e)) by (apply Z.pow_lt_mono_r; lia). lia. }
      exists (2 ^ 52). rewrite Hej in *. replace (52 + (j + 1)) with (53 + j) in L1 by lia.
      replace v with (2 ^ (53 + j)) by lia.
      rewrite Z.mul_1_l, <- Z.pow_add_r by lia. f_equal. lia. }
  destruct Hdiv as [q Hq]. rewrite Hq at 1. rewrite rne_exact by lia. lia.
Qed.

Lemma round_ref_idem a b : 0 <= a -> 0 < b ->
  round_ref (round_ref a b) 1 = round_ref a b.
Proof.
  intros Ha Hb.
  pose proof (round_ref_range a b Hb Ha) as [[R0 R1] _].
  pose proof (shift_nonneg (a / b)) as He. pose proof (pow2_pos _ He) as Hpe.
  unfold round_ref at 2. unfold round_ref in R0, R1.
  apply round_ref_grid; [|assumption]. nia.
Qed.

(** ** Rounding to a double *)

Lemma rnd_ref a b s : 0 < b -> 0 <= s ->
  rnd a b s =
  if OVF <=? round_ref (Z.abs a) (b * 2 ^ s) then Inf (a <? 0)
  else Fin (Z.sgn a * round_ref (Z.abs a) (b * 2 ^ s)).
Proof.
  intros. unfold rnd. rewrite round_pos_ref by lia. reflexivity.
Qed.

Lemma rnd_not_nan a b s : is_nan (rnd a b s) = false.
Proof. unfold rnd. destruct (OVF <=? _); reflexivity. Qed.

Lemma nle_refl x : is_nan x = false -> nle x x = true.
Proof. destruct x as [|[]|k]; simpl; try discriminate; auto. intros _. lia. Qed.

Lemma nle_trans x y z : nle x y = true -> nle y z = true -> nle x z = true.
Proof.
  destruct x as [|[]|a], y as [|[]|b], z as [|[]|c]; simpl; try discriminate; auto.
  intros. lia.
Qed.

Lemma nle_Fin a b : nle (Fin a) (Fin b) = true <-> a <= b.
Proof. simpl. lia. Qed.

Lemma nle_not_nlt x y : nle x y = true -> nlt y x = false.
Proof.
  destruct x as [|[]|a], y as [|[]|b]; simpl; try discriminate; auto. intros. lia.
Qed.

Lemma nle_not_nan_l x y : nle x y = true -> is_nan x = false.
Proof. destruct x; [discriminate|reflexivity..]. Qed.

Lemma nle_not_nan_r x y : nle x y = true -> is_nan y = false.
Proof. destruct x as [|[]|a], y as [|[]|b]; simpl; try discriminate; auto. Qed.

(** Rounding is monotone. *)
Lemma rnd_le a1 b1 s1 a2 b2 s2 :
  0 < b1 -> 0 <= s1 -> 0 < b2 -> 0 <= s2 ->
  a1 * (b2 * 2 ^ s2) <= a2 * (b1 * 2 ^ s1) ->
  nle (rnd a1 b1 s1) (rnd a2 b2 s2) = true.
Proof.
  intros Hb1 Hs1 Hb2 Hs2 H.
  rewrite !rnd_ref by assumption.
  pose proof (pow2_pos s1 Hs1). pose proof (pow2_pos s2 Hs2).
  set (B1 := b1 * 2 ^ s1) in *. set (B2 := b2 * 2 ^ s2) in *.
  assert (HB1 : 0 < B1) by (unfold B1; nia).
  assert (HB2 : 0 < B2) by (unfold B2; nia).
  rewrite <- (round_ref_scale (Z.abs a1) B1 B2) by lia.
  rewrite <- (round_ref_scale (Z.abs a2) B2 B1) by lia.
  replace (B2 * B1) with (B1 * B2) by lia.
  assert (HB : 0 < B1 * B2) by nia.
  pose proof (round_ref_range (Z.abs a1 * B2) (B1 * B2) HB ltac:(nia)) as [[P1 _] _].
  pose proof (round_ref_range (Z.abs a2 * B1) (B1 * B2) HB ltac:(nia)) as [[P2 _] _].
  set (M1 := round_ref (Z.abs a1 * B2) (B1 * B2)) in *.
  set (M2 := round_ref (Z.abs a2 * B1) (B1 * B2)) in *.
  pose proof (Z.sgn_spec a1) as S1. pose proof (Z.sgn_spec a2) as S2.
  assert (G : (a1 < 0 /\ (a2 < 0 -> M2 <= M1)) \/ (0 <= a1 /\ 0 <= a2 /\ M1 <= M2 /\ (a1 > 0 -> a2 > 0))).
  { destruct (Z_lt_le_dec a1 0) as [N1|N1]; [left|right].
    - split; [lia|]. intros. apply round_ref_mono; nia.
    - assert (0 <= a2) by nia. split; [lia|]. split; [lia|]. split; [apply round_ref_mono; nia | nia]. }
  destruct (Z.leb_spec OVF M1), (Z.leb_spec OVF M2),
    (Z.ltb_spec a1 0), (Z.ltb_spec a2 0); simpl; auto; try lia; apply Z.leb_le; nia.
Qed.

Lemma round_ref_0 b : 0 < b -> round_ref 0 b = 0.
Proof.
  intros. pose proof (round_ref_mono 0 0 b H ltac:(lia) ltac:(lia)).
  pose proof (round_ref_err 0 b H ltac:(lia)) as [_ E].
  pose proof (round_ref_range 0 b H ltac:(lia)) as [[R _] _].
  pose proof (pow2_pos 53 ltac:(lia)). pose proof (pow2_pos 54 ltac:(lia)).
  change (2 ^ 54) with (2 * 2 ^ 53) in *. nia.
Qed.

(** What a rounding returns is a double. *)
Lemma rnd_double a b s k : 0 < b -> 0 <= s -> rnd a b s = Fin k -> double k.
Proof.
  intros Hb Hs. unfold double. rewrite !rnd_ref by lia.
  pose proof (pow2_pos s Hs).
  assert (HB : 0 < b * 2 ^ s) by nia.
  pose proof (round_ref_range (Z.abs a) (b * 2 ^ s) HB ltac:(lia)) as [[P _] _].
  pose proof (round_ref_idem (Z.abs a) (b * 2 ^ s) ltac:(lia) HB) as I.
  change (1 * 2 ^ 0) with 1.
  assert (Z0 : a = 0 -> round_ref (Z.abs a) (b * 2 ^ s) = 0)
    by (intros ->; apply round_ref_0; lia).
  set (M := round_ref (Z.abs a) (b * 2 ^ s)) in *.
  destruct (Z.leb_spec OVF M); [discriminate|].
  intros [= <-].
  assert (E : Z.abs (Z.sgn a * M) = M).
  { destruct (Z.sgn_spec a) as [[_ ->]|[[? ->]|[_ ->]]]; lia. }
  rewrite E, I.
  destruct (Z.leb_spec OVF M); [lia|]. f_equal.
  destruct (Z.eq_dec M 0) as [->|]; [lia|].
  destruct (Z.sgn_spec a) as [[_ ->]|[[_ ->]|[_ ->]]]; simpl.
  - rewrite Z.sgn_pos by lia. lia.
  - lia.
  - rewrite Z.sgn_neg by lia. lia.
Qed.

(** What rounds to zero or below is at most half a unit. *)
Lemma rnd_nonneg a b s : 0 < b -> 0 <= s -> 0 <= a -> nle (Fin 0) (rnd a b s) = true.
Proof.
  intros. replace (Fin 0) with (rnd 0 1 0) by reflexivity.
  pose proof (pow2_pos s). apply rnd_le; try lia; nia.
Qed.

(** ** The arithmetic operations on finite arguments *)

Lemma U_pos : 0 < U.
Proof. apply pow2_pos. lia. Qed.

Lemma U_eq : 1 * 2 ^ 1074 = U.
Proof. reflexivity. Qed.

Lemma OVF_eq : OVF = 2 ^ 1024 * U.
Proof. reflexivity. Qed.

(** Relative error of rounding below one half percent, with the half unit
    of the subnormal range: enough for the comparisons that follow. *)
Lemma round_ref_coarse a b : 0 < b -> 0 <= a ->
  199 * a - 100 * b <= 200 * (b * round_ref a b) <= 201 * a + 100 * b.
Proof.
  intros Hb Ha. pose proof (round_ref_err a b Hb Ha) as [E1 E2].
  change (2 ^ 54) with (2 * 2 ^ 53) in *.
  assert (P : 200 <= 2 ^ 53) by (apply Z.leb_le; reflexivity).
  set (Q := 2 ^ 53) in *. set (R := b * round_ref a b) in *. nia.
Qed.

Lemma fmul_Fin a c :
  0 <= a -> 0 <= c -> round_ref (a * c) U < OVF ->
  fmul (Fin a) (Fin c) = Fin (round_ref (a * c) U).
Proof.
  intros Ha Hc H. unfold fmul. rewrite rnd_ref by lia. rewrite U_eq.
  rewrite Z.abs_eq by nia.
  destruct (Z.leb_spec OVF (round_ref (a * c) U)); [lia|]. f_equal.
  destruct (Z.eq_dec (a * c) 0) as [E|N].
  - rewrite E. rewrite round_ref_0 by apply U_pos. reflexivity.
  - rewrite Z.sgn_pos by nia. lia.
Qed.

Lemma fmul_comm x y : fmul x y = fmul y x.
Proof.
  destruct x as [|s|a], y as [|t|b]; simpl; try reflexivity.
  - rewrite xorb_comm. reflexivity.
  - rewrite Z.mul_comm. reflexivity.
Qed.

(** Multiplication by a non-negative constant is monotone. *)
Lemma fmul_mono_l a a' c : 0 <= c -> a <= a' ->
  nle (fmul (Fin a) (Fin c)) (fmul (Fin a') (Fin c)) = true.
Proof.
  intros. unfold fmul. apply rnd_le; try lia. nia.
Qed.

Lemma fmul_mono a a' c c' : 0 <= a <= a' -> 0 <= c <= c' ->
  nle (fmul (Fin a) (Fin c)) (fmul (Fin a') (Fin c')) = true.
Proof.
  intros. unfold fmul. apply rnd_le; try lia. nia.
Qed.

Lemma fadd_mono a a' c c' : a <= a' -> c <= c' ->
  nle (fadd (Fin a) (Fin c)) (fadd (Fin a') (Fin c')) = true.
Proof.
  intros. unfold fadd. apply rnd_le; try lia.
Qed.

Lemma Math_round_mono x y : nle x y = true -> nle (Math_round x) (Math_round y) = true.
Proof.
  destruct x as [|[]|a], y as [|[]|b]; simpl; auto.
  intros H. apply Z.leb_le in H. apply Z.leb_le.
  rewrite !Z.shiftr_div_pow2 by lia.
  apply Z.mul_le_mono_nonneg_r; [pose proof U_pos; lia|].
  apply Z.div_le_mono; [apply pow2_pos|]; lia.
Qed.

Lemma Math_round_nonneg x : nle (Fin 0) x = true -> nle (Fin 0) (Math_round x) = true.
Proof.
  intros H. apply Math_round_mono in H.
  replace (Math_round (Fin 0)) with (Fin 0) in H by (vm_compute; reflexivity). exact H.
Qed.

Lemma Math_max_l x y : nle y x = true -> Math_max x y = x.
Proof.
  intros H. pose proof (nle_not_nlt _ _ H) as N.
  destruct x as [|s|a], y as [|t|b]; try discriminate; unfold Math_max; rewrite N; reflexivity.
Qed.

(** ** The lower branch of the 5th percentile *)

(** Every double literal of the program is finite. *)
Lemma lit_units n d : is_finite (lit n d) = true -> lit n d = Fin (units (lit n d)).
Proof. destruct (lit n d); try discriminate. reflexivity. Qed.

(** With [c15], [c6] and [c32] standing for the doubles 0.15, 0.6 and 1.5:
    above 32 units the spread branch [k - (k * c6) * c32], about a tenth of
    [k], stays under [k * c15] whatever the three roundings do. *)
Lemma spread_le_floor k c15 c6 c32 :
  32 <= k < OVF ->
  1499 * U <= 10000 * c15 -> 599 * U <= 1000 * c6 <= 601 * U -> 2 * c32 = 3 * U ->
  nle (fsub (Fin k) (fmul (fmul (Fin k) (Fin c6)) (Fin c32))) (fmul (Fin k) (Fin c15)) = true.
Proof.
  intros [Hk Hov] B15 [B6 B6'] B32.
  pose proof U_pos as HU.
  pose proof (round_ref_coarse (k * c6) U HU ltac:(nia)) as [L1 U1].
  pose proof (round_ref_range (k * c6) U HU ltac:(nia)) as [[Hbv _] _].
  set (bv := round_ref (k * c6) U) in *.
  assert (Hbvk : bv < k) by nia.
  rewrite (fmul_Fin k c6) by (fold bv; lia). fold bv.
  pose proof (round_ref_coarse (bv * c32) U HU ltac:(nia)) as [L2 U2].
  pose proof (round_ref_range (bv * c32) U HU ltac:(nia)) as [[Hv _] _].
  set (v := round_ref (bv * c32) U) in *.
  assert (Hvk : v < k) by nia.
  rewrite (fmul_Fin bv c32) by (fold v; lia). fold v.
  unfold fsub, fneg, fadd, fmul.
  apply rnd_le; try lia.
  rewrite U_eq. change (1 * 2 ^ 0) with 1.
  pose proof (Z.mul_le_mono_nonneg_l _ _ k ltac:(lia) B6) as P1.
  pose proof (f_equal (Z.mul bv) B32) as P2.
  pose proof (Z.mul_le_mono_nonneg_l _ _ k ltac:(lia) B15) as P3.
  pose proof (Z.mul_le_mono_nonneg_r _ _ U ltac:(lia) Hk) as P4.
  lia.
Qed.

Lemma spread5_le_floor5_large k : 32 <= k < OVF ->
  nle (spread5 (Fin k)) (floor5 (Fin k)) = true.
Proof.
  intros Hk. unfold spread5, floor5.
  rewrite (lit_units 15 100), (lit_units 6 10), (lit_units 15 10)
    by (vm_compute; reflexivity).
  apply spread_le_floor; [exact Hk | | split | ];
    (apply Z.leb_le || apply Z.eqb_eq); vm_compute; reflexivity.
Qed.

Lemma spread5_le_floor5_small k : 0 <= k < 32 ->
  nle (spread5 (Fin k)) (floor5 (Fin k)) = true.
Proof.
  intros Hk.
  assert (A : forallb (fun n => nle (spread5 (Fin (Z.of_nat n))) (floor5 (Fin (Z.of_nat n))))
                      (seq 0 32) = true) by (vm_compute; reflexivity).
  rewrite forallb_forall in A.
  specialize (A (Z.to_nat k)). rewrite Z2Nat.id in A by lia.
  apply A. apply in_seq. lia.
Qed.

Lemma spread5_le_floor5 k : 0 <= k < OVF ->
  nle (spread5 (Fin k)) (floor5 (Fin k)) = true.
Proof.
  intros. destruct (Z_lt_le_dec k 32).
  - apply spread5_le_floor5_small. lia.
  - apply spread5_le_floor5_large. lia.
Qed.

(** ** Doubles, products and the percentile order *)

Lemma double_bound k : 0 <= k -> double k -> k < OVF.
Proof.
  unfold double. intros Hk. rewrite rnd_ref by lia. change (1 * 2 ^ 0) with 1.
  rewrite Z.abs_eq by lia.
  destruct (Z.leb_spec OVF (round_ref k 1)); [discriminate|].
  intros [= E]. destruct (Z.eq_dec k 0) as [->|]; [reflexivity|].
  rewrite Z.sgn_pos in E by lia. lia.
Qed.

Lemma fmul_double x y k : fmul x y = Fin k -> double k.
Proof.
  destruct x as [|s|a], y as [|t|b]; simpl; try discriminate.
  - destruct (b =? 0); discriminate.
  - destruct (a =? 0); discriminate.
  - apply rnd_double; lia.
Qed.

Lemma fmul_not_nan a b : is_nan (fmul (Fin a) (Fin b)) = false.
Proof. apply rnd_not_nan. Qed.

(** A double times a constant compared with the double itself. *)
Lemma fmul_le_self k c : 0 <= k -> double k -> 0 <= c <= U ->
  nle (fmul (Fin k) (Fin c)) (Fin k) = true.
Proof.
  intros Hk D Hc. unfold double in D. rewrite <- D at 2. unfold fmul.
  apply rnd_le; try lia. rewrite U_eq. change (1 * 2 ^ 0) with 1. nia.
Qed.

Lemma fmul_ge_self k c : 0 <= k -> double k -> U <= c ->
  nle (Fin k) (fmul (Fin k) (Fin c)) = true.
Proof.
  intros Hk D Hc. unfold double in D. rewrite <- D at 1. unfold fmul.
  apply rnd_le; try lia. rewrite U_eq. change (1 * 2 ^ 0) with 1. nia.
Qed.

(** The lower branch never wins: the '5th' entry is the rounded floor. *)
Lemma Math_max_floor5 k : 0 <= k < OVF ->
  Math_max (floor5 (Fin k)) (spread5 (Fin k)) = floor5 (Fin k).
Proof.
  intros. apply Math_max_l. apply spread5_le_floor5. assumption.
Qed.

Lemma nle_top x : is_nan x = false -> nle x (Inf false) = true.
Proof. destruct x as [|[]|]; simpl; auto. Qed.

Lemma int_0 : int 0 = Fin 0.
Proof. vm_compute. reflexivity. Qed.

Lemma percentiles_ordered baseCost f k :
  adjustedBase baseCost f = Fin k -> 0 <= k ->
  ordered (generateRealisticPercentiles baseCost f) = true.
Proof.
  intros E Hk.
  assert (D : double k) by (eapply fmul_double; exact E).
  pose proof (double_bound k Hk D) as Hov.
  unfold ordered, generateRealisticPercentiles; cbn [p5th p25th Median p75th p95th].
  rewrite E.
  change (Math_max (fmul (Fin k) (lit 15 100))
            (fsub (Fin k) (fmul (fmul (Fin k) (lit 6 10)) (lit 15 10))))
    with (Math_max (floor5 (Fin k)) (spread5 (Fin k))).
  rewrite Math_max_floor5 by lia. unfold floor5.
  rewrite (lit_units 15 100), (lit_units 55 100), (lit_units 165 100),
    (lit_units 18 10), (lit_units 22 10) by (vm_compute; reflexivity).
  assert (C : 0 <= units (lit 15 100) <= units (lit 55 100)
              /\ units (lit 55 100) <= U <= units (lit 165 100)
              /\ U <= units (lit 18 10)
              /\ units (lit 165 100) <= units (lit 22 10)).
  { repeat split; apply Z.leb_le; vm_compute; reflexivity. }
  destruct C as ([C1 C2] & [C3 C4] & C5 & C6).
  generalize dependent (units (lit 15 100)). generalize dependent (units (lit 55 100)).
  generalize dependent (units (lit 165 100)). generalize dependent (units (lit 18 10)).
  generalize dependent (units (lit 22 10)).
  intros c22 c18 C5 c165 C4 C6 c55 C3 c15 C1 C2. rewrite int_0.
  repeat (apply andb_true_intro; split).
  - apply Math_round_nonneg. unfold fmul. apply rnd_nonneg; lia.
  - apply Math_round_mono. apply fmul_mono; lia.
  - apply Math_round_mono. apply fmul_le_self; auto; lia.
  - apply Math_round_mono. apply fmul_ge_self; auto; lia.
  - apply Math_round_mono.
    pose proof U_pos as HU. pose proof (fmul_ge_self k c18 Hk D C5) as G.
    destruct (fmul (Fin k) (Fin c18)) as [|s|w] eqn:W; try discriminate.
    + destruct s; [discriminate|]. cbn [fmul].
      destruct (Z.eqb_spec c22 0); [lia|].
      destruct (Z.ltb_spec c22 0); [lia|]. cbn [xorb].
      apply nle_top, fmul_not_nan.
    + apply Z.leb_le in G. apply fmul_mono; lia.
Qed.

(** ** Integer literals and bounded products *)

Lemma int_units n : 0 <= n <= 2 ^ 53 -> int n = Fin (n * U).
Proof.
  intros Hn. unfold int, lit. rewrite rnd_ref by lia. change (1 * 2 ^ 0) with 1.
  pose proof U_pos as HU.
  rewrite Z.abs_eq by nia.
  pose proof (round_ref_grid n 1074 Hn ltac:(lia)) as G. fold U in G. rewrite G.
  assert (B : 2 ^ 53 * U < OVF) by (apply Z.ltb_lt; vm_compute; reflexivity).
  destruct (Z.leb_spec OVF (n * U)); [nia|]. f_equal.
  destruct (Z.eq_dec n 0) as [->|]; [reflexivity|].
  rewrite Z.sgn_pos by nia. lia.
Qed.

Lemma within_Fin lo hi x :
  nle (Fin lo) x = true -> nle x (Fin hi) = true -> exists k, x = Fin k /\ lo <= k <= hi.
Proof.
  destruct x as [|[]|k]; simpl; try discriminate.
  intros. exists k. split; [reflexivity|lia].
Qed.

(** A product of two bounded non-negative doubles is finite. *)
Lemma fmul_bounded a c A C :
  0 <= a <= A * U -> 0 <= c <= C * U -> 0 <= A * C <= 2 ^ 53 ->
  exists t, fmul (Fin a) (Fin c) = Fin t /\ 0 <= t <= A * C * U.
Proof.
  intros Ha Hc HAC. pose proof U_pos as HU.
  apply within_Fin.
  - unfold fmul. apply rnd_nonneg; nia.
  - rewrite <- (int_units (A * C)) by lia. unfold int, lit, fmul.
    apply rnd_le; try lia. rewrite U_eq. change (1 * 2 ^ 0) with 1.
    assert (a * c <= (A * U) * (C * U)) by (apply Z.mul_le_mono_nonneg; lia).
    lia.
Qed.

(** ** Sums of non-negative values *)

Lemma fadd_le_pos x x' y y' :
  le_pos x x' -> le_pos y y' -> le_pos (fadd x y) (fadd x' y').
Proof.
  intros [X0 X] [Y0 Y].
  destruct x as [|[]|a], x' as [|[]|a'], y as [|[]|b], y' as [|[]|b'];
    simpl in *; try discriminate; split; auto.
  - replace (Fin 0) with (rnd 0 1 0) by reflexivity. apply rnd_le; lia.
  - apply nle_top, rnd_not_nan.
  - replace (Fin 0) with (rnd 0 1 0) by reflexivity. apply rnd_le; lia.
  - apply nle_top, rnd_not_nan.
  - replace (Fin 0) with (rnd 0 1 0) by reflexivity. apply rnd_le; lia.
  - apply nle_top, rnd_not_nan.
  - replace (Fin 0) with (rnd 0 1 0) by reflexivity. apply rnd_le; lia.
  - apply rnd_le; lia.
Qed.

Lemma fold_fadd_le_pos l l' acc acc' :
  Forall2 le_pos l l' -> le_pos acc acc' ->
  le_pos (fold_left fadd l acc) (fold_left fadd l' acc').
Proof.
  intros H. revert acc acc'. induction H as [|x x' l l' Hx _ IH]; intros acc acc' Hacc.
  - exact Hacc.
  - simpl. apply IH. apply fadd_le_pos; assumption.
Qed.

Lemma fold_fadd_nan l acc : fold_left fadd (l ++ [NaN]) acc = NaN.
Proof.
  rewrite fold_left_app. simpl. destruct (fold_left fadd l acc); reflexivity.
Qed.

Lemma Math_round_le_pos x y : le_pos x y -> le_pos (Math_round x) (Math_round y).
Proof.
  intros [X0 X]. split; [apply Math_round_nonneg | apply Math_round_mono]; assumption.
Qed.

(** A positive coefficient times a scale factor that is at least one. *)
Lemma fmul_scale_le_pos c c' s :
  0 < c' <= c -> (s = Inf false \/ exists k, s = Fin k /\ 0 <= k) ->
  le_pos (fmul (Fin c') s) (fmul (Fin c) s).
Proof.
  intros Hc [->|(k & -> & Hk)].
  - simpl. destruct (Z.eqb_spec c' 0); [lia|]. destruct (Z.eqb_spec c 0); [lia|].
    destruct (Z.ltb_spec c' 0); [lia|]. destruct (Z.ltb_spec c 0); [lia|].
    split; reflexivity.
  - split.
    + unfold fmul. apply rnd_nonneg; nia.
    + apply fmul_mono_l; lia.
Qed.

(** ** The settings of the controls *)

Ltac split_andb H :=
  repeat match type of H with
         | (_ && _ = true) => let H' := fresh H in apply andb_prop in H; destruct H as [H H']
         end.

Ltac closed := vm_compute; reflexivity.

Lemma int_1 : int 1 = Fin U.
Proof. vm_compute. reflexivity. Qed.

(** A decimal literal that is not negative and below 2^53 is a finite
    double, and literals compare as the fractions they denote. *)
Lemma lit_le n d n' d' : 0 < d -> 0 < d' -> n * d' <= n' * d ->
  nle (lit n d) (lit n' d') = true.
Proof.
  intros Hd Hd' H. unfold lit. pose proof U_pos as HU.
  apply rnd_le; try lia. change (2 ^ 0) with 1.
  pose proof (Z.mul_le_mono_nonneg_r _ _ U ltac:(lia) H). lia.
Qed.

Lemma lit_Fin n d : 0 < d -> 0 <= n <= 2 ^ 53 * d ->
  exists k, lit n d = Fin k /\ 0 <= k /\ double k.
Proof.
  intros Hd Hn.
  assert (L : nle (Fin 0) (lit n d) = true).
  { unfold lit. pose proof U_pos. apply rnd_nonneg; nia. }
  assert (H : nle (lit n d) (Fin (2 ^ 53 * U)) = true).
  { rewrite <- (int_units (2 ^ 53)) by lia. apply lit_le; lia. }
  destruct (within_Fin _ _ _ L H) as (k & E & Hk). exists k.
  split; [exact E|]. split; [lia|]. apply (rnd_double (n * U) d 0); [lia|lia|exact E].
Qed.

Lemma weight_le_pos (b b' : bool) n d :
  0 < d -> 0 <= n <= 2 ^ 53 * d -> implb b b' = true ->
  le_pos (if b then lit n d else int 0) (if b' then lit n d else int 0).
Proof.
  intros Hd Hn H. rewrite int_0.
  destruct (lit_Fin n d Hd Hn) as (k & -> & Hk & _).
  destruct b, b'; try discriminate; split; simpl; lia.
Qed.

Lemma securityScore_le_pos i j : controls_le i j = true ->
  le_pos (Engine.securityScore i) (Engine.securityScore j).
Proof.
  intros H. unfold controls_le in H. split_andb H.
  unfold Engine.securityScore.
  apply fadd_le_pos; [apply fadd_le_pos; [apply fadd_le_pos; [apply fadd_le_pos; [apply fadd_le_pos|]|]|]|].
  - apply weight_le_pos; [lia|lia|exact H].
  - apply weight_le_pos; [lia|lia|exact H3].
  - apply weight_le_pos; [lia|lia|exact H2].
  - apply weight_le_pos; [lia|lia|exact H1].
  - apply weight_le_pos; [lia|lia|exact H0].
  - apply (weight_le_pos true true); [lia|lia|reflexivity].
Qed.

Lemma controls_le_none e r ins i : controls_le (no_controls e r ins) i = true.
Proof. reflexivity. Qed.

Lemma controls_le_all i :
  controls_le i (all_controls (employees i) (revenue i) (insurance i)) = true.
Proof. destruct i as [e r ins [] [] [] [] []]; reflexivity. Qed.

Lemma controls_le_enable c i : controls_le i (enable c i) = true.
Proof. destruct i as [e r ins [] [] [] [] []], c; reflexivity. Qed.

Lemma securityScore_all e r ins : Engine.securityScore (all_controls e r ins) = int 1.
Proof. closed. Qed.

Lemma securityScore_none e r ins :
  Engine.securityScore (no_controls e r ins) = lit 15 100.
Proof. closed. Qed.

(** The score is a double between the base weight and one. *)
Lemma securityScore_range i :
  exists a, Engine.securityScore i = Fin a /\ 0 <= a <= U
            /\ nle (lit 15 100) (Fin a) = true.
Proof.
  destruct (securityScore_le_pos (no_controls (employees i) (revenue i) (insurance i)) i
              (controls_le_none _ _ _ i)) as [_ L].
  destruct (securityScore_le_pos i _ (controls_le_all i)) as [P H].
  rewrite securityScore_none in L. rewrite securityScore_all, int_1 in H.
  destruct (within_Fin _ _ _ P H) as (a & E & Ha).
  exists a. rewrite E in L. auto.
Qed.

Lemma percent_mono a b : 0 <= a <= b ->
  nle (percent (Fin a)) (percent (Fin b)) = true.
Proof.
  intros H. unfold percent. apply Math_round_mono.
  rewrite (int_units 100) by lia. pose proof U_pos.
  apply fmul_mono_l; lia.
Qed.

Lemma forallb_controls (f : control -> bool) :
  (forall c, f c = true) -> forallb f controls = true.
Proof. intros H. apply forallb_forall. intros c _. apply H. Qed.

Lemma check_score_ok i : check_score i = true.
Proof.
  unfold check_score. cbv zeta.
  destruct (securityScore_range i) as (a & E & Ha & L). rewrite E.
  apply andb_true_intro. split; [apply andb_true_intro; split;
    [apply andb_true_intro; split; [reflexivity|exact L]|]|].
  - rewrite int_1. apply nle_Fin. lia.
  - apply forallb_controls. intros c.
    destruct (securityScore_range (enable c i)) as (b & E' & Hb & _).
    destruct (securityScore_le_pos i _ (controls_le_enable c i)) as [_ M].
    rewrite E, E' in M. rewrite E'. apply nle_Fin in M.
    apply andb_true_intro. split; [apply nle_Fin; exact M|apply percent_mono; lia].
Qed.

Lemma Math_min_l x y : nle x y = true -> Math_min x y = x.
Proof.
  intros H. pose proof (nle_not_nlt _ _ H) as N.
  destruct x as [|s|a], y as [|t|b]; try discriminate; unfold Math_min; rewrite N; reflexivity.
Qed.

Lemma num_eqb_refl x : num_eqb x x = true.
Proof. destruct x as [|[]|k]; simpl; auto. apply Z.eqb_refl. Qed.

(** The risk reduction: the score times 0.65, a double between 0 and 0.65. *)
Lemma riskReduction_range i :
  exists t, Engine.riskReduction i = Fin t
            /\ Engine.riskReduction_uncapped i = Fin t
            /\ 0 <= t <= units (lit 65 100) /\ units (lit 65 100) <= U.
Proof.
  destruct (securityScore_range i) as (a & E & Ha & _).
  destruct (lit_Fin 65 100 ltac:(lia) ltac:(lia)) as (k & Ek & Hk & D).
  assert (K1 : k <= U).
  { apply nle_Fin. rewrite <- Ek, <- int_1. apply lit_le; lia. }
  assert (H : nle (fmul (Fin a) (Fin k)) (Fin k) = true).
  { rewrite fmul_comm. apply fmul_le_self; [lia|exact D|lia]. }
  assert (P : nle (Fin 0) (fmul (Fin a) (Fin k)) = true).
  { unfold fmul. apply rnd_nonneg; nia. }
  destruct (within_Fin _ _ _ P H) as (t & Et & Ht).
  exists t. unfold Engine.riskReduction, Engine.riskReduction_uncapped.
  rewrite E, Ek, Et. cbn [units]. split; [|split; [reflexivity|lia]].
  apply Math_min_l. apply (nle_trans _ (lit 65 100)).
  - rewrite Ek. apply nle_Fin. lia.
  - apply lit_le; lia.
Qed.

Lemma percent_65 : nle (percent (lit 65 100)) (int 75) = true.
Proof. closed. Qed.

Lemma check_rr_ok i : check_rr i = true.
Proof.
  unfold check_rr. cbv zeta.
  destruct (riskReduction_range i) as (t & E & E' & Ht & K1). rewrite E, E'.
  destruct (lit_Fin 65 100 ltac:(lia) ltac:(lia)) as (k & Ek & Hk & D).
  rewrite Ek in Ht, K1. cbn [units] in Ht, K1.
  assert (L65 : nle (Fin t) (lit 65 100) = true) by (rewrite Ek; apply nle_Fin; lia).
  apply andb_true_intro; split; [apply andb_true_intro; split;
    [apply andb_true_intro; split; [apply andb_true_intro; split;
      [apply andb_true_intro; split|]|]|]|].
  - apply num_eqb_refl.
  - exact L65.
  - apply (nle_trans _ _ _ L65). apply lit_le; lia.
  - apply (nle_trans _ (percent (lit 65 100))); [|exact percent_65].
    rewrite Ek. apply percent_mono. lia.
  - rewrite int_1. unfold fsub, fneg, fadd. apply rnd_nonneg; lia.
  - rewrite int_1 at 1. unfold int, lit, fsub, fneg, fadd.
    apply rnd_le; lia.
Qed.

Lemma le_pos_lit n d n' d' : 0 < d -> 0 < d' -> 0 <= n -> n * d' <= n' * d ->
  le_pos (lit n d) (lit n' d').
Proof.
  intros Hd Hd' Hn H. split; [|apply lit_le; assumption].
  unfold lit. pose proof U_pos. apply rnd_nonneg; nia.
Qed.

Lemma eqb_other (s a b : string) : String.eqb s a = true -> a <> b -> String.eqb s b = false.
Proof. intros H N. apply String.eqb_eq in H. subst. apply String.eqb_neq. exact N. Qed.

(** A category receives at most one of the five direct reductions: the one
    its name selects, when the matching control is enabled. *)
Lemma directReduction_cases cat :
  exists (f : Inputs -> bool) n,
    0 <= n <= 45
    /\ (forall i j, controls_le i j = true -> implb (f i) (f j) = true)
    /\ forall i, Engine.directReduction i cat
                 = if f i then fadd (int 0) (lit n 100) else int 0.
Proof.
  unfold Engine.directReduction. cbv zeta.
  destruct (String.eqb (cat_name cat) "Emergency IT/Forensics") eqn:E1.
  { rewrite (eqb_other _ _ "Revenue Loss" E1) by discriminate. rewrite (eqb_other _ _ "Client Churn" E1) by discriminate. rewrite (eqb_other _ _ "Regulatory Fines" E1) by discriminate. rewrite (eqb_other _ _ "Staff Overtime" E1) by discriminate.
    exists backupsIsolated, 35. split; [lia|]. split.
    - intros i j H. unfold controls_le in H. split_andb H. exact H.
    - intros i. cbn [andb]. reflexivity. }
  destruct (String.eqb (cat_name cat) "Revenue Loss") eqn:E2.
  { rewrite (eqb_other _ _ "Client Churn" E2) by discriminate. rewrite (eqb_other _ _ "Regulatory Fines" E2) by discriminate. rewrite (eqb_other _ _ "Staff Overtime" E2) by discriminate.
    exists mfaEnabled, 25. split; [lia|]. split.
    - intros i j H. unfold controls_le in H. split_andb H. assumption.
    - intros i. cbn [andb]. reflexivity. }
  destruct (String.eqb (cat_name cat) "Client Churn") eqn:E3.
  { rewrite (eqb_other _ _ "Regulatory Fines" E3) by discriminate. rewrite (eqb_other _ _ "Staff Overtime" E3) by discriminate.
    exists phishingTraining, 30. split; [lia|]. split.
    - intros i j H. unfold controls_le in H. split_andb H. assumption.
    - intros i. cbn [andb]. reflexivity. }
  destruct (String.eqb (cat_name cat) "Regulatory Fines") eqn:E4.
  { rewrite (eqb_other _ _ "Staff Overtime" E4) by discriminate.
    exists vendorReviews, 45. split; [lia|]. split.
    - intros i j H. unfold controls_le in H. split_andb H. assumption.
    - intros i. cbn [andb]. reflexivity. }
  destruct (String.eqb (cat_name cat) "Staff Overtime") eqn:E5.
  { exists irTabletop, 40. split; [lia|]. split.
    - intros i j H. unfold controls_le in H. split_andb H. assumption.
    - intros i. cbn [andb]. reflexivity. }
  exists (fun _ => false), 0. split; [lia|]. split; [reflexivity|].
  intros i. cbn [andb]. reflexivity.
Qed.

Lemma fadd_0_lit n d : 0 < d -> 0 <= n <= 2 ^ 53 * d -> fadd (int 0) (lit n d) = lit n d.
Proof.
  intros Hd Hn. rewrite int_0.
  destruct (lit_Fin n d Hd Hn) as (k & -> & Hk & D). exact D.
Qed.

Lemma directReduction_le_pos i j cat : controls_le i j = true ->
  le_pos (Engine.directReduction i cat) (Engine.directReduction j cat).
Proof.
  intros H. destruct (directReduction_cases cat) as (f & n & Hn & M & E).
  rewrite !E. specialize (M i j H). rewrite fadd_0_lit by lia.
  apply weight_le_pos; [lia|lia|exact M].
Qed.

Lemma directReduction_bound i cat : le_pos (Engine.directReduction i cat) (lit 45 100).
Proof.
  destruct (directReduction_cases cat) as (f & n & Hn & M & E).
  rewrite E, fadd_0_lit by lia.
  destruct (f i); [|unfold int]; apply le_pos_lit; lia.
Qed.

Lemma filter_length_le (l l' : list bool) :
  Forall2 (fun b b' => implb b b' = true) l l' ->
  (length (filter (fun b : bool => b) l) <= length (filter (fun b : bool => b) l'))%nat.
Proof.
  induction 1 as [|b b' l l' H _ IH]; [reflexivity|].
  rewrite !filter_cons.
  destruct b, b'; try discriminate; cbn; repeat case_decide; try tauto; cbn [length]; lia.
Qed.

Lemma enabledControls_le i j : controls_le i j = true ->
  (Engine.enabledControls i <= Engine.enabledControls j)%nat.
Proof.
  intros H. unfold controls_le in H. split_andb H.
  unfold Engine.enabledControls. apply filter_length_le. repeat constructor; assumption.
Qed.

Lemma synergyBonus_le_pos i j : controls_le i j = true ->
  le_pos (Engine.synergyBonus i) (Engine.synergyBonus j).
Proof.
  intros H. apply enabledControls_le in H. unfold Engine.synergyBonus, int.
  destruct (Nat.leb_spec 4 (Engine.enabledControls i)),
    (Nat.leb_spec 4 (Engine.enabledControls j)),
    (Nat.leb_spec 3 (Engine.enabledControls i)),
    (Nat.leb_spec 3 (Engine.enabledControls j)); try lia; apply le_pos_lit; lia.
Qed.

Lemma synergyBonus_bound i : le_pos (Engine.synergyBonus i) (lit 15 100).
Proof.
  unfold Engine.synergyBonus, int.
  destruct (4 <=? Engine.enabledControls i)%nat, (3 <=? Engine.enabledControls i)%nat;
    apply le_pos_lit; lia.
Qed.

Lemma sum_below_cap : nle (fadd (lit 45 100) (lit 15 100)) (lit 70 100) = true.
Proof. closed. Qed.

(** The cap of the reduction factor is never reached. *)
Lemma reductionFactor_sum i cat :
  Engine.reductionFactor i cat = Engine.reductionFactor_uncapped i cat
  /\ le_pos (Engine.reductionFactor i cat) (fadd (lit 45 100) (lit 15 100)).
Proof.
  unfold Engine.reductionFactor, Engine.reductionFactor_uncapped.
  pose proof (fadd_le_pos _ _ _ _ (directReduction_bound i cat) (synergyBonus_bound i)) as B.
  rewrite Math_min_l; [split; [reflexivity|exact B]|].
  destruct B as [_ B]. exact (nle_trans _ _ _ B sum_below_cap).
Qed.

Lemma reductionFactor_le i j cat : controls_le i j = true ->
  nle (Engine.reductionFactor i cat) (Engine.reductionFactor j cat) = true.
Proof.
  intros H. rewrite (proj1 (reductionFactor_sum i cat)), (proj1 (reductionFactor_sum j cat)).
  unfold Engine.reductionFactor_uncapped.
  apply fadd_le_pos; [apply directReduction_le_pos|apply synergyBonus_le_pos]; exact H.
Qed.

Lemma forallb2_map {A B C} (f : B -> C -> bool) (g : A -> B) (h : A -> C) l :
  (forall a, f (g a) (h a) = true) -> forallb2 f (map g l) (map h l) = true.
Proof. intros H. induction l as [|a l IH]; simpl; [reflexivity|]. rewrite H, IH. reflexivity. Qed.

Lemma forallb_map {A B} (f : B -> bool) (g : A -> B) l :
  (forall a, f (g a) = true) -> forallb f (map g l) = true.
Proof. intros H. induction l as [|a l IH]; simpl; [reflexivity|]. rewrite H, IH. reflexivity. Qed.

Lemma check_rf_ok i : check_rf i = true.
Proof.
  unfold check_rf. cbv zeta.
  apply andb_true_intro; split; [apply andb_true_intro; split|].
  - apply forallb_map. intros cat.
    destruct (reductionFactor_sum i cat) as [_ [P B]].
    rewrite P, B, (nle_trans _ _ _ B sum_below_cap). reflexivity.
  - apply forallb2_map. intros cat.
    rewrite (proj1 (reductionFactor_sum i cat)). apply num_eqb_refl.
  - apply forallb_controls. intros c. apply forallb2_map. intros cat.
    apply reductionFactor_le, controls_le_enable.
Qed.

Lemma num_eqb_eq x y : num_eqb x y = true -> x = y.
Proof.
  destruct x as [|s|a], y as [|t|b]; simpl; try discriminate; auto.
  - intros H. apply Bool.eqb_prop in H. congruence.
  - intros H. apply Z.eqb_eq in H. congruence.
Qed.

Lemma forallb2_Forall2 {A B} (f : A -> B -> bool) l l' :
  forallb2 f l l' = true -> Forall2 (fun a b => f a b = true) l l'.
Proof.
  revert l'. induction l as [|a l IH]; intros [|b l']; simpl; try discriminate.
  - constructor.
  - intros H. apply andb_prop in H as [H1 H2]. constructor; auto.
Qed.

Lemma adjustedCosts_rf rf s :
  map e_reductionFactor (Engine.adjustedCosts rf s) = map rf COST_CATEGORIES.
Proof. reflexivity. Qed.

Lemma adjustedCosts_cost rf s :
  map e_adjustedCost (Engine.adjustedCosts rf s)
  = map (fun cat => Math_round (fmul (fmul (cat_baseCost cat) (fsub (int 1) (rf cat))) s))
        COST_CATEGORIES.
Proof. reflexivity. Qed.

Lemma totalCost_fold l :
  Engine.totalCost l = fold_left fadd (map e_adjustedCost l) (int 0).
Proof.
  unfold Engine.totalCost. generalize (int 0). induction l as [|e l IH]; intros acc.
  - reflexivity.
  - simpl. apply IH.
Qed.

(** C4. Score bound: for each of the 32 settings of the five controls the
    security score lies between 0.15 and 1.0; with the five controls enabled
    it is exactly 1.0, and with none it is exactly the base weight 0.15
    (whatever the profile). *)
Theorem security_score_bounds :
  (forall inputs,
      nle (lit 15 100) (Engine.securityScore inputs) = true
      /\ nle (Engine.securityScore inputs) (int 1) = true)
  /\ (forall employees revenue insurance,
         Engine.securityScore (all_controls employees revenue insurance) = int 1)
  /\ (forall employees revenue insurance,
         Engine.securityScore (no_controls employees revenue insurance)
         = SECURITY_WEIGHTS.BASE_SECURITY).
Proof.
  split; [|split].
  - intros i. pose proof (check_score_ok i) as H. unfold check_score in H.
    cbv zeta in H. split_andb H. auto.
  - intros. vm_compute. reflexivity.
  - intros. vm_compute. reflexivity.
Qed.

(** C5. Reduction cap: for every input the risk-reduction fraction is at
    most 0.75 (and the percentage of the result at most 75), and the
    reduction factor of every entry of the cost breakdown is at most 0.70. *)
Theorem reduction_caps approx inputs :
  nle (Engine.riskReduction inputs) (lit 75 100) = true
  /\ exists r, Engine.results approx inputs = Some r
       /\ nle (r_riskReduction r) (int 75) = true
       /\ Forall (fun e => nle (e_reductionFactor e) (lit 70 100) = true)
                 (r_costBreakdown r).
Proof.
  pose proof (check_rr_ok inputs) as H. unfold check_rr in H. cbv zeta in H. split_andb H.
  split; [assumption|].
  eexists. split; [reflexivity|]. cbn [r_riskReduction r_costBreakdown].
  split; [assumption|].
  apply Forall_map with (f := e_reductionFactor) (P := fun x => nle x (lit 70 100) = true).
  rewrite adjustedCosts_rf.
  pose proof (check_rf_ok inputs) as R. unfold check_rf in R. cbv zeta in R. split_andb R.
  rewrite forallb_forall in R. apply List.Forall_forall. intros x Hx.
  specialize (R x Hx). split_andb R. assumption.
Qed.

Lemma mapi_ext_Forall {A B} (f g : nat -> A -> B) i l :
  Forall (fun a => forall i, f i a = g i a) l -> Engine.mapi f i l = Engine.mapi g i l.
Proof.
  intros H. revert i. induction H as [|a l Ha _ IH]; intros i; simpl.
  - reflexivity.
  - rewrite Ha, IH. reflexivity.
Qed.

Lemma Forall2_map_same {A B} (R : B -> B -> Prop) (f g : A -> B) l :
  Forall2 R (map f l) (map g l) -> Forall (fun a => R (f a) (g a)) l.
Proof.
  induction l as [|a l IH]; simpl; intros H.
  - constructor.
  - inversion H; subst. constructor; auto.
Qed.

Lemma adjustedCosts_ext rf rf' s :
  Forall (fun cat => rf cat = rf' cat) COST_CATEGORIES ->
  Engine.adjustedCosts rf s = Engine.adjustedCosts rf' s.
Proof.
  intros H. unfold Engine.adjustedCosts. apply mapi_ext_Forall.
  eapply List.Forall_impl; [|exact H]. intros cat E i. cbv beta. rewrite E. reflexivity.
Qed.

Lemma rf_uncapped inputs :
  Forall (fun cat => Engine.reductionFactor inputs cat
                     = Engine.reductionFactor_uncapped inputs cat) COST_CATEGORIES.
Proof.
  pose proof (check_rf_ok inputs) as R. unfold check_rf in R. cbv zeta in R. split_andb R.
  apply forallb2_Forall2, Forall2_map_same in R1.
  eapply List.Forall_impl; [|exact R1]. intros cat. apply num_eqb_eq.
Qed.

(** C10. Neither cap binds: for every setting of the controls the risk
    reduction equals [securityScore * 0.65], which is at most 0.65 and so
    below 0.75; the reduction factor of every catalog category equals
    [directReduction + synergyBonus], which is at most [0.45 + 0.15 = 0.6]
    and so below 0.70; and the memo without the two [Math.min] returns the
    same result as the memo. *)
Theorem caps_never_bind approx inputs :
  Engine.riskReduction inputs = fmul (Engine.securityScore inputs) (lit 65 100)
  /\ nle (Engine.riskReduction inputs) (lit 65 100) = true
  /\ nlt (lit 65 100) (lit 75 100) = true
  /\ Forall (fun category =>
               Engine.reductionFactor inputs category
               = fadd (Engine.directReduction inputs category) (Engine.synergyBonus inputs)
               /\ nle (Engine.reductionFactor inputs category)
                      (fadd (lit 45 100) (lit 15 100)) = true)
            COST_CATEGORIES
  /\ fadd (lit 45 100) (lit 15 100) = lit 6 10
  /\ nlt (lit 6 10) (lit 70 100) = true
  /\ Engine.results_uncapped approx inputs = Engine.results approx inputs.
Proof.
  pose proof (check_rr_ok inputs) as H. unfold check_rr in H. cbv zeta in H. split_andb H.
  apply num_eqb_eq in H.
  pose proof (rf_uncapped inputs) as E.
  pose proof (check_rf_ok inputs) as R. unfold check_rf in R. cbv zeta in R. split_andb R.
  split; [exact H|]. split; [assumption|]. split; [vm_compute; reflexivity|].
  split.
  - rewrite forallb_forall in R.
    apply List.Forall_forall. intros cat Hcat. split.
    + rewrite List.Forall_forall in E. apply (E cat Hcat).
    + specialize (R (Engine.reductionFactor inputs cat) (in_map _ _ _ Hcat)).
      split_andb R. assumption.
  - split; [vm_compute; reflexivity|]. split; [vm_compute; reflexivity|].
    unfold Engine.results_uncapped, Engine.results, Engine.assess.
    rewrite <- H. rewrite (adjustedCosts_ext _ _ _ E). reflexivity.
Qed.

(** ** Cost coefficients *)

Lemma Math_max_one x :
  Math_max (int 1) x = NaN \/ Math_max (int 1) x = Inf false
  \/ exists k, Math_max (int 1) x = Fin k /\ U <= k.
Proof.
  rewrite int_1. destruct x as [|[]|k]; cbn; auto.
  - right; right. exists U. split; [reflexivity|lia].
  - right; right. destruct (Z.ltb_spec U k); eexists; split; try reflexivity; lia.
Qed.

Lemma fmul_nan_r x : fmul x NaN = NaN.
Proof. destruct x; reflexivity. Qed.

Lemma fadd_nan_r x : fadd x NaN = NaN.
Proof. destruct x; reflexivity. Qed.

Lemma fold_fadd_all_nan l acc :
  l <> [] -> Forall (fun x => x = NaN) l -> fold_left fadd l acc = NaN.
Proof.
  intros N H. revert acc. induction H as [|x l -> _ IH]; [congruence|].
  intros acc. simpl. rewrite fadd_nan_r. destruct l as [|y l]; [reflexivity|].
  apply IH. discriminate.
Qed.

Lemma quarter_double : rnd (2 ^ 1072) 1 0 = Fin (2 ^ 1072).
Proof. vm_compute. reflexivity. Qed.

Lemma c70_bound : 4 * units (lit 70 100) <= 3 * U /\ lit 70 100 = Fin (units (lit 70 100)).
Proof. split; [apply Z.leb_le|]; vm_compute; reflexivity. Qed.

(** The cost coefficient [baseCost * (1 - reductionFactor)] is positive and
    decreases when the reduction factor grows. *)
Lemma coefficient_mono n v v' :
  1 <= n <= 2 ^ 53 -> 0 <= v <= v' -> 4 * v' <= 3 * U ->
  exists c c',
    fmul (Fin (n * U)) (fsub (int 1) (Fin v)) = Fin c
    /\ fmul (Fin (n * U)) (fsub (int 1) (Fin v')) = Fin c'
    /\ 0 < c' <= c.
Proof.
  intros Hn Hv Hv'. pose proof U_pos as HU.
  assert (HQ : 4 * 2 ^ 1072 = U) by reflexivity.
  assert (G : forall w, 0 <= w -> 4 * w <= 3 * U ->
              exists g, fsub (int 1) (Fin w) = Fin g /\ 2 ^ 1072 <= g <= U).
  { intros w W0 W1. apply within_Fin.
    - rewrite <- quarter_double, int_1. unfold fsub, fneg, fadd. apply rnd_le; lia.
    - rewrite <- int_1. rewrite int_1 at 1. unfold int, lit, fsub, fneg, fadd.
      apply rnd_le; lia. }
  destruct (G v ltac:(lia) ltac:(lia)) as (g & Eg & Bg).
  destruct (G v' ltac:(lia) ltac:(lia)) as (g' & Eg' & Bg').
  assert (Hgg : g' <= g).
  { apply nle_Fin. rewrite <- Eg, <- Eg', int_1. unfold fsub, fneg, fadd. apply rnd_le; lia. }
  rewrite Eg, Eg'.
  destruct (fmul_bounded (n * U) g n 1) as (c & Ec & Bc); try lia.
  destruct (fmul_bounded (n * U) g' n 1) as (c' & Ec' & Bc'); try lia.
  exists c, c'. split; [exact Ec|]. split; [exact Ec'|]. split.
  - assert (L : nle (Fin (2 ^ 1072)) (fmul (Fin (n * U)) (Fin g')) = true).
    { assert (U * 2 ^ 1072 <= (n * U) * g') by (apply Z.mul_le_mono_nonneg; nia).
      rewrite <- quarter_double. unfold fmul. apply rnd_le; lia. }
    rewrite Ec' in L. apply nle_Fin in L. lia.
  - apply nle_Fin. rewrite <- Ec, <- Ec'. apply fmul_mono; nia.
Qed.

Lemma catalog_baseCost :
  Forall (fun cat => exists n, cat_baseCost cat = Fin (n * U) /\ 1 <= n <= 2 ^ 53)
         COST_CATEGORIES.
Proof.
  unfold COST_CATEGORIES.
  repeat constructor; cbn [cat_baseCost]; eexists; (split; [apply int_units|]); lia.
Qed.

Lemma Forall2_map_of_Forall {A B} (R : B -> B -> Prop) (f g : A -> B) l :
  Forall (fun a => R (f a) (g a)) l -> Forall2 R (map f l) (map g l).
Proof. induction 1; simpl; constructor; auto. Qed.

Lemma control_listed c : In c controls.
Proof. destruct c; simpl; auto 6. Qed.

(** The reduction factor of a catalog category is a double between 0 and
    0.70. *)
Lemma reductionFactor_range inputs cat : In cat COST_CATEGORIES ->
  exists v, Engine.reductionFactor inputs cat = Fin v /\ 0 <= v /\ 4 * v <= 3 * U.
Proof.
  intros Hcat. destruct c70_bound as [B E].
  pose proof (check_rf_ok inputs) as R. unfold check_rf in R. cbv zeta in R. split_andb R.
  rewrite forallb_forall in R.
  specialize (R _ (in_map (Engine.reductionFactor inputs) _ _ Hcat)). split_andb R.
  rewrite E in R3.
  destruct (within_Fin _ _ _ R R3) as (v & Ev & Bv). exists v. split; [exact Ev|]. lia.
Qed.

Lemma reductionFactor_enable inputs c cat : In cat COST_CATEGORIES ->
  nle (Engine.reductionFactor inputs cat) (Engine.reductionFactor (enable c inputs) cat) = true.
Proof.
  intros Hcat.
  pose proof (check_rf_ok inputs) as R. unfold check_rf in R. cbv zeta in R. split_andb R.
  rewrite forallb_forall in R0. specialize (R0 c (control_listed c)).
  apply forallb2_Forall2, Forall2_map_same in R0.
  rewrite List.Forall_forall in R0. apply (R0 cat Hcat).
Qed.

Lemma totalCost_costs rf s :
  Engine.totalCost (Engine.adjustedCosts rf s)
  = fold_left fadd (map (cost rf s) COST_CATEGORIES) (int 0).
Proof. rewrite totalCost_fold, adjustedCosts_cost. reflexivity. Qed.

Lemma cost_enable inputs c s cat :
  In cat COST_CATEGORIES -> (s = Inf false \/ exists k, s = Fin k /\ 0 <= k) ->
  le_pos (cost (Engine.reductionFactor (enable c inputs)) s cat)
         (cost (Engine.reductionFactor inputs) s cat).
Proof.
  intros Hcat Hs. unfold cost.
  pose proof catalog_baseCost as Hb. rewrite List.Forall_forall in Hb.
  destruct (Hb cat Hcat) as (n & -> & Hn).
  destruct (reductionFactor_range inputs cat Hcat) as (v & Ev & V0 & V1).
  destruct (reductionFactor_range (enable c inputs) cat Hcat) as (v' & Ev' & V0' & V1').
  pose proof (reductionFactor_enable inputs c cat Hcat) as M.
  rewrite Ev, Ev' in *. apply nle_Fin in M.
  destruct (coefficient_mono n v v' Hn ltac:(lia) V1') as (k & k' & -> & -> & Hk).
  apply Math_round_le_pos, fmul_scale_le_pos; assumption.
Qed.

(** C1. Monotonicity: for every profile and every setting of the controls,
    enabling one control never increases [totalCost] (the old total is never
    below the new one, and the new one is at most the old one whenever the
    total is a number) and never decreases [securityScore], as the rounded
    percentage of the result and as a fraction. *)
Theorem enabling_control_monotone approx inputs c :
  exists r r',
    Engine.results approx inputs = Some r
    /\ Engine.results approx (enable c inputs) = Some r'
    /\ nlt (r_totalCost r) (r_totalCost r') = false
    /\ (is_nan (r_totalCost r) = false -> nle (r_totalCost r') (r_totalCost r) = true)
    /\ nle (r_securityScore r) (r_securityScore r') = true
    /\ nle (Engine.securityScore inputs) (Engine.securityScore (enable c inputs)) = true.
Proof.
  do 2 eexists. split; [reflexivity|]. split; [reflexivity|].
  cbn [r_totalCost r_securityScore].
  assert (S : nle (percent (Engine.securityScore inputs))
                  (percent (Engine.securityScore (enable c inputs))) = true
              /\ nle (Engine.securityScore inputs)
                     (Engine.securityScore (enable c inputs)) = true).
  { pose proof (check_score_ok inputs) as H. unfold check_score in H. cbv zeta in H.
    split_andb H. rewrite forallb_forall in H0. specialize (H0 c (control_listed c)).
    split_andb H0. auto. }
  destruct S as [S1 S2].
  change (Engine.sizeFactor approx (enable c inputs)) with (Engine.sizeFactor approx inputs).
  rewrite !totalCost_costs.
  set (s := Engine.sizeFactor approx inputs).
  assert (T : fold_left fadd (map (cost (Engine.reductionFactor inputs) s) COST_CATEGORIES) (int 0) = NaN
              \/ le_pos (fold_left fadd (map (cost (Engine.reductionFactor (enable c inputs)) s)
                                             COST_CATEGORIES) (int 0))
                        (fold_left fadd (map (cost (Engine.reductionFactor inputs) s)
                                             COST_CATEGORIES) (int 0))).
  { destruct (Math_max_one (fadd (fmul (Math_log10 approx
               (fdiv (Math_max (employees inputs) (int 10)) (int 100))) (lit 2 10)) (int 1)))
      as [E|E]; fold (Engine.sizeFactor approx inputs) in E; fold s in E.
    - left. apply fold_fadd_all_nan; [discriminate|].
      apply List.Forall_forall. intros x Hx. apply in_map_iff in Hx as (cat & <- & _).
      unfold cost. rewrite E, fmul_nan_r. reflexivity.
    - right. apply fold_fadd_le_pos.
      + apply Forall2_map_of_Forall, List.Forall_forall. intros cat Hcat.
        apply cost_enable; [exact Hcat|].
        destruct E as [E|(k & E & Hk)]; [left; exact E|right].
        exists k. split; [exact E|]. pose proof U_pos. lia.
      + rewrite int_0. split; reflexivity. }
  destruct T as [T|[T0 T]].
  - rewrite T. split; [reflexivity|]. split; [discriminate|]. split; assumption.
  - split; [apply nle_not_nlt; exact T|]. split; [intros _; exact T|]. split; assumption.
Qed.

(** ** Valid profiles *)

Lemma Math_max_one_bound x B :
  is_nan x = false -> nle x (Fin B) = true -> U <= B ->
  exists s, Math_max (int 1) x = Fin s /\ U <= s <= B.
Proof.
  rewrite int_1. destruct x as [|[]|k]; cbn; try discriminate; intros _ H HB.
  - exists U. split; [reflexivity|lia].
  - destruct (Z.ltb_spec U k); eexists; split; try reflexivity; lia.
Qed.

Lemma scaleFactor_bounds approx e floor ref c :
  log10_bounded approx ->
  0 <= e <= 2 ^ 40 * U -> 0 <= floor <= 2 ^ 40 -> 1 <= ref <= 2 ^ 40 -> 0 < c <= U ->
  exists s, scaleFactor approx (Fin e) floor ref (Fin c) = Fin s /\ U <= s <= 401 * U.
Proof.
  intros HL He Hf Hr Hc. pose proof U_pos as HU. unfold scaleFactor.
  assert (P40 : 2 ^ 40 <= 2 ^ 53) by (apply Z.pow_le_mono_r; lia).
  rewrite (int_units floor), (int_units ref) by lia.
  assert (Hm : exists m, Math_max (Fin e) (Fin (floor * U)) = Fin m /\ 0 <= m <= 2 ^ 40 * U).
  { cbn. destruct (Z.ltb_spec e (floor * U)); eexists; split; try reflexivity; nia. }
  destruct Hm as (m & -> & Hm).
  assert (Hq : exists q, fdiv (Fin m) (Fin (ref * U)) = Fin q /\ 0 <= q).
  { cbn [fdiv]. destruct (Z.eqb_spec (ref * U) 0); [nia|].
    rewrite Z.sgn_pos, Z.abs_eq by nia.
    assert (Q0 : nle (Fin 0) (rnd (1 * m * U) (ref * U) 0) = true)
      by (apply rnd_nonneg; nia).
    assert (Q1 : nle (rnd (1 * m * U) (ref * U) 0) (Fin (2 ^ 40 * U)) = true).
    { rewrite <- (int_units (2 ^ 40)) by lia. unfold int, lit.
      assert (m * U <= 2 ^ 40 * U * (ref * U)) by nia.
      apply rnd_le; try lia; nia. }
    destruct (within_Fin _ _ _ Q0 Q1) as (q & Eq & Bq).
    exists q. split; [exact Eq|lia]. }
  destruct Hq as (q & -> & Hq).
  assert (HLg : Math_log10 approx (Fin q) = Inf true
                \/ exists y, Math_log10 approx (Fin q) = Fin y /\ y <= 400 * U).
  { cbn [Math_log10]. destruct (Z.eqb_spec q U); [right; exists 0; split; [reflexivity|lia]|].
    destruct (Z.eqb_spec q 0); [left; reflexivity|].
    destruct (Z.ltb_spec q 0); [lia|].
    destruct (HL q ltac:(lia)) as (y & -> & Hy). right. exists y. split; [reflexivity|lia]. }
  destruct HLg as [->|(y & -> & Hy)].
  - cbn [fmul]. destruct (Z.eqb_spec c 0); [lia|]. destruct (Z.ltb_spec c 0); [lia|].
    rewrite int_1. cbn. exists U. split; [reflexivity|lia].
  - apply Math_max_one_bound; [| |lia].
    + rewrite int_1.
      pose proof (fmul_not_nan y c) as N.
      destruct (fmul (Fin y) (Fin c)) as [|s|p]; try discriminate; [reflexivity|apply rnd_not_nan].
    + assert (B : nle (fmul (Fin y) (Fin c)) (Fin (400 * U)) = true).
      { rewrite <- (int_units 400) by lia. unfold int, lit, fmul.
        apply rnd_le; try lia. rewrite U_eq. change (1 * 2 ^ 0) with 1.
        assert (y * c <= 400 * U * U).
        { destruct (Z_lt_le_dec y 0); [nia|].
          assert (y * c <= (400 * U) * U) by (apply Z.mul_le_mono_nonneg; lia). lia. }
        lia. }
      rewrite int_1.
      destruct (fmul (Fin y) (Fin c)) as [|[]|p]; try discriminate; [reflexivity|].
      apply nle_Fin in B.
      rewrite <- (int_units 401) by lia. unfold int, lit, fadd.
      apply rnd_le; lia.
Qed.

Lemma in_limits_employees x :
  in_limits "employees" x = nle (int 1) x && nle x (int 1000000).
Proof. reflexivity. Qed.

Lemma in_limits_revenue x :
  in_limits "revenue" x = nle (int 0) x && nle x (int 100000000000).
Proof. reflexivity. Qed.

Lemma limits_Fin lo hi x :
  0 <= lo <= 2 ^ 40 -> 0 <= hi <= 2 ^ 40 ->
  nle (int lo) x && nle x (int hi) = true ->
  exists e, x = Fin e /\ 0 <= e <= 2 ^ 40 * U.
Proof.
  intros Hlo Hhi H. apply andb_prop in H as [H1 H2].
  assert (P40 : 2 ^ 40 <= 2 ^ 53) by (apply Z.pow_le_mono_r; lia).
  rewrite int_units in H1, H2 by lia.
  destruct (within_Fin _ _ _ H1 H2) as (e & -> & He).
  pose proof U_pos. exists e. split; [reflexivity|nia].
Qed.

Lemma sizeFactor_bounds approx inputs :
  log10_bounded approx -> in_range inputs = true ->
  exists s, Engine.sizeFactor approx inputs = Fin s /\ U <= s <= 401 * U.
Proof.
  intros HL H. unfold in_range in H. split_andb H.
  rewrite in_limits_employees in H.
  destruct (limits_Fin 1 1000000 _ ltac:(lia) ltac:(lia) H) as (e & E & He).
  change (Engine.sizeFactor approx inputs)
    with (scaleFactor approx (employees inputs) 10 100 (lit 2 10)).
  rewrite E, (lit_units 2 10) by (vm_compute; reflexivity).
  apply scaleFactor_bounds; try assumption; try lia.
  split; [apply Z.ltb_lt|apply Z.leb_le]; vm_compute; reflexivity.
Qed.

Lemma revenueFactor_bounds approx inputs :
  log10_bounded approx -> in_range inputs = true ->
  exists s, Engine.revenueFactor approx inputs = Fin s /\ U <= s <= 401 * U.
Proof.
  intros HL H. unfold in_range in H. split_andb H.
  rewrite in_limits_revenue in H1.
  destruct (limits_Fin 0 100000000000 _ ltac:(lia) ltac:(lia) H1) as (e & E & He).
  change (Engine.revenueFactor approx inputs)
    with (scaleFactor approx (revenue inputs) 1000000 10000000 (lit 15 100)).
  rewrite E, (lit_units 15 100) by (vm_compute; reflexivity).
  apply scaleFactor_bounds; try assumption; try lia.
  split; [apply Z.ltb_lt|apply Z.leb_le]; vm_compute; reflexivity.
Qed.

Lemma catalog_scenarios :
  Forall (fun sc => exists n, sc_baseCost sc = Fin (n * U) /\ 0 <= n <= 2 ^ 20)
         THREAT_SCENARIOS.
Proof.
  unfold THREAT_SCENARIOS.
  repeat constructor; cbn [sc_baseCost]; eexists; (split; [apply int_units|]); lia.
Qed.

(** On a valid profile the adjusted base of a catalog scenario is a finite,
    non-negative double. *)
Lemma adjustedBase_finite approx inputs sc :
  log10_bounded approx -> in_range inputs = true -> In sc THREAT_SCENARIOS ->
  exists k, adjustedBase (sc_baseCost sc) (Engine.organizationFactors approx inputs) = Fin k
            /\ 0 <= k.
Proof.
  intros HL HR Hsc. unfold adjustedBase, Engine.organizationFactors.
  cbn [f_sizeFactor f_revenueFactor f_riskReduction].
  pose proof catalog_scenarios as C. rewrite List.Forall_forall in C.
  destruct (C sc Hsc) as (n & -> & Hn).
  destruct (sizeFactor_bounds approx inputs HL HR) as (s & -> & Hs).
  destruct (revenueFactor_bounds approx inputs HL HR) as (r & -> & Hr).
  pose proof (check_rr_ok inputs) as G. unfold check_rr in G. cbv zeta in G. split_andb G.
  rewrite int_1 in G0.
  destruct (within_Fin _ _ _ G1 G0) as (g & -> & Hg).
  pose proof U_pos as HU.
  assert (B0 : 0 <= n * U <= 2 ^ 20 * U) by nia.
  assert (B1 : 0 <= s <= 2 ^ 9 * U) by lia.
  assert (B2 : 0 <= r <= 2 ^ 9 * U) by lia.
  destruct (fmul_bounded (n * U) s (2 ^ 20) (2 ^ 9) B0 B1 ltac:(lia)) as (t1 & -> & H1).
  destruct (fmul_bounded t1 r (2 ^ 29) (2 ^ 9) ltac:(lia) B2 ltac:(lia)) as (t2 & -> & H2).
  destruct (fmul_bounded t2 g (2 ^ 38) 1 ltac:(lia) ltac:(lia) ltac:(lia)) as (k & -> & H3).
  exists k. split; [reflexivity|lia].
Qed.

Lemma cost_nonneg inputs s cat :
  In cat COST_CATEGORIES -> (s = Inf false \/ exists k, s = Fin k /\ 0 <= k) ->
  nle (int 0) (cost (Engine.reductionFactor inputs) s cat) = true.
Proof.
  intros Hcat Hs. unfold cost. rewrite int_0.
  pose proof catalog_baseCost as Hb. rewrite List.Forall_forall in Hb.
  destruct (Hb cat Hcat) as (n & -> & Hn).
  destruct (reductionFactor_range inputs cat Hcat) as (v & -> & V0 & V1).
  destruct (coefficient_mono n v v Hn ltac:(lia) V1) as (k & k' & E & E' & Hk).
  rewrite E. rewrite E in E'. injection E' as <-.
  apply Math_round_nonneg.
  apply (fmul_scale_le_pos k k s); [lia|assumption].
Qed.

(** C2. Percentile ordering and non-negativity: on every in-range profile
    and every setting of the controls, each scenario of the catalog has
    [0 <= 5th <= 25th <= Median <= 75th <= 95th], and every adjusted cost of
    the breakdown is at least 0.  ([Math.log10] is taken to return finite
    values of magnitude at most 400.) *)
Theorem percentiles_ordered_costs_nonnegative approx inputs :
  log10_bounded approx -> in_range inputs = true ->
  exists r, Engine.results approx inputs = Some r
    /\ Forall (fun s => ordered (percentiles s) = true) (r_scenarios r)
    /\ Forall (fun e => nle (int 0) (e_adjustedCost e) = true) (r_costBreakdown r).
Proof.
  intros HL HR. eexists. split; [reflexivity|]. cbn [r_scenarios r_costBreakdown]. split.
  - unfold Engine.scenarios. apply List.Forall_forall. intros x Hx.
    apply in_map_iff in Hx as (sc & <- & Hsc). cbn [percentiles].
    destruct (adjustedBase_finite approx inputs sc HL HR Hsc) as (k & E & Hk).
    exact (percentiles_ordered _ _ k E Hk).
  - apply Forall_map with (f := e_adjustedCost) (P := fun x => nle (int 0) x = true).
    rewrite adjustedCosts_cost. apply List.Forall_forall. intros x Hx.
    apply in_map_iff in Hx as (cat & <- & Hcat).
    destruct (sizeFactor_bounds approx inputs HL HR) as (s & -> & Hs).
    apply (cost_nonneg inputs (Fin s) cat Hcat). right. exists s.
    pose proof U_pos. split; [reflexivity|lia].
Qed.

(** ** The worked example *)

Lemma bounded_inv lo hi x : bounded lo hi x ->
  exists a b k, lo = Fin a /\ hi = Fin b /\ x = Fin k /\ a <= k <= b.
Proof.
  intros (F1 & F2 & L & H).
  destruct lo as [| |a], hi as [| |b]; try discriminate.
  destruct (within_Fin _ _ _ L H) as (k & -> & Hk). exists a, b, k. auto.
Qed.

Lemma bounded_refl x : is_finite x = true -> bounded x x x.
Proof.
  intros F. destruct x as [| |k]; try discriminate.
  repeat split; simpl; auto; lia.
Qed.

Lemma bounded_eq lo hi x : bounded lo hi x -> lo = hi -> x = lo.
Proof.
  intros H E. destruct (bounded_inv _ _ _ H) as (a & b & k & -> & -> & -> & Hk).
  injection E as ->. f_equal. lia.
Qed.

Lemma bounded_fmul lo hi lo' hi' x y :
  bounded lo hi x -> bounded lo' hi' y ->
  nle (Fin 0) lo = true -> nle (Fin 0) lo' = true ->
  is_finite (fmul lo lo') = true -> is_finite (fmul hi hi') = true ->
  bounded (fmul lo lo') (fmul hi hi') (fmul x y).
Proof.
  intros H H' P P' F1 F2.
  destruct (bounded_inv _ _ _ H) as (a & b & k & -> & -> & -> & Hk).
  destruct (bounded_inv _ _ _ H') as (a' & b' & k' & -> & -> & -> & Hk').
  apply nle_Fin in P, P'.
  repeat split; auto; apply fmul_mono; lia.
Qed.

Lemma bounded_fadd lo hi lo' hi' x y :
  bounded lo hi x -> bounded lo' hi' y ->
  is_finite (fadd lo lo') = true -> is_finite (fadd hi hi') = true ->
  bounded (fadd lo lo') (fadd hi hi') (fadd x y).
Proof.
  intros H H' F1 F2.
  destruct (bounded_inv _ _ _ H) as (a & b & k & -> & -> & -> & Hk).
  destruct (bounded_inv _ _ _ H') as (a' & b' & k' & -> & -> & -> & Hk').
  repeat split; auto; apply fadd_mono; lia.
Qed.

Lemma bounded_max c lo hi x :
  is_finite c = true -> bounded lo hi x ->
  bounded (Math_max c lo) (Math_max c hi) (Math_max c x).
Proof.
  intros F H. destruct c as [| |c]; try discriminate.
  destruct (bounded_inv _ _ _ H) as (a & b & k & -> & -> & -> & Hk).
  cbn. destruct (Z.ltb_spec c a), (Z.ltb_spec c k), (Z.ltb_spec c b);
    repeat split; simpl; auto; lia.
Qed.

Lemma bounded_round lo hi x :
  bounded lo hi x -> bounded (Math_round lo) (Math_round hi) (Math_round x).
Proof.
  intros H. destruct (bounded_inv _ _ _ H) as (a & b & k & -> & -> & -> & Hk).
  repeat split; auto; apply Math_round_mono; simpl; lia.
Qed.

Lemma bounded_weaken lo hi lo' hi' x :
  bounded lo hi x -> is_finite lo' = true -> is_finite hi' = true ->
  nle lo' lo = true -> nle hi hi' = true -> bounded lo' hi' x.
Proof.
  intros (F1 & F2 & L & H) G1 G2 L' H'. repeat split; auto; eapply nle_trans; eauto.
Qed.

Lemma Math_log10_approx approx k :
  (k =? U) = false -> (k =? 0) = false -> (k <? 0) = false ->
  Math_log10 approx (Fin k) = approx k.
Proof. intros E1 E2 E3. unfold Math_log10. rewrite E1, E2, E3. reflexivity. Qed.

Lemma within_bounded lo hi x :
  within lo hi x -> is_finite lo = true -> is_finite hi = true -> bounded lo hi x.
Proof. intros [L H] F1 F2. repeat split; assumption. Qed.

Lemma Math_round_finite x v :
  0 <= v <= 2 ^ 53 -> Math_round x = int v -> is_finite x = true.
Proof.
  intros Hv. rewrite int_units by exact Hv. destruct x; try discriminate. reflexivity.
Qed.

(** The percentiles at the two ends of the interval of the adjusted base. *)
Lemma example_ends :
  exists a b,
    base_lo = Fin a /\ base_hi = Fin b /\ 0 <= a
    /\ (Math_round (fmul (Fin a) (lit 15 100)) = int 18786
        /\ Math_round (fmul (Fin b) (lit 15 100)) = int 18786)
    /\ (Math_round (fmul (Fin a) (lit 55 100)) = int 68883
        /\ Math_round (fmul (Fin b) (lit 55 100)) = int 68883)
    /\ (Math_round (Fin a) = int 125242 /\ Math_round (Fin b) = int 125242)
    /\ (Math_round (fmul (Fin a) (lit 165 100)) = int 206649
        /\ Math_round (fmul (Fin b) (lit 165 100)) = int 206649)
    /\ (is_finite (fmul (Fin a) (lit 18 10)) = true
        /\ is_finite (fmul (Fin b) (lit 18 10)) = true
        /\ nle (Fin 0) (fmul (Fin a) (lit 18 10)) = true
        /\ Math_round (fmul (fmul (Fin a) (lit 18 10)) (lit 22 10)) = int 495957
        /\ Math_round (fmul (fmul (Fin b) (lit 18 10)) (lit 22 10)) = int 495957).
Proof.
  do 2 eexists.
  split; [closed|]. split; [closed|]. split; [apply Z.leb_le; closed|].
  split; [split; closed|]. split; [split; closed|]. split; [split; closed|].
  split; [split; closed|].
  split; [closed|]. split; [closed|]. split; [closed|]. split; closed.
Qed.

Section WorkedExample.
Variable approx : Z -> num.
Hypothesis H25 :
  within (lit 397939 1000000) (lit 397941 1000000) (approx (units (lit 25 10))).
Hypothesis H5 :
  within (lit 698969 1000000) (lit 698971 1000000) (approx (units (int 5))).

Lemma example_sizeFactor :
  bounded size_lo size_hi (Engine.sizeFactor approx example_inputs).
Proof.
  unfold Engine.sizeFactor, example_inputs; cbn [employees].
  replace (fdiv (Math_max (int 250) (int 10)) (int 100)) with (Fin (units (lit 25 10)))
    by closed.
  rewrite Math_log10_approx by closed.
  apply bounded_max; [closed|].
  apply bounded_fadd; [|apply bounded_refl; closed|closed|closed].
  apply bounded_fmul; [|apply bounded_refl; closed|closed|closed|closed|closed].
  apply within_bounded; [exact H25|closed|closed].
Qed.

Lemma example_revenueFactor :
  bounded revenue_lo revenue_hi (Engine.revenueFactor approx example_inputs).
Proof.
  unfold Engine.revenueFactor, example_inputs; cbn [revenue].
  replace (fdiv (Math_max (int 50000000) (int 1000000)) (int 10000000))
    with (Fin (units (int 5))) by closed.
  rewrite Math_log10_approx by closed.
  apply bounded_max; [closed|].
  apply bounded_fadd; [|apply bounded_refl; closed|closed|closed].
  apply bounded_fmul; [|apply bounded_refl; closed|closed|closed|closed|closed].
  apply within_bounded; [exact H5|closed|closed].
Qed.

Lemma example_adjustedBase :
  bounded base_lo base_hi
    (adjustedBase (int 300000) (Engine.organizationFactors approx example_inputs)).
Proof.
  unfold adjustedBase, Engine.organizationFactors.
  cbn [f_sizeFactor f_revenueFactor f_riskReduction].
  apply bounded_fmul; [|apply bounded_refl; closed|closed|closed|closed|closed].
  apply bounded_fmul; [|apply example_revenueFactor|closed|closed|closed|closed].
  apply bounded_fmul; [apply bounded_refl; closed|apply example_sizeFactor|closed..].
Qed.

(** A percentile [round (adjustedBase * c)] of the example, squeezed
    between its values at the two ends of the interval. *)
Lemma example_times c v :
  is_finite c = true -> nle (Fin 0) c = true ->
  is_finite (fmul base_lo c) = true -> is_finite (fmul base_hi c) = true ->
  Math_round (fmul base_lo c) = v -> Math_round (fmul base_hi c) = v ->
  Math_round (fmul (example_base approx) c) = v.
Proof.
  intros F P F1 F2 E1 E2.
  assert (B : bounded (Math_round (fmul base_lo c)) (Math_round (fmul base_hi c))
                (Math_round (fmul (example_base approx) c))).
  { apply bounded_round.
    apply bounded_fmul;
      [apply example_adjustedBase|apply bounded_refl; exact F| |exact P|exact F1|exact F2].
    closed. }
  rewrite (bounded_eq _ _ _ B) by congruence. exact E1.
Qed.

Lemma example_base_finite : exists k, (example_base approx) = Fin k /\ 0 <= k < OVF.
Proof.
  destruct (bounded_inv _ _ _ example_adjustedBase) as (a & b & k & Ea & Eb & Ek & Hk).
  exists k. split; [exact Ek|].
  destruct example_ends as (a' & _ & Ea' & _ & Ha & _).
  rewrite Ea in Ea'. injection Ea' as <-.
  split; [lia|]. apply double_bound; [lia|].
  eapply fmul_double. unfold adjustedBase in Ek. exact Ek.
Qed.

Lemma example_percentiles :
  generateRealisticPercentiles (int 300000) (Engine.organizationFactors approx example_inputs)
  = {| p5th := int 18786; p25th := int 68883; Median := int 125242;
       p75th := int 206649; p95th := int 495957 |}.
Proof.
  unfold generateRealisticPercentiles.
  destruct example_base_finite as (k & E & Hk). unfold example_base in E.
  destruct example_ends
    as (a & b & Ea & Eb & Ha & [A15 B15] & [A55 B55] & [Am Bm] & [A165 B165]
        & Fa & Fb & Pa & A95 & B95).
  assert (T : forall n d v, 0 < d -> 0 <= n <= 2 ^ 53 * d -> 0 <= v <= 2 ^ 53 ->
            Math_round (fmul (Fin a) (lit n d)) = int v ->
            Math_round (fmul (Fin b) (lit n d)) = int v ->
            Math_round (fmul (example_base approx) (lit n d)) = int v).
  { intros n d v Hd Hn Hv E1 E2.
    destruct (lit_Fin n d Hd Hn) as (c & Ec & Hc & _).
    apply (example_times (lit n d) (int v)); rewrite ?Ea, ?Eb; try assumption.
    - rewrite Ec. reflexivity.
    - rewrite Ec. apply nle_Fin. exact Hc.
    - exact (Math_round_finite _ v Hv E1).
    - exact (Math_round_finite _ v Hv E2). }
  apply f_equal5.
  - rewrite E.
    change (Math_max (fmul (Fin k) (lit 15 100))
              (fsub (Fin k) (fmul (fmul (Fin k) (lit 6 10)) (lit 15 10))))
      with (Math_max (floor5 (Fin k)) (spread5 (Fin k))).
    rewrite Math_max_floor5 by exact Hk. unfold floor5. rewrite <- E.
    apply (T 15 100 18786); [lia|lia|lia|exact A15|exact B15].
  - apply (T 55 100 68883); [lia|lia|lia|exact A55|exact B55].
  - destruct (bounded_inv _ _ _ (bounded_round _ _ _ example_adjustedBase))
      as (a' & b' & m & Ea' & Eb' & Em & Hm).
    rewrite Ea, Am in Ea'. rewrite Eb, Bm in Eb'.
    rewrite Em. rewrite Ea' in Eb'. injection Eb' as <-. rewrite Ea'. f_equal. lia.
  - apply (T 165 100 206649); [lia|lia|lia|exact A165|exact B165].
  - destruct (lit_Fin 18 10 ltac:(lia) ltac:(lia)) as (c18 & E18 & H18 & _).
    destruct (lit_Fin 22 10 ltac:(lia) ltac:(lia)) as (c22 & E22 & H22 & _).
    assert (B : bounded (Math_round (fmul (fmul base_lo (lit 18 10)) (lit 22 10)))
                        (Math_round (fmul (fmul base_hi (lit 18 10)) (lit 22 10)))
                        (Math_round (fmul (fmul (example_base approx) (lit 18 10)) (lit 22 10)))).
    { apply bounded_round.
      apply bounded_fmul.
      - apply bounded_fmul; [apply example_adjustedBase|apply bounded_refl| | | |];
          rewrite ?Ea, ?Eb; try assumption.
        + rewrite E18. reflexivity.
        + apply nle_Fin. exact Ha.
        + rewrite E18. apply nle_Fin. exact H18.
      - apply bounded_refl. rewrite E22. reflexivity.
      - rewrite Ea. exact Pa.
      - rewrite E22. apply nle_Fin. exact H22.
      - rewrite Ea. exact (Math_round_finite _ 495957 ltac:(lia) A95).
      - rewrite Eb. exact (Math_round_finite _ 495957 ltac:(lia) B95). }
    unfold example_base in B. rewrite Ea, Eb, A95, B95 in B.
    exact (bounded_eq _ _ _ B eq_refl).
Qed.

(** C3, with the figures the code produces.  For the profile
    [{employees: 250, revenue: 50000000, insurance: 1000000}] with the five
    controls enabled, and any [Math.log10] within a millionth of the decimal
    logarithms of 2.5 and 5: [securityScore = 100], [riskReduction = 65],
    [sizeFactor] is 1.0796 and [revenueFactor] 1.1048 to four decimals, and
    the Phishing scenario (base cost 300000) has [Median = 125242],
    [25th = 68883], [75th = 206649], [5th = 18786], [95th = 495957]. *)
Theorem worked_example :
  exists r s,
    Engine.results approx example_inputs = Some r
    /\ r_securityScore r = int 100
    /\ r_riskReduction r = int 65
    /\ near4 (Engine.sizeFactor approx example_inputs) 10796 = true
    /\ near4 (Engine.revenueFactor approx example_inputs) 11048 = true
    /\ find_scenario "Phishing" (r_scenarios r) = Some s
    /\ sc_baseCost (s_scenario s) = int 300000
    /\ Median (percentiles s) = int 125242
    /\ p25th (percentiles s) = int 68883
    /\ p75th (percentiles s) = int 206649
    /\ p5th (percentiles s) = int 18786
    /\ p95th (percentiles s) = int 495957.
Proof.
  eexists.
  exists {| s_scenario := {| sc_name := "Phishing"; sc_baseCost := int 300000;
                             sc_frequency := lit 3 10; sc_severity := lit 7 10 |};
            percentiles := generateRealisticPercentiles (int 300000)
                             (Engine.organizationFactors approx example_inputs) |}.
  split; [reflexivity|].
  cbn [r_securityScore r_riskReduction r_scenarios].
  split; [closed|]. split; [closed|].
  split.
  { destruct example_sizeFactor as (_ & _ & L & H). unfold near4.
    apply andb_true_intro. split.
    - apply (nle_trans _ size_lo); [closed|exact L].
    - apply (nle_trans _ size_hi); [exact H|closed]. }
  split.
  { destruct example_revenueFactor as (_ & _ & L & H). unfold near4.
    apply andb_true_intro. split.
    - apply (nle_trans _ revenue_lo); [closed|exact L].
    - apply (nle_trans _ revenue_hi); [exact H|closed]. }
  split; [reflexivity|]. cbn [s_scenario percentiles sc_baseCost].
  rewrite example_percentiles. cbn [Median p25th p75th p5th p95th].
  repeat split; reflexivity.
Qed.
End WorkedExample.

(** ** Input validation *)

Example message_employees :
  option_map (boundMessage toLocaleString_enUS) (INPUT_LIMITS "employees")
  = Some "Value must be between 1 and 1,000,000"%string.
Proof. vm_compute. reflexivity. Qed.

Lemma nlt_negb_nle x y : is_nan x = false -> is_nan y = false -> nlt x y = negb (nle y x).
Proof.
  destruct x as [|[]|a], y as [|[]|b]; simpl; try discriminate; auto.
  intros _ _. destruct (Z.ltb_spec a b), (Z.leb_spec b a); simpl; auto; lia.
Qed.

Lemma configured_limits field limits :
  INPUT_LIMITS field = Some limits -> is_finite (min limits) = true /\ is_finite (max limits) = true.
Proof.
  unfold INPUT_LIMITS.
  destruct (String.eqb field "employees"); [intros [= <-]; split; vm_compute; reflexivity|].
  destruct (String.eqb field "revenue"); [intros [= <-]; split; vm_compute; reflexivity|].
  destruct (String.eqb field "insurance"); [intros [= <-]; split; vm_compute; reflexivity|].
  discriminate.
Qed.

(** C7, as the code has it.  For every configured field and every value:
    when the value is a number other than [NaN] the validator accepts it
    exactly when [min <= value <= max], and [NaN] is accepted; on rejection
    the bound message is recorded under the field name, on acceptance the
    entry of the field is removed; the entries of the other fields are left
    as they were.  Nothing is thrown: the function is total. *)
Theorem validateInput_spec toLocaleString field limits value (inputErrors : gmap string string) :
  INPUT_LIMITS field = Some limits ->
  exists ok errors',
    validateInput toLocaleString field value inputErrors = (ok, errors')
    /\ (is_nan value = false ->
        ok = nle (min limits) value && nle value (max limits))
    /\ (is_nan value = true -> ok = true)
    /\ errors' = (if ok then delete field inputErrors
                  else <[field := boundMessage toLocaleString limits]> inputErrors)
    /\ errors' !! field = (if ok then None else Some (boundMessage toLocaleString limits))
    /\ (forall other, other <> field -> errors' !! other = inputErrors !! other).
Proof.
  intros HL. destruct (configured_limits field limits HL) as [Fmin Fmax].
  unfold validateInput. rewrite HL.
  destruct (nlt value (min limits) || ngt value (max limits)) eqn:R.
  - exists false. eexists. split; [reflexivity|].
    split.
    { intros N. unfold ngt in R.
      rewrite (nlt_negb_nle value), (nlt_negb_nle (max limits)) in R; auto;
        try (destruct (min limits); try discriminate; reflexivity);
        try (destruct (max limits); try discriminate; reflexivity).
      destruct (nle (min limits) value), (nle value (max limits)); simpl in *; congruence. }
    split.
    { intros N. destruct value; try discriminate. simpl in R. unfold ngt in R.
      destruct (max limits); discriminate. }
    split; [reflexivity|]. split; [apply lookup_insert_eq|].
    intros other Hne. apply lookup_insert_ne. congruence.
  - exists true. eexists. split; [reflexivity|].
    split.
    { intros N. unfold ngt in R.
      rewrite (nlt_negb_nle value), (nlt_negb_nle (max limits)) in R; auto;
        try (destruct (min limits); try discriminate; reflexivity);
        try (destruct (max limits); try discriminate; reflexivity).
      destruct (nle (min limits) value), (nle value (max limits)); simpl in *; congruence. }
    split; [reflexivity|].
    split; [reflexivity|]. split; [apply lookup_delete_eq|].
    intros other Hne. apply lookup_delete_ne. congruence.
Qed.

Lemma validateInput_witness :
  exists ok errors',
    validateInput toLocaleString_enUS "employees" (int 2000000) (∅ : gmap string string)
      = (ok, errors')
    /\ (is_nan (int 2000000) = false ->
        ok = nle (int 1) (int 2000000) && nle (int 2000000) (int 1000000))
    /\ (is_nan (int 2000000) = true -> ok = true)
    /\ errors' = (if ok then delete "employees" (∅ : gmap string string)
                  else <["employees" := boundMessage toLocaleString_enUS
                                          {| min := int 1; max := int 1000000 |}]> ∅)
    /\ errors' !! "employees"
       = (if ok then None
          else Some (boundMessage toLocaleString_enUS {| min := int 1; max := int 1000000 |}))
    /\ (forall other, other <> "employees" ->
          errors' !! other = (∅ : gmap string string) !! other).
Proof.
  apply (validateInput_spec toLocaleString_enUS "employees"
           {| min := int 1; max := int 1000000 |} (int 2000000) ∅).
  reflexivity.
Defined.

(** C7 fails at [NaN]: the validator accepts it for the field [employees],
    though it is not between 1 and 1000000. *)
Lemma validateInput_accepts_NaN :
  validateInput toLocaleString_enUS "employees" NaN (∅ : gmap string string) = (true, delete "employees" ∅)
  /\ nle (int 1) NaN && nle NaN (int 1000000) = false.
Proof. split; reflexivity. Qed.

(** ** The memo never returns [null] *)

Lemma sizeFactor_nan approx inputs :
  is_nan (employees inputs) = true -> Engine.sizeFactor approx inputs = NaN.
Proof.
  intros H. unfold Engine.sizeFactor. destruct (employees inputs); try discriminate.
  reflexivity.
Qed.

(** C6, as the code has it.  The memo returns a result on every input: no
    arithmetic operation throws, so a non-finite intermediate value is not
    turned into a failure.  It flows into the result: when [employees] is
    [NaN], so are [totalCost], every adjusted cost and every percentile. *)
Theorem results_total approx inputs :
  exists r,
    Engine.results approx inputs = Some r
    /\ (is_nan (employees inputs) = true ->
        is_nan (r_totalCost r) = true
        /\ Forall (fun e => is_nan (e_adjustedCost e) = true) (r_costBreakdown r)
        /\ Forall (fun s =>
                     is_nan (p5th (percentiles s)) && is_nan (p25th (percentiles s))
                     && is_nan (Median (percentiles s)) && is_nan (p75th (percentiles s))
                     && is_nan (p95th (percentiles s)) = true)
                  (r_scenarios r)).
Proof.
  eexists. split; [reflexivity|]. intros H.
  cbn [r_totalCost r_costBreakdown r_scenarios].
  rewrite (sizeFactor_nan approx inputs H).
  split; [|split].
  - rewrite totalCost_costs, fold_fadd_all_nan; [reflexivity|discriminate|].
    apply List.Forall_forall. intros x Hx. apply in_map_iff in Hx as (cat & <- & _).
    unfold cost. rewrite fmul_nan_r. reflexivity.
  - apply Forall_map with (f := e_adjustedCost) (P := fun x => is_nan x = true).
    rewrite adjustedCosts_cost. apply List.Forall_forall. intros x Hx.
    apply in_map_iff in Hx as (cat & <- & _). rewrite fmul_nan_r. reflexivity.
  - unfold Engine.scenarios. apply List.Forall_forall. intros x Hx.
    apply in_map_iff in Hx as (sc & <- & _).
    cbn [percentiles]. unfold generateRealisticPercentiles, adjustedBase.
    cbn [f_sizeFactor f_revenueFactor f_riskReduction p5th p25th Median p75th p95th].
    rewrite fmul_nan_r. reflexivity.
Qed.

(** C6 fails when [employees] is [NaN]: the memo returns a result, whose
    [totalCost] is [NaN] next to a [securityScore] of 100. *)
Lemma results_with_NaN :
  exists r,
    Engine.results approx_sample nan_employees = Some r
    /\ is_nan (r_totalCost r) = true
    /\ r_securityScore r = int 100.
Proof.
  eexists. split; [reflexivity|]. split; vm_compute; reflexivity.
Qed.

(** ** The signup function *)

Import Webhook.

(** C8. The signup function resolves with status 200 on every event and
    never rejects.  On an event with a non-empty body the response grants
    the single role [subscriber] under [app_metadata.roles] when that body
    parses, and is the empty object when it does not.  A missing or empty
    body is replaced by the text [{}] before parsing: the response is then
    the grant when [JSON.parse] accepts [{}], the empty object otherwise.  A
    missing event gives the empty object. *)
Theorem handler_always_200 JSON_parse JSON_stringify event :
  exists response,
    handler JSON_parse JSON_stringify event = Normal response
    /\ statusCode response = 200
    /\ body response
       = JSON_stringify
           match event with
           | None => JObject []
           | Some e =>
               match ev_body e with
               | Some (String c s) =>
                   match JSON_parse (String c s) with
                   | Some _ => granted
                   | None => JObject []
                   end
               | Some EmptyString | None =>
                   match JSON_parse "{}" with
                   | Some _ => granted
                   | None => JObject []
                   end
               end
           end
    /\ get granted "app_metadata"
       = Normal (Some (JObject [("roles"%string, JArray [JString "subscriber"])])).
Proof.
  assert (G : forall text,
             exists response,
               try_catch
                 (bind (Normal text) (fun text =>
                  bind (match JSON_parse text with
                        | Some v => Normal v
                        | None => Throw "SyntaxError"
                        end) (fun payload =>
                  bind (if truthy payload then
                          bind (get payload "user") (fun u =>
                            Normal (match u with
                                    | Some u' => if truthy u' then u' else payload
                                    | None => payload
                                    end))
                        else Normal payload) (fun user =>
                  Normal {| statusCode := 200; body := JSON_stringify granted |}))))
                 (fun e => Normal {| statusCode := 200; body := JSON_stringify (JObject []) |})
               = Normal response
               /\ statusCode response = 200
               /\ body response
                  = JSON_stringify match JSON_parse text with
                                   | Some _ => granted
                                   | None => JObject []
                                   end).
  { intros text. cbn [bind].
    destruct (JSON_parse text) as [payload|]; cbn [bind try_catch].
    - destruct payload; cbn [truthy];
        match goal with
        | |- context [if ?b then _ else _] => destruct b
        | _ => idtac
        end; cbn [get bind try_catch]; eexists; repeat split; reflexivity.
    - eexists; repeat split; reflexivity. }
  unfold handler. destruct event as [e|].
  - unfold parsed_text. destruct (ev_body e) as [[|c s]|]; cbn [String.eqb].
    + destruct (G "{}") as (r & E & S & B). exists r. auto.
    + destruct (G (String c s)) as (r & E & S & B). exists r. auto.
    + destruct (G "{}") as (r & E & S & B). exists r. auto.
  - cbn [bind try_catch]. eexists; repeat split; reflexivity.
Qed.

(** ** The 5th percentile *)

(** C9, as the code has it.  For every finite [adjustedBase >= 0] the
    spread branch [adjustedBase - baseVariance * 1.5] is at most
    [adjustedBase * 0.15], the [Math.max] of the '5th' entry equals
    [adjustedBase * 0.15], and the 5th percentile of the generator is
    [round (adjustedBase * 0.15)]. *)
Theorem fifth_percentile_is_floor k :
  0 <= k < OVF ->
  nle (fsub (Fin k) (fmul (fmul (Fin k) (lit 6 10)) (lit 15 10)))
      (fmul (Fin k) (lit 15 100)) = true
  /\ Math_max (fmul (Fin k) (lit 15 100))
              (fsub (Fin k) (fmul (fmul (Fin k) (lit 6 10)) (lit 15 10)))
     = fmul (Fin k) (lit 15 100)
  /\ forall baseCost organizationFactors,
       adjustedBase baseCost organizationFactors = Fin k ->
       p5th (generateRealisticPercentiles baseCost organizationFactors)
       = Math_round (fmul (adjustedBase baseCost organizationFactors) (lit 15 100)).
Proof.
  intros Hk. split; [exact (spread5_le_floor5 k Hk)|].
  split; [exact (Math_max_floor5 k Hk)|].
  intros baseCost f E. unfold generateRealisticPercentiles. cbn [p5th]. rewrite E.
  f_equal. exact (Math_max_floor5 k Hk).
Qed.

Lemma fifth_percentile_witness :
  nle (fsub (Fin (1000 * U)) (fmul (fmul (Fin (1000 * U)) (lit 6 10)) (lit 15 10)))
      (fmul (Fin (1000 * U)) (lit 15 100)) = true
  /\ Math_max (fmul (Fin (1000 * U)) (lit 15 100))
              (fsub (Fin (1000 * U)) (fmul (fmul (Fin (1000 * U)) (lit 6 10)) (lit 15 10)))
     = fmul (Fin (1000 * U)) (lit 15 100)
  /\ forall baseCost organizationFactors,
       adjustedBase baseCost organizationFactors = Fin (1000 * U) ->
       p5th (generateRealisticPercentiles baseCost organizationFactors)
       = Math_round (fmul (adjustedBase baseCost organizationFactors) (lit 15 100)).
Proof.
  apply (fifth_percentile_is_floor (1000 * U)).
  split; [apply Z.leb_le|apply Z.ltb_lt]; vm_compute; reflexivity.
Defined.

(** C9 fails at [+Infinity], which is [>= 0]: the spread branch is
    [Infinity - Infinity], so the [Math.max] is [NaN] and not
    [Infinity * 0.15], which is [Infinity]. *)
Lemma fifth_percentile_at_infinity :
  nge (Inf false) (int 0) = true
  /\ Math_max (fmul (Inf false) (lit 15 100))
              (fsub (Inf false) (fmul (fmul (Inf false) (lit 6 10)) (lit 15 10))) = NaN
  /\ fmul (Inf false) (lit 15 100) = Inf false.
Proof. split; [|split]; vm_compute; reflexivity. Qed.

(** ** The statements at the worked example *)

Lemma approx_sample_bounded : log10_bounded approx_sample.
Proof.
  intros k Hk. unfold approx_sample.
  destruct (k =? 5 * 2 ^ 1073); [|destruct (k =? 5 * U)];
    eexists; (split; [reflexivity|]);
    (split; apply Z.leb_le; vm_compute; reflexivity).
Qed.

Lemma percentiles_ordered_witness :
  exists r, Engine.results approx_sample example_inputs = Some r
    /\ Forall (fun s => ordered (percentiles s) = true) (r_scenarios r)
    /\ Forall (fun e => nle (int 0) (e_adjustedCost e) = true) (r_costBreakdown r).
Proof.
  apply (percentiles_ordered_costs_nonnegative approx_sample example_inputs).
  - exact approx_sample_bounded.
  - vm_compute. reflexivity.
Defined.

Lemma worked_example_witness :
  exists r s,
    Engine.results approx_sample example_inputs = Some r
    /\ r_securityScore r = int 100
    /\ r_riskReduction r = int 65
    /\ near4 (Engine.sizeFactor approx_sample example_inputs) 10796 = true
    /\ near4 (Engine.revenueFactor approx_sample example_inputs) 11048 = true
    /\ find_scenario "Phishing" (r_scenarios r) = Some s
    /\ sc_baseCost (s_scenario s) = int 300000
    /\ Median (percentiles s) = int 125242
    /\ p25th (percentiles s) = int 68883
    /\ p75th (percentiles s) = int 206649
    /\ p5th (percentiles s) = int 18786
    /\ p95th (percentiles s) = int 495957.
Proof.
  apply (worked_example approx_sample); split; vm_compute; reflexivity.
Defined.

(** C3 fails on its figures: with the logarithms rounded to the nearest
    double the Phishing median is 125242, and the median, the 25th, the 75th
    and the 95th percentile are not within one unit of 125246, 68885, 206656
    and 495974. *)
Lemma worked_example_figures :
  exists r,
  exists s,
    Engine.results approx_sample example_inputs = Some r
    /\ find_scenario "Phishing" (r_scenarios r) = Some s
    /\ Median (percentiles s) = int 125242
    /\ near (Median (percentiles s)) 125246 = false
    /\ near (p25th (percentiles s)) 68885 = false
    /\ near (p75th (percentiles s)) 206656 = false
    /\ near (p95th (percentiles s)) 495974 = false.
Proof.
  eexists.
  exists {| s_scenario := {| sc_name := "Phishing"; sc_baseCost := int 300000;
                             sc_frequency := lit 3 10; sc_severity := lit 7 10 |};
            percentiles := generateRealisticPercentiles (int 300000)
                             (Engine.organizationFactors approx_sample example_inputs) |}.
  split; [reflexivity|]. split; [reflexivity|]. cbn [percentiles].
  split; [closed|]. split; [closed|]. split; [closed|]. split; closed.
Qed.

(** * Further properties of the program *)

(** ** The percentages of the result *)

Lemma percent_ends :
  percent (lit 15 100) = int 15 /\ percent (int 1) = int 100
  /\ nle (int 10) (percent (fmul (lit 15 100) (lit 65 100))) = true
  /\ percent (lit 65 100) = int 65.
Proof. split; [closed|]. split; [closed|]. split; closed. Qed.

(** A rounded value between two whole numbers is a whole number. *)
Lemma Math_round_between lo hi x :
  0 <= lo <= 2 ^ 53 -> 0 <= hi <= 2 ^ 53 ->
  nle (int lo) (Math_round x) = true -> nle (Math_round x) (int hi) = true ->
  exists n, Math_round x = int n /\ lo <= n <= hi.
Proof.
  intros Hlo Hhi. rewrite (int_units lo), (int_units hi) by assumption.
  destruct x as [|[]|k]; try discriminate.
  cbn [Math_round]. set (q := Z.shiftr (2 * k + U) 1075).
  intros L H. apply nle_Fin in L, H. pose proof U_pos as HU.
  assert (lo <= q <= hi) by nia.
  exists q. split; [|assumption]. rewrite int_units by lia. reflexivity.
Qed.

(** X1. The two percentages of the result are whole numbers: the security
    score between 15 and 100, the risk reduction between 10 and 65, on every
    input. *)
Theorem result_percentages approx inputs :
  exists r n m,
    Engine.results approx inputs = Some r
    /\ r_securityScore r = int n /\ 15 <= n <= 100
    /\ r_riskReduction r = int m /\ 10 <= m <= 65.
Proof.
  destruct percent_ends as (P15 & P100 & P10 & P65).
  destruct (securityScore_range inputs) as (a & E & Ha & L).
  destruct (riskReduction_range inputs) as (t & Et & Eu & Ht & K1).
  destruct (lit_Fin 15 100 ltac:(lia) ltac:(lia)) as (k15 & E15 & H15 & _).
  destruct (lit_Fin 65 100 ltac:(lia) ltac:(lia)) as (k65 & E65 & H65 & _).
  rewrite E15 in L, P15, P10. apply nle_Fin in L.
  rewrite E65 in Ht, P65, P10. cbn [units] in Ht.
  assert (S : exists n, percent (Fin a) = int n /\ 15 <= n <= 100).
  { assert (S1 : nle (percent (Fin k15)) (percent (Fin a)) = true)
      by (apply percent_mono; lia).
    assert (S2 : nle (percent (Fin a)) (percent (Fin U)) = true)
      by (apply percent_mono; lia).
    rewrite P15 in S1. rewrite <- int_1, P100 in S2.
    exact (Math_round_between 15 100 _ ltac:(lia) ltac:(lia) S1 S2). }
  assert (R : exists m, percent (Fin t) = int m /\ 10 <= m <= 65).
  { assert (T : nle (fmul (Fin k15) (Fin k65)) (Fin t) = true).
    { rewrite <- Eu. unfold Engine.riskReduction_uncapped. rewrite E, E65.
      apply fmul_mono_l; lia. }
    assert (T0 : nle (Fin 0) (fmul (Fin k15) (Fin k65)) = true).
    { unfold fmul. apply rnd_nonneg; nia. }
    destruct (within_Fin _ _ _ T0 T) as (w & W & Hw). rewrite W in P10.
    assert (S1 : nle (percent (Fin w)) (percent (Fin t)) = true)
      by (apply percent_mono; lia).
    assert (S2 : nle (percent (Fin t)) (percent (Fin k65)) = true)
      by (apply percent_mono; lia).
    rewrite P65 in S2.
    exact (Math_round_between 10 65 _ ltac:(lia) ltac:(lia) (nle_trans _ _ _ P10 S1) S2). }
  destruct S as (n & En & Hn). destruct R as (m & Em & Hm).
  eexists. exists n, m. split; [reflexivity|]. cbn [r_securityScore r_riskReduction].
  rewrite E, Et. split; [exact En|]. split; [exact Hn|]. split; [exact Em|exact Hm].
Qed.

(** ** Organisations below the reference size *)

Lemma nle_antisym x y : nle x y = true -> nle y x = true -> x = y.
Proof.
  destruct x as [|[]|a], y as [|[]|b]; simpl; try discriminate; auto.
  intros. f_equal. lia.
Qed.

(** One is the unit of the multiplication of doubles. *)
Lemma fmul_one k : double k -> fmul (Fin k) (Fin U) = Fin k.
Proof.
  intros D. unfold double in D. rewrite <- D at 2. unfold fmul.
  apply nle_antisym; apply rnd_le; try lia; rewrite U_eq; change (1 * 2 ^ 0) with 1; lia.
Qed.

Lemma fadd_one_le x : nle x (Fin 0) = true -> nle (fadd x (int 1)) (int 1) = true.
Proof.
  destruct x as [|[]|p]; try discriminate; intros H.
  - rewrite int_1. reflexivity.
  - apply nle_Fin in H. rewrite int_1 at 1. unfold fadd, int, lit. apply rnd_le; lia.
Qed.

Lemma fmul_nonpos x c : 0 < c -> nle x (Fin 0) = true -> nle (fmul x (Fin c)) (Fin 0) = true.
Proof.
  intros Hc. destruct x as [|[]|y]; try discriminate; intros H.
  - cbn [fmul]. destruct (Z.eqb_spec c 0); [lia|]. destruct (Z.ltb_spec c 0); [lia|]. reflexivity.
  - apply nle_Fin in H. unfold fmul.
    replace (Fin 0) with (rnd 0 1 0) by reflexivity. apply rnd_le; try lia; nia.
Qed.

(** At or below the reference [ref], with a logarithm that is not positive
    below one, the scale factor is exactly one. *)
Lemma scaleFactor_one approx x floor ref c :
  log10_sign approx -> nle x (int ref) = true ->
  1 <= floor <= ref -> ref <= 2 ^ 40 -> 0 < c ->
  scaleFactor approx x floor ref (Fin c) = int 1.
Proof.
  intros HS Hx Hf Hr Hc. pose proof U_pos as HU. unfold scaleFactor.
  assert (P40 : 2 ^ 40 <= 2 ^ 53) by (apply Z.pow_le_mono_r; lia).
  rewrite (int_units ref) in Hx by lia.
  rewrite (int_units floor), (int_units ref) by lia.
  assert (Hm : exists m, Math_max x (Fin (floor * U)) = Fin m /\ 0 < m <= ref * U).
  { destruct x as [|[]|e]; try discriminate.
    - exists (floor * U). split; [reflexivity|nia].
    - apply nle_Fin in Hx. cbn.
      destruct (Z.ltb_spec e (floor * U)); eexists; (split; [reflexivity|]); nia. }
  destruct Hm as (m & -> & Hm).
  assert (Hq : exists q, fdiv (Fin m) (Fin (ref * U)) = Fin q /\ 0 <= q <= U).
  { cbn [fdiv]. destruct (Z.eqb_spec (ref * U) 0); [nia|].
    rewrite Z.sgn_pos, Z.abs_eq by nia.
    apply within_Fin.
    - apply rnd_nonneg; nia.
    - rewrite <- int_1. unfold int, lit. apply rnd_le; try lia; nia. }
  destruct Hq as (q & -> & Hq).
  assert (HL : nle (Math_log10 approx (Fin q)) (Fin 0) = true).
  { cbn [Math_log10]. destruct (Z.eqb_spec q U); [reflexivity|].
    destruct (Z.eqb_spec q 0); [reflexivity|].
    destruct (Z.ltb_spec q 0); [lia|]. apply HS. lia. }
  apply Math_max_l, fadd_one_le, fmul_nonpos; assumption.
Qed.

Lemma lit_positive n d : 0 < d <= 2 ^ 53 -> 0 < n <= 2 ^ 53 * d ->
  exists c, lit n d = Fin c /\ 0 < c.
Proof.
  intros Hd Hn. destruct (lit_Fin n d ltac:(lia) ltac:(lia)) as (c & E & Hc & _).
  exists c. split; [exact E|].
  assert (L : nle (Fin 1) (lit n d) = true).
  { replace (Fin 1) with (rnd 1 1 0) by reflexivity. unfold lit.
    assert (B : 2 ^ 53 <= U) by (apply Z.pow_le_mono_r; lia).
    apply rnd_le; try lia; change (2 ^ 0) with 1; nia. }
  rewrite E in L. apply nle_Fin in L. lia.
Qed.

(** X2. No surcharge at or below the reference size: with a logarithm that
    is not positive below one, an organisation of at most 100 employees has
    [sizeFactor = 1] and one of at most 10,000,000 of revenue has
    [revenueFactor = 1], exactly. *)
Theorem factors_are_one approx inputs :
  log10_sign approx ->
  (nle (employees inputs) (int 100) = true -> Engine.sizeFactor approx inputs = int 1)
  /\ (nle (revenue inputs) (int 10000000) = true ->
      Engine.revenueFactor approx inputs = int 1).
Proof.
  intros HS. split; intros H.
  - change (Engine.sizeFactor approx inputs)
      with (scaleFactor approx (employees inputs) 10 100 (lit 2 10)).
    destruct (lit_positive 2 10 ltac:(lia) ltac:(lia)) as (c & -> & Hc).
    apply scaleFactor_one; try assumption; lia.
  - change (Engine.revenueFactor approx inputs)
      with (scaleFactor approx (revenue inputs) 1000000 10000000 (lit 15 100)).
    destruct (lit_positive 15 100 ltac:(lia) ltac:(lia)) as (c & -> & Hc).
    apply scaleFactor_one; try assumption; lia.
Qed.

(** ** The score shown *)

Lemma check_score_display_table :
  forallb (fun b => forallb (fun m => forallb (fun p => forallb (fun v => forallb (fun t =>
    check_score_display (setting b m p v t))
    [true; false]) [true; false]) [true; false]) [true; false]) [true; false] = true.
Proof. closed. Qed.

Lemma In_bool (b : bool) : In b [true; false].
Proof. destruct b; cbn [In]; auto. Qed.

(** X3. The security score shown is exact: for each of the 32 settings of
    the controls the rounded percentage of the result is the sum of the
    weights of the enabled controls and of the base weight, in hundredths;
    and the advice to add controls, shown when the score is below 75, is
    shown exactly when that sum is. *)
Theorem securityScore_display approx inputs :
  exists r,
    Engine.results approx inputs = Some r
    /\ r_securityScore r = int (score_percent inputs)
    /\ nlt (r_securityScore r) (int 75) = Z.ltb (score_percent inputs) 75.
Proof.
  eexists. split; [reflexivity|]. cbn [r_securityScore].
  assert (E : percent (Engine.securityScore inputs) = int (score_percent inputs)).
  { destruct inputs as [e r ins b m p v t].
    pose proof check_score_display_table as T.
    rewrite forallb_forall in T. specialize (T b (In_bool b)).
    rewrite forallb_forall in T. specialize (T m (In_bool m)).
    rewrite forallb_forall in T. specialize (T p (In_bool p)).
    rewrite forallb_forall in T. specialize (T v (In_bool v)).
    rewrite forallb_forall in T. specialize (T t (In_bool t)).
    apply num_eqb_eq in T. exact T. }
  unfold percent in E. rewrite E. split; [reflexivity|].
  assert (B : 0 <= score_percent inputs <= 100).
  { unfold score_percent.
    destruct (backupsIsolated inputs), (mfaEnabled inputs), (phishingTraining inputs),
      (vendorReviews inputs), (irTabletop inputs); lia. }
  rewrite (int_units (score_percent inputs)), (int_units 75) by lia.
  cbn [nlt]. pose proof U_pos as HU.
  destruct (Z.ltb_spec (score_percent inputs * U) (75 * U)),
    (Z.ltb_spec (score_percent inputs) 75); try reflexivity; nia.
Qed.

(** ** Monotonicity of the percentiles *)

Lemma fmul_le_pos x x' c : 0 < c -> le_pos x x' -> le_pos (fmul x (Fin c)) (fmul x' (Fin c)).
Proof.
  intros Hc [P H].
  destruct x as [|[]|a]; try discriminate P; destruct x' as [|[]|a']; try discriminate H.
  - cbn [fmul]. destruct (Z.eqb_spec c 0); [lia|]. destruct (Z.ltb_spec c 0); [lia|].
    split; reflexivity.
  - apply nle_Fin in P. split; [unfold fmul; apply rnd_nonneg; nia|].
    cbn [fmul]. destruct (Z.eqb_spec c 0); [lia|]. destruct (Z.ltb_spec c 0); [lia|].
    apply nle_top, rnd_not_nan.
  - apply nle_Fin in P, H. split; [unfold fmul; apply rnd_nonneg; nia|].
    apply fmul_mono_l; lia.
Qed.

Lemma percentiles_le_bases baseCost f baseCost' f' k k' :
  adjustedBase baseCost f = Fin k -> adjustedBase baseCost' f' = Fin k' ->
  0 <= k <= k' ->
  percentiles_le (generateRealisticPercentiles baseCost f)
                 (generateRealisticPercentiles baseCost' f') = true.
Proof.
  intros E E' Hk.
  assert (D : double k) by (eapply fmul_double; exact E).
  assert (D' : double k') by (eapply fmul_double; exact E').
  pose proof (double_bound k ltac:(lia) D) as Hov.
  pose proof (double_bound k' ltac:(lia) D') as Hov'.
  unfold percentiles_le, generateRealisticPercentiles; cbn [p5th p25th Median p75th p95th].
  rewrite E, E'.
  change (Math_max (fmul (Fin k) (lit 15 100))
            (fsub (Fin k) (fmul (fmul (Fin k) (lit 6 10)) (lit 15 10))))
    with (Math_max (floor5 (Fin k)) (spread5 (Fin k))).
  change (Math_max (fmul (Fin k') (lit 15 100))
            (fsub (Fin k') (fmul (fmul (Fin k') (lit 6 10)) (lit 15 10))))
    with (Math_max (floor5 (Fin k')) (spread5 (Fin k'))).
  rewrite !Math_max_floor5 by lia. unfold floor5.
  destruct (lit_positive 15 100 ltac:(lia) ltac:(lia)) as (c15 & -> & H15).
  destruct (lit_positive 55 100 ltac:(lia) ltac:(lia)) as (c55 & -> & H55).
  destruct (lit_positive 165 100 ltac:(lia) ltac:(lia)) as (c165 & -> & H165).
  destruct (lit_positive 18 10 ltac:(lia) ltac:(lia)) as (c18 & -> & H18).
  destruct (lit_positive 22 10 ltac:(lia) ltac:(lia)) as (c22 & -> & H22).
  apply andb_true_intro; split; [apply andb_true_intro; split;
    [apply andb_true_intro; split; [apply andb_true_intro; split|]|]|];
    apply Math_round_mono.
  - apply fmul_mono_l; lia.
  - apply fmul_mono_l; lia.
  - apply nle_Fin. lia.
  - apply fmul_mono_l; lia.
  - apply fmul_le_pos; [exact H22|]. apply fmul_le_pos; [exact H18|].
    split; apply nle_Fin; lia.
Qed.

(** X4. The percentile generator is monotone: of two finite adjusted bases
    that are not negative, the larger gives five percentiles none of which
    is smaller. *)
Theorem generateRealisticPercentiles_mono baseCost f baseCost' f' k k' :
  adjustedBase baseCost f = Fin k -> adjustedBase baseCost' f' = Fin k' ->
  0 <= k <= k' ->
  percentiles_le (generateRealisticPercentiles baseCost f)
                 (generateRealisticPercentiles baseCost' f') = true.
Proof. exact (percentiles_le_bases baseCost f baseCost' f' k k'). Qed.

Lemma fsub_one_range t : 0 <= t <= U ->
  exists g, fsub (int 1) (Fin t) = Fin g /\ 0 <= g <= U.
Proof.
  intros Ht. apply within_Fin.
  - rewrite int_1. unfold fsub, fneg, fadd. apply rnd_nonneg; lia.
  - rewrite <- int_1. rewrite int_1 at 1. unfold int, lit, fsub, fneg, fadd.
    apply rnd_le; lia.
Qed.

Lemma fsub_one_antitone t t' : t' <= t ->
  nle (fsub (int 1) (Fin t)) (fsub (int 1) (Fin t')) = true.
Proof. intros H. rewrite int_1. unfold fsub, fneg, fadd. apply rnd_le; lia. Qed.

(** The adjusted base grows with the base cost and the two factors and
    shrinks when the risk reduction grows; on bounded arguments it is
    finite. *)
Lemma adjustedBase_le n n' s s' r r' t t' :
  0 <= n <= n' -> n' <= 2 ^ 20 ->
  0 <= s <= s' -> s' <= 401 * U -> 0 <= r <= r' -> r' <= 401 * U ->
  0 <= t' <= t -> t <= U ->
  exists k k',
    adjustedBase (Fin (n * U))
      {| f_sizeFactor := Fin s; f_revenueFactor := Fin r; f_riskReduction := Fin t |}
    = Fin k
    /\ adjustedBase (Fin (n' * U))
         {| f_sizeFactor := Fin s'; f_revenueFactor := Fin r'; f_riskReduction := Fin t' |}
       = Fin k'
    /\ 0 <= k <= k'.
Proof.
  intros Hn Hn' Hs Hs' Hr Hr' Ht Ht'. pose proof U_pos as HU.
  unfold adjustedBase. cbn [f_sizeFactor f_revenueFactor f_riskReduction].
  destruct (fsub_one_range t ltac:(lia)) as (g & Eg & Hg).
  destruct (fsub_one_range t' ltac:(lia)) as (g' & Eg' & Hg').
  pose proof (fsub_one_antitone t t' ltac:(lia)) as G. rewrite Eg, Eg' in G.
  apply nle_Fin in G. rewrite Eg, Eg'.
  assert (B0 : 0 <= n * U <= 2 ^ 20 * U) by nia.
  assert (B0' : 0 <= n' * U <= 2 ^ 20 * U) by nia.
  destruct (fmul_bounded (n * U) s (2 ^ 20) (2 ^ 9) B0 ltac:(lia) ltac:(lia))
    as (a1 & E1 & H1).
  destruct (fmul_bounded (n' * U) s' (2 ^ 20) (2 ^ 9) B0' ltac:(lia) ltac:(lia))
    as (a1' & E1' & H1').
  assert (M1 : a1 <= a1').
  { apply nle_Fin. rewrite <- E1, <- E1'. apply fmul_mono; nia. }
  rewrite E1, E1'.
  destruct (fmul_bounded a1 r (2 ^ 29) (2 ^ 9) ltac:(lia) ltac:(lia) ltac:(lia))
    as (a2 & E2 & H2).
  destruct (fmul_bounded a1' r' (2 ^ 29) (2 ^ 9) ltac:(lia) ltac:(lia) ltac:(lia))
    as (a2' & E2' & H2').
  assert (M2 : a2 <= a2').
  { apply nle_Fin. rewrite <- E2, <- E2'. apply fmul_mono; lia. }
  rewrite E2, E2'.
  destruct (fmul_bounded a2 g (2 ^ 38) 1 ltac:(lia) ltac:(lia) ltac:(lia))
    as (k & E3 & H3).
  destruct (fmul_bounded a2' g' (2 ^ 38) 1 ltac:(lia) ltac:(lia) ltac:(lia))
    as (k' & E3' & H3').
  exists k, k'. split; [exact E3|]. split; [exact E3'|]. split; [lia|].
  apply nle_Fin. rewrite <- E3, <- E3'. apply fmul_mono; lia.
Qed.

(** The risk reduction grows with the settings of the controls. *)
Lemma riskReduction_le i j t t' :
  controls_le i j = true ->
  Engine.riskReduction i = Fin t -> Engine.riskReduction j = Fin t' -> t <= t'.
Proof.
  intros H E E'.
  destruct (riskReduction_range i) as (u & Eu & Uu & _).
  destruct (riskReduction_range j) as (u' & Eu' & Uu' & _).
  rewrite E in Eu. injection Eu as <-. rewrite E' in Eu'. injection Eu' as <-.
  destruct (securityScore_range i) as (a & Ea & Ha & _).
  destruct (securityScore_range j) as (a' & Ea' & Ha' & _).
  destruct (securityScore_le_pos i j H) as [_ M]. rewrite Ea, Ea' in M. apply nle_Fin in M.
  destruct (lit_Fin 65 100 ltac:(lia) ltac:(lia)) as (k & Ek & Hk & _).
  apply nle_Fin. rewrite <- Uu, <- Uu'. unfold Engine.riskReduction_uncapped.
  rewrite Ea, Ea', Ek. apply fmul_mono_l; lia.
Qed.

(** An adjusted cost does not increase when controls are added. *)
Lemma cost_controls i j s cat :
  In cat COST_CATEGORIES -> controls_le i j = true ->
  (s = Inf false \/ exists k, s = Fin k /\ 0 <= k) ->
  le_pos (cost (Engine.reductionFactor j) s cat) (cost (Engine.reductionFactor i) s cat).
Proof.
  intros Hcat H Hs. unfold cost.
  pose proof catalog_baseCost as Hb. rewrite List.Forall_forall in Hb.
  destruct (Hb cat Hcat) as (n & -> & Hn).
  destruct (reductionFactor_range i cat Hcat) as (v & Ev & V0 & V1).
  destruct (reductionFactor_range j cat Hcat) as (v' & Ev' & V0' & V1').
  pose proof (reductionFactor_le i j cat H) as M.
  rewrite Ev, Ev' in *. apply nle_Fin in M.
  destruct (coefficient_mono n v v' Hn ltac:(lia) V1') as (k & k' & -> & -> & Hk).
  apply Math_round_le_pos, fmul_scale_le_pos; assumption.
Qed.

(** X5. On an in-range profile, a larger set of enabled controls never gives
    a larger estimate: the total cost and each of the five percentiles of
    each scenario are at most what they are with the smaller set.
    ([Math.log10] is taken to return finite values of magnitude at most
    400.) *)
Theorem more_controls_lower_estimate approx inputs inputs' :
  log10_bounded approx -> in_range inputs = true ->
  employees inputs' = employees inputs -> revenue inputs' = revenue inputs ->
  controls_le inputs inputs' = true ->
  exists r r',
    Engine.results approx inputs = Some r
    /\ Engine.results approx inputs' = Some r'
    /\ nle (r_totalCost r') (r_totalCost r) = true
    /\ Forall2 (fun s' s => percentiles_le (percentiles s') (percentiles s) = true)
               (r_scenarios r') (r_scenarios r).
Proof.
  intros HL HR He Hr H. do 2 eexists. split; [reflexivity|]. split; [reflexivity|].
  cbn [r_totalCost r_scenarios].
  assert (ES : Engine.sizeFactor approx inputs' = Engine.sizeFactor approx inputs).
  { unfold Engine.sizeFactor. rewrite He. reflexivity. }
  assert (ER : Engine.revenueFactor approx inputs' = Engine.revenueFactor approx inputs).
  { unfold Engine.revenueFactor. rewrite Hr. reflexivity. }
  destruct (sizeFactor_bounds approx inputs HL HR) as (s & Es & Hs).
  destruct (revenueFactor_bounds approx inputs HL HR) as (r & Er & Hr0).
  pose proof U_pos as HU.
  split.
  - rewrite !totalCost_costs, ES, Es.
    apply fold_fadd_le_pos; [|rewrite int_0; split; reflexivity].
    apply Forall2_map_of_Forall, List.Forall_forall. intros cat Hcat.
    apply cost_controls; [exact Hcat|exact H|].
    right. exists s. split; [reflexivity|lia].
  - unfold Engine.scenarios.
    apply Forall2_map_of_Forall, List.Forall_forall. intros sc Hsc. cbn [percentiles].
    pose proof catalog_scenarios as C. rewrite List.Forall_forall in C.
    destruct (C sc Hsc) as (n & En & Hn).
    destruct (riskReduction_range inputs) as (t & Et & _ & Ht & K).
    destruct (riskReduction_range inputs') as (t' & Et' & _ & Ht' & _).
    pose proof (riskReduction_le _ _ _ _ H Et Et') as M.
    destruct (adjustedBase_le n n s s r r t' t ltac:(lia) ltac:(lia) ltac:(lia) ltac:(lia)
                ltac:(lia) ltac:(lia) ltac:(lia) ltac:(lia)) as (k' & k & Ek' & Ek & Hk).
    apply (percentiles_le_bases _ _ _ _ k' k); [| |exact Hk].
    + unfold Engine.organizationFactors. rewrite ES, ER, En, Es, Er, Et'. exact Ek'.
    + unfold Engine.organizationFactors. rewrite En, Es, Er, Et. exact Ek.
Qed.

(** X6. On an in-range profile, of two scenarios of the catalog the one
    with the larger base cost has no smaller percentile. *)
Theorem costlier_scenario_higher_percentiles approx inputs sc sc' :
  log10_bounded approx -> in_range inputs = true ->
  In sc THREAT_SCENARIOS -> In sc' THREAT_SCENARIOS ->
  nle (sc_baseCost sc) (sc_baseCost sc') = true ->
  percentiles_le
    (generateRealisticPercentiles (sc_baseCost sc)
       (Engine.organizationFactors approx inputs))
    (generateRealisticPercentiles (sc_baseCost sc')
       (Engine.organizationFactors approx inputs)) = true.
Proof.
  intros HL HR Hsc Hsc' Hb.
  pose proof catalog_scenarios as C. rewrite List.Forall_forall in C.
  destruct (C sc Hsc) as (n & En & Hn). destruct (C sc' Hsc') as (n' & En' & Hn').
  rewrite En, En' in Hb. apply nle_Fin in Hb. pose proof U_pos as HU.
  assert (N : n <= n') by nia.
  destruct (sizeFactor_bounds approx inputs HL HR) as (s & Es & Hs).
  destruct (revenueFactor_bounds approx inputs HL HR) as (r & Er & Hr0).
  destruct (riskReduction_range inputs) as (t & Et & _ & Ht & K).
  destruct (adjustedBase_le n n' s s r r t t ltac:(lia) ltac:(lia) ltac:(lia) ltac:(lia)
              ltac:(lia) ltac:(lia) ltac:(lia) ltac:(lia)) as (k & k' & Ek & Ek' & Hk).
  apply (percentiles_le_bases _ _ _ _ k k'); [| |exact Hk].
  - unfold Engine.organizationFactors. rewrite En, Es, Er, Et. exact Ek.
  - unfold Engine.organizationFactors. rewrite En', Es, Er, Et. exact Ek'.
Qed.

(** ** Growth of the organisation *)

Lemma nle_bottom x : is_nan x = false -> nle (Inf true) x = true.
Proof. destruct x as [|[]|]; simpl; auto. Qed.

Lemma fmul_mono_nle x x' c : 0 < c -> nle x x' = true ->
  nle (fmul x (Fin c)) (fmul x' (Fin c)) = true.
Proof.
  intros Hc H.
  destruct x as [|[]|a]; try discriminate H; destruct x' as [|[]|a']; try discriminate H;
    cbn [fmul]; destruct (Z.eqb_spec c 0); try lia; destruct (Z.ltb_spec c 0); try lia;
    try reflexivity.
  - apply nle_bottom, rnd_not_nan.
  - apply nle_top, rnd_not_nan.
  - apply nle_Fin in H. apply (fmul_mono_l a a' c); lia.
Qed.

Lemma fadd_mono_nle x x' u : nle x x' = true ->
  nle (fadd x (Fin u)) (fadd x' (Fin u)) = true.
Proof.
  intros H.
  destruct x as [|[]|a]; try discriminate H; destruct x' as [|[]|a']; try discriminate H;
    cbn [fadd]; try reflexivity.
  - apply nle_bottom, rnd_not_nan.
  - apply nle_top, rnd_not_nan.
  - apply nle_Fin in H. apply rnd_le; lia.
Qed.

Lemma Math_max_mono u x x' : nle x x' = true ->
  nle (Math_max (Fin u) x) (Math_max (Fin u) x') = true.
Proof.
  intros H.
  destruct x as [|[]|a]; try discriminate H; destruct x' as [|[]|a']; try discriminate H;
    cbn; try reflexivity; try apply Z.leb_refl.
  - destruct (Z.ltb_spec u a'); apply Z.leb_le; lia.
  - destruct (Z.ltb_spec u a); reflexivity.
  - apply Z.leb_le in H.
    destruct (Z.ltb_spec u a), (Z.ltb_spec u a'); apply Z.leb_le; lia.
Qed.

(** With a logarithm that does not decrease, the scale factor does not
    decrease either. *)
Lemma scaleFactor_mono approx e e' floor ref c :
  log10_monotone approx ->
  0 <= e <= e' -> e' <= 2 ^ 40 * U -> 1 <= floor <= 2 ^ 40 -> 1 <= ref <= 2 ^ 40 -> 0 < c ->
  nle (scaleFactor approx (Fin e) floor ref (Fin c))
      (scaleFactor approx (Fin e') floor ref (Fin c)) = true.
Proof.
  intros HM He He' Hf Hr Hc. pose proof U_pos as HU. unfold scaleFactor.
  assert (P40 : 2 ^ 40 <= 2 ^ 53) by (apply Z.pow_le_mono_r; lia).
  assert (PU : 2 ^ 40 <= U) by (apply Z.pow_le_mono_r; lia).
  rewrite (int_units floor), (int_units ref), int_1 by lia.
  assert (Hm : exists m m', Math_max (Fin e) (Fin (floor * U)) = Fin m
                            /\ Math_max (Fin e') (Fin (floor * U)) = Fin m'
                            /\ U <= m <= m' /\ m' <= 2 ^ 40 * U).
  { cbn. destruct (Z.ltb_spec e (floor * U)), (Z.ltb_spec e' (floor * U));
      do 2 eexists; (split; [reflexivity|]); (split; [reflexivity|]); nia. }
  destruct Hm as (m & m' & -> & -> & Hm & Hm').
  assert (Hq : forall w, U <= w <= 2 ^ 40 * U ->
                exists q, fdiv (Fin w) (Fin (ref * U)) = Fin q /\ 0 < q).
  { intros w Hw. cbn [fdiv]. destruct (Z.eqb_spec (ref * U) 0); [nia|].
    rewrite Z.sgn_pos, Z.abs_eq by nia.
    assert (Q0 : nle (Fin 1) (rnd (1 * w * U) (ref * U) 0) = true).
    { replace (Fin 1) with (rnd 1 1 0) by reflexivity. apply rnd_le; try lia; nia. }
    assert (Q1 : nle (rnd (1 * w * U) (ref * U) 0) (Fin (2 ^ 40 * U)) = true).
    { rewrite <- (int_units (2 ^ 40)) by lia. unfold int, lit.
      assert (w * U <= 2 ^ 40 * U * (ref * U)) by nia.
      apply rnd_le; try lia; nia. }
    destruct (within_Fin _ _ _ Q0 Q1) as (q & Eq & Bq).
    exists q. split; [exact Eq|lia]. }
  destruct (Hq m ltac:(lia)) as (q & Eq & Bq).
  destruct (Hq m' ltac:(lia)) as (q' & Eq' & Bq').
  assert (Q : q <= q').
  { apply nle_Fin. rewrite <- Eq, <- Eq'. cbn [fdiv].
    destruct (Z.eqb_spec (ref * U) 0); [nia|].
    rewrite Z.sgn_pos, Z.abs_eq by nia. apply rnd_le; [nia|lia|nia|lia|].
    change (2 ^ 0) with 1. apply Z.mul_le_mono_nonneg_r; [nia|].
    apply Z.mul_le_mono_nonneg_r; lia. }
  rewrite Eq, Eq'.
  apply Math_max_mono, fadd_mono_nle, fmul_mono_nle; [exact Hc|].
  apply HM. lia.
Qed.

Lemma in_range_numbers inputs : in_range inputs = true ->
  exists e r, employees inputs = Fin e /\ revenue inputs = Fin r
              /\ 0 <= e <= 2 ^ 40 * U /\ 0 <= r <= 2 ^ 40 * U.
Proof.
  intros H. unfold in_range in H. split_andb H.
  rewrite in_limits_employees in H. rewrite in_limits_revenue in H1.
  destruct (limits_Fin 1 1000000 _ ltac:(lia) ltac:(lia) H) as (e & E & He).
  destruct (limits_Fin 0 100000000000 _ ltac:(lia) ltac:(lia) H1) as (r & R & Hr).
  exists e, r. auto.
Qed.

(** The two factors of a larger organisation are not smaller. *)
Lemma factors_mono approx i i' :
  log10_monotone approx -> in_range i = true -> in_range i' = true ->
  nle (employees i) (employees i') = true -> nle (revenue i) (revenue i') = true ->
  nle (Engine.sizeFactor approx i) (Engine.sizeFactor approx i') = true
  /\ nle (Engine.revenueFactor approx i) (Engine.revenueFactor approx i') = true.
Proof.
  intros HM HR HR' He Hr.
  destruct (in_range_numbers i HR) as (e & r & Ee & Er & Be & Br).
  destruct (in_range_numbers i' HR') as (e' & r' & Ee' & Er' & Be' & Br').
  rewrite Ee, Ee' in He. rewrite Er, Er' in Hr. apply nle_Fin in He, Hr.
  split.
  - change (Engine.sizeFactor approx i)
      with (scaleFactor approx (employees i) 10 100 (lit 2 10)).
    change (Engine.sizeFactor approx i')
      with (scaleFactor approx (employees i') 10 100 (lit 2 10)).
    destruct (lit_positive 2 10 ltac:(lia) ltac:(lia)) as (c & -> & Hc).
    rewrite Ee, Ee'. apply scaleFactor_mono; try assumption; lia.
  - change (Engine.revenueFactor approx i)
      with (scaleFactor approx (revenue i) 1000000 10000000 (lit 15 100)).
    change (Engine.revenueFactor approx i')
      with (scaleFactor approx (revenue i') 1000000 10000000 (lit 15 100)).
    destruct (lit_positive 15 100 ltac:(lia) ltac:(lia)) as (c & -> & Hc).
    rewrite Er, Er'. apply scaleFactor_mono; try assumption; lia.
Qed.

(** An adjusted cost does not decrease when the size factor grows. *)
Lemma cost_mono inputs s s' cat :
  In cat COST_CATEGORIES -> 0 <= s <= s' ->
  le_pos (cost (Engine.reductionFactor inputs) (Fin s) cat)
         (cost (Engine.reductionFactor inputs) (Fin s') cat).
Proof.
  intros Hcat Hs. unfold cost.
  pose proof catalog_baseCost as Hb. rewrite List.Forall_forall in Hb.
  destruct (Hb cat Hcat) as (n & -> & Hn).
  destruct (reductionFactor_range inputs cat Hcat) as (v & -> & V0 & V1).
  destruct (coefficient_mono n v v Hn ltac:(lia) V1) as (k & k' & E & _ & Hk).
  rewrite E. apply Math_round_le_pos. split.
  - unfold fmul. apply rnd_nonneg; nia.
  - apply fmul_mono; lia.
Qed.

(** X7. With a logarithm that does not decrease, a larger organisation never
    gets a smaller estimate: between two in-range profiles with the same
    controls, more employees and more revenue give a total cost and
    percentiles that are not smaller. *)
Theorem growth_monotone approx inputs employees' revenue' :
  log10_bounded approx -> log10_monotone approx ->
  in_range inputs = true -> in_range (resize employees' revenue' inputs) = true ->
  nle (employees inputs) employees' = true -> nle (revenue inputs) revenue' = true ->
  exists r r',
    Engine.results approx inputs = Some r
    /\ Engine.results approx (resize employees' revenue' inputs) = Some r'
    /\ nle (r_totalCost r) (r_totalCost r') = true
    /\ Forall2 (fun s s' => percentiles_le (percentiles s) (percentiles s') = true)
               (r_scenarios r) (r_scenarios r').
Proof.
  intros HL HM HR HR' He Hr. set (i' := resize employees' revenue' inputs) in *.
  do 2 eexists. split; [reflexivity|]. split; [reflexivity|].
  cbn [r_totalCost r_scenarios].
  destruct (factors_mono approx inputs i' HM HR HR' He Hr) as [MS MR].
  destruct (sizeFactor_bounds approx inputs HL HR) as (s & Es & Hs).
  destruct (revenueFactor_bounds approx inputs HL HR) as (r & Er & Hr0).
  destruct (sizeFactor_bounds approx i' HL HR') as (s' & Es' & Hs').
  destruct (revenueFactor_bounds approx i' HL HR') as (r' & Er' & Hr0').
  rewrite Es, Es' in MS. rewrite Er, Er' in MR. apply nle_Fin in MS, MR.
  pose proof U_pos as HU.
  split.
  - rewrite !totalCost_costs, Es, Es'.
    change (Engine.reductionFactor i') with (Engine.reductionFactor inputs).
    apply fold_fadd_le_pos; [|rewrite int_0; split; reflexivity].
    apply Forall2_map_of_Forall, List.Forall_forall. intros cat Hcat.
    apply cost_mono; [exact Hcat|lia].
  - unfold Engine.scenarios.
    apply Forall2_map_of_Forall, List.Forall_forall. intros sc Hsc. cbn [percentiles].
    pose proof catalog_scenarios as C. rewrite List.Forall_forall in C.
    destruct (C sc Hsc) as (n & En & Hn).
    destruct (riskReduction_range inputs) as (t & Et & _ & Ht & K).
    destruct (adjustedBase_le n n s s' r r' t t ltac:(lia) ltac:(lia) ltac:(lia) ltac:(lia)
                ltac:(lia) ltac:(lia) ltac:(lia) ltac:(lia)) as (k & k' & Ek & Ek' & Hk).
    apply (percentiles_le_bases _ _ _ _ k k'); [| |exact Hk].
    + unfold Engine.organizationFactors. rewrite En, Es, Er, Et. exact Ek.
    + unfold Engine.organizationFactors.
      change (Engine.riskReduction i') with (Engine.riskReduction inputs).
      rewrite En, Es', Er', Et. exact Ek'.
Qed.

(** ** The total is the exact sum of the adjusted costs *)

Lemma fadd_whole a b : 0 <= a -> 0 <= b -> a + b <= 2 ^ 53 ->
  fadd (Fin (a * U)) (Fin (b * U)) = Fin ((a + b) * U).
Proof.
  intros Ha Hb H. unfold fadd. rewrite <- Z.mul_add_distr_r.
  change (rnd ((a + b) * U) 1 0) with (int (a + b)). apply int_units. lia.
Qed.

Lemma Math_round_whole t N : 0 <= t <= N * U ->
  exists q, Math_round (Fin t) = Fin (q * U) /\ 0 <= q <= N.
Proof.
  intros Ht. pose proof U_pos as HU. cbn [Math_round].
  exists (Z.shiftr (2 * t + U) 1075). split; [reflexivity|].
  rewrite Z.shiftr_div_pow2 by lia.
  replace (2 ^ 1075) with (2 * U) by reflexivity.
  split.
  - apply Z.div_pos; lia.
  - apply Z.lt_succ_r. apply Z.div_lt_upper_bound; lia.
Qed.

Lemma catalog_baseCost_small :
  Forall (fun cat => exists n, cat_baseCost cat = Fin (n * U) /\ 1 <= n <= 2 ^ 19)
         COST_CATEGORIES.
Proof.
  unfold COST_CATEGORIES.
  repeat constructor; cbn [cat_baseCost]; eexists; (split; [apply int_units|]); lia.
Qed.

(** On a bounded size factor an adjusted cost is a whole number. *)
Lemma cost_whole inputs s cat :
  In cat COST_CATEGORIES -> 0 <= s <= 401 * U ->
  exists q, cost (Engine.reductionFactor inputs) (Fin s) cat = Fin (q * U)
            /\ 0 <= q <= 2 ^ 28.
Proof.
  intros Hcat Hs. unfold cost. pose proof U_pos as HU.
  pose proof catalog_baseCost_small as Hb. rewrite List.Forall_forall in Hb.
  destruct (Hb cat Hcat) as (n & -> & Hn).
  destruct (reductionFactor_range inputs cat Hcat) as (v & -> & V0 & V1).
  destruct (fsub_one_range v ltac:(lia)) as (g & -> & Hg).
  destruct (fmul_bounded (n * U) g (2 ^ 19) 1 ltac:(nia) ltac:(lia) ltac:(lia))
    as (c & -> & Hc).
  destruct (fmul_bounded c s (2 ^ 19) (2 ^ 9) ltac:(lia) ltac:(lia) ltac:(lia))
    as (t & -> & Ht).
  apply Math_round_whole. lia.
Qed.

Lemma sum_whole B (xs : list num) :
  Forall (fun x => exists q, x = Fin (q * U) /\ 0 <= q <= B) xs ->
  forall a, 0 <= a -> a + B * Z.of_nat (length xs) <= 2 ^ 53 ->
  exists ns, xs = map (fun q => Fin (q * U)) ns
             /\ Forall (fun q => 0 <= q <= B) ns
             /\ fold_left fadd xs (Fin (a * U)) = Fin (fold_left Z.add ns a * U).
Proof.
  induction 1 as [|x xs (q & -> & Hq) _ IH]; intros a Ha Hsum.
  - exists []. split; [reflexivity|]. split; [constructor|reflexivity].
  - cbn [length] in Hsum. rewrite Nat2Z.inj_succ in Hsum.
    assert (A1 : 0 <= a + q) by lia.
    assert (A2 : a + q + B * Z.of_nat (length xs) <= 2 ^ 53) by nia.
    destruct (IH (a + q) A1 A2) as (ns & E & F & S).
    exists (q :: ns). split; [rewrite E; reflexivity|]. split; [constructor; assumption|].
    cbn [fold_left]. rewrite fadd_whole by nia. exact S.
Qed.

Lemma fold_add_bound B ns :
  Forall (fun q => 0 <= q <= B) ns ->
  forall a, 0 <= a -> 0 <= fold_left Z.add ns a <= a + B * Z.of_nat (length ns).
Proof.
  induction 1 as [|q ns Hq _ IH]; intros a Ha.
  - cbn [fold_left length]. lia.
  - cbn [fold_left length]. rewrite Nat2Z.inj_succ.
    assert (A1 : 0 <= a + q) by lia. specialize (IH (a + q) A1). lia.
Qed.

(** X8. On an in-range profile the adjusted costs of the breakdown are whole
    numbers and the total is their exact sum: the additions of the [reduce]
    lose nothing.  ([Math.log10] is taken to return finite values of
    magnitude at most 400.) *)
Theorem total_is_exact_sum approx inputs :
  log10_bounded approx -> in_range inputs = true ->
  exists r ns,
    Engine.results approx inputs = Some r
    /\ map e_adjustedCost (r_costBreakdown r) = map int ns
    /\ Forall (fun n => 0 <= n <= 2 ^ 28) ns
    /\ r_totalCost r = int (fold_left Z.add ns 0).
Proof.
  intros HL HR.
  destruct (sizeFactor_bounds approx inputs HL HR) as (s & Es & Hs).
  assert (C : Forall (fun x => exists q, x = Fin (q * U) /\ 0 <= q <= 2 ^ 28)
                (map (cost (Engine.reductionFactor inputs) (Fin s)) COST_CATEGORIES)).
  { apply List.Forall_forall. intros x Hx. apply in_map_iff in Hx as (cat & <- & Hcat).
    apply cost_whole; [exact Hcat|]. pose proof U_pos. lia. }
  destruct (sum_whole _ _ C 0 (Z.le_refl 0)) as (ns & E & F & S).
  { rewrite length_map. change (length COST_CATEGORIES) with 11%nat. lia. }
  pose proof (fold_add_bound _ _ F 0 (Z.le_refl 0)) as B.
  assert (Len : length ns = 11%nat).
  { apply (f_equal (@length _)) in E. rewrite !length_map in E. symmetry. exact E. }
  rewrite Len in B.
  assert (I : map (fun q => Fin (q * U)) ns = map int ns).
  { apply map_ext_Forall. eapply List.Forall_impl; [|exact F].
    intros q Hq. cbv beta in *. rewrite int_units; [reflexivity|lia]. }
  eexists. exists ns. split; [reflexivity|]. cbn [r_costBreakdown r_totalCost].
  rewrite totalCost_costs, adjustedCosts_cost, Es.
  change (map (fun cat => Math_round (fmul (fmul (cat_baseCost cat)
            (fsub (int 1) (Engine.reductionFactor inputs cat))) (Fin s))) COST_CATEGORIES)
    with (map (cost (Engine.reductionFactor inputs) (Fin s)) COST_CATEGORIES).
  rewrite <- I. split; [exact E|]. split; [exact F|].
  rewrite int_0. change (Fin 0) with (Fin (0 * U)). rewrite S.
  rewrite int_units; [reflexivity|lia].
Qed.

(** ** The insurance gap *)

Lemma fadd_double x y k : fadd x y = Fin k -> double k.
Proof.
  destruct x as [|s|a], y as [|t|b]; simpl; try discriminate.
  - destruct (Bool.eqb s t); discriminate.
  - apply rnd_double; lia.
Qed.

Lemma fold_fadd_double l acc k :
  l <> [] -> fold_left fadd l acc = Fin k -> double k.
Proof.
  intros N. destruct (exists_last N) as (l' & x & ->).
  rewrite fold_left_app. cbn [fold_left]. apply fadd_double.
Qed.

(** The total is [NaN], or it is not negative. *)
Lemma totalCost_sign approx inputs :
  let total := Engine.totalCost
                 (Engine.adjustedCosts (Engine.reductionFactor inputs)
                    (Engine.sizeFactor approx inputs)) in
  total = NaN \/ total = Inf false \/ exists t, total = Fin t /\ 0 <= t /\ double t.
Proof.
  cbv zeta. rewrite totalCost_costs.
  set (s := Engine.sizeFactor approx inputs).
  destruct (Math_max_one (fadd (fmul (Math_log10 approx
              (fdiv (Math_max (employees inputs) (int 10)) (int 100))) (lit 2 10)) (int 1)))
    as [E|E]; fold (Engine.sizeFactor approx inputs) in E; fold s in E.
  - left. apply fold_fadd_all_nan; [discriminate|].
    apply List.Forall_forall. intros x Hx. apply in_map_iff in Hx as (cat & <- & _).
    unfold cost. rewrite E, fmul_nan_r. reflexivity.
  - right.
    assert (S : s = Inf false \/ exists k, s = Fin k /\ 0 <= k).
    { destruct E as [E|(k & E & Hk)]; [left; exact E|right].
      exists k. split; [exact E|]. pose proof U_pos. lia. }
    assert (P : le_pos (fold_left fadd (map (cost (Engine.reductionFactor inputs) s)
                                           COST_CATEGORIES) (int 0))
                       (fold_left fadd (map (cost (Engine.reductionFactor inputs) s)
                                           COST_CATEGORIES) (int 0))).
    { apply fold_fadd_le_pos; [|rewrite int_0; split; reflexivity].
      apply Forall2_map_of_Forall, List.Forall_forall. intros cat Hcat.
      pose proof (cost_nonneg inputs s cat Hcat S) as C. rewrite int_0 in C.
      split; [exact C|]. apply nle_refl. exact (nle_not_nan_r _ _ C). }
    destruct P as [P _].
    destruct (fold_left fadd (map (cost (Engine.reductionFactor inputs) s) COST_CATEGORIES)
                (int 0)) as [|[]|t] eqn:T; try discriminate P.
    + left. reflexivity.
    + right. exists t. split; [reflexivity|]. apply nle_Fin in P. split; [exact P|].
      refine (fold_fadd_double (map (cost (Engine.reductionFactor inputs) s) COST_CATEGORIES)
                (int 0) t _ T).
      intros N. discriminate N.
Qed.

Lemma nlt_nle_trans x y z : nlt x y = true -> nle y z = true -> nlt x z = true.
Proof.
  destruct x as [|[]|a], y as [|[]|b], z as [|[]|c]; simpl; try discriminate; auto.
  intros. lia.
Qed.

(** What is above one unit is above zero. *)
Lemma nlt_zero x : nle (Fin 1) x = true -> nlt (Fin 0) x = true.
Proof. destruct x as [|[]|a]; simpl; try discriminate; auto. intros. lia. Qed.

(** X9. When the insurance is below the total (the condition of the
    coverage-gap alert), the gap shown, [totalCost - insurance], is above
    zero, and the insurance is also below [totalCost * 1.5], the condition of
    the coverage recommendation: the alert never comes without the
    recommendation. *)
Theorem insurance_gap approx inputs r :
  Engine.results approx inputs = Some r ->
  nlt (insurance inputs) (r_totalCost r) = true ->
  nlt (int 0) (fsub (r_totalCost r) (insurance inputs)) = true
  /\ nlt (insurance inputs) (fmul (r_totalCost r) (lit 15 10)) = true.
Proof.
  intros R. injection R as <-. cbn [r_totalCost].
  destruct (lit_Fin 15 10 ltac:(lia) ltac:(lia)) as (c & Ec & Hc & _).
  assert (C1 : U <= c).
  { apply nle_Fin. rewrite <- Ec, <- int_1. apply lit_le; lia. }
  pose proof U_pos as HU. rewrite Ec, int_0.
  destruct (totalCost_sign approx inputs) as [T|[T|(t & T & Ht & D)]];
    cbv zeta in T; rewrite T; intros H.
  - destruct (insurance inputs) as [|[]|a]; discriminate H.
  - destruct (insurance inputs) as [|[]|a]; try discriminate H; cbn [fsub fneg fadd fmul negb Bool.eqb];
      destruct (Z.eqb_spec c 0); try lia; destruct (Z.ltb_spec c 0); try lia;
      split; reflexivity.
  - pose proof (fmul_ge_self t c Ht D C1) as G.
    split; [|exact (nlt_nle_trans _ _ _ H G)].
    destruct (insurance inputs) as [|[]|a]; try discriminate H.
    + reflexivity.
    + cbn [nlt] in H. apply Z.ltb_lt in H. apply nlt_zero.
      replace (Fin 1) with (rnd 1 1 0) by reflexivity.
      unfold fsub, fneg, fadd. apply rnd_le; lia.
Qed.

(** ** The reduction shown for a category *)

Lemma check_display_table :
  forallb (fun n => forallb (check_display n) [0; 10; 15]) [0; 35; 25; 30; 45; 40] = true.
Proof. closed. Qed.

Lemma directReduction_percent inputs cat :
  Engine.directReduction inputs cat
  = (if Z.eqb (direct_percent inputs (cat_name cat)) 0 then int 0
     else fadd (int 0) (lit (direct_percent inputs (cat_name cat)) 100))
  /\ In (direct_percent inputs (cat_name cat)) [0; 35; 25; 30; 45; 40].
Proof.
  unfold Engine.directReduction, direct_percent, direct_control. cbv zeta.
  destruct (String.eqb (cat_name cat) "Emergency IT/Forensics") eqn:E1.
  { rewrite (eqb_other _ _ "Revenue Loss" E1) by discriminate.
    rewrite (eqb_other _ _ "Client Churn" E1) by discriminate.
    rewrite (eqb_other _ _ "Regulatory Fines" E1) by discriminate.
    rewrite (eqb_other _ _ "Staff Overtime" E1) by discriminate.
    cbn [andb enabled]. destruct (backupsIsolated inputs);
      (split; [reflexivity|cbn [In]; tauto]). }
  destruct (String.eqb (cat_name cat) "Revenue Loss") eqn:E2.
  { rewrite (eqb_other _ _ "Client Churn" E2) by discriminate.
    rewrite (eqb_other _ _ "Regulatory Fines" E2) by discriminate.
    rewrite (eqb_other _ _ "Staff Overtime" E2) by discriminate.
    cbn [andb enabled]. destruct (mfaEnabled inputs);
      (split; [reflexivity|cbn [In]; tauto]). }
  destruct (String.eqb (cat_name cat) "Client Churn") eqn:E3.
  { rewrite (eqb_other _ _ "Regulatory Fines" E3) by discriminate.
    rewrite (eqb_other _ _ "Staff Overtime" E3) by discriminate.
    cbn [andb enabled]. destruct (phishingTraining inputs);
      (split; [reflexivity|cbn [In]; tauto]). }
  destruct (String.eqb (cat_name cat) "Regulatory Fines") eqn:E4.
  { rewrite (eqb_other _ _ "Staff Overtime" E4) by discriminate.
    cbn [andb enabled]. destruct (vendorReviews inputs);
      (split; [reflexivity|cbn [In]; tauto]). }
  destruct (String.eqb (cat_name cat) "Staff Overtime") eqn:E5.
  { cbn [andb enabled]. destruct (irTabletop inputs);
      (split; [reflexivity|cbn [In]; tauto]). }
  cbn [andb]. split; [reflexivity|cbn [In]; tauto].
Qed.

Lemma synergyBonus_percent inputs :
  Engine.synergyBonus inputs
  = (if Z.eqb (synergy_percent inputs) 0 then int 0 else lit (synergy_percent inputs) 100)
  /\ In (synergy_percent inputs) [0; 10; 15].
Proof.
  unfold Engine.synergyBonus, synergy_percent.
  destruct (4 <=? Engine.enabledControls inputs)%nat;
    [|destruct (3 <=? Engine.enabledControls inputs)%nat];
    (split; [reflexivity|cbn [In]; tauto]).
Qed.

(** X10. The reduction shown beside a category is exact: the rounded
    percentage of its reduction factor is the direct reduction of the
    category, when its control is enabled, plus the synergy bonus (10 from
    three controls, 15 from four), in hundredths; and the factor is above
    zero, the condition for showing it, exactly when that sum is. *)
Theorem reduction_display inputs category :
  percent (Engine.reductionFactor inputs category)
  = int (direct_percent inputs (cat_name category) + synergy_percent inputs)
  /\ nlt (int 0) (Engine.reductionFactor inputs category)
     = Z.ltb 0 (direct_percent inputs (cat_name category) + synergy_percent inputs).
Proof.
  rewrite (proj1 (reductionFactor_sum inputs category)).
  unfold Engine.reductionFactor_uncapped.
  destruct (directReduction_percent inputs category) as [-> Hn].
  destruct (synergyBonus_percent inputs) as [-> Hm].
  pose proof check_display_table as T. rewrite forallb_forall in T.
  specialize (T _ Hn). rewrite forallb_forall in T. specialize (T _ Hm).
  unfold check_display, reduction_of in T. apply andb_prop in T as [T1 T2].
  apply num_eqb_eq in T1. apply Bool.eqb_prop in T2. split; assumption.
Qed.

(** ** The input handlers *)

Lemma or_zero_not_nan x : is_nan (or_zero x) = false.
Proof.
  unfold or_zero. destruct x as [|s|k]; cbn [is_nan orb nle].
  - rewrite int_0. reflexivity.
  - destruct s; reflexivity.
  - destruct (Z.leb k 0 && Z.leb 0 k); [rewrite int_0|]; reflexivity.
Qed.

Lemma in_limits_insurance x :
  in_limits "insurance" x = nle (int 0) x && nle x (int 50000000).
Proof. reflexivity. Qed.

Lemma number_field_limits field :
  In field number_fields -> exists limits, INPUT_LIMITS field = Some limits.
Proof. intros [<-|[<-|[<-|[]]]]; eexists; reflexivity. Qed.

(** Outside its limits means rejected, for a number that is not [NaN]. *)
Lemma rejected_iff field limits value :
  INPUT_LIMITS field = Some limits -> is_nan value = false ->
  nlt value (min limits) || ngt value (max limits) = negb (in_limits field value).
Proof.
  intros L N. destruct (configured_limits field limits L) as [Fmin Fmax].
  unfold in_limits, ngt. rewrite L.
  rewrite (nlt_negb_nle value), (nlt_negb_nle (max limits)); auto;
    try (destruct (min limits); try discriminate; reflexivity);
    try (destruct (max limits); try discriminate; reflexivity).
  destruct (nle (min limits) value), (nle value (max limits)); reflexivity.
Qed.

Lemma set_number field n i :
  In field number_fields ->
  exists i', set_field field (Number n) i = Some i'
    /\ number_of field i' = Some n
    /\ (forall other, other <> field -> number_of other i' = number_of other i)
    /\ (forall other, control_of other i' = control_of other i)
    /\ (in_range i = true -> in_limits field n = true -> in_range i' = true).
Proof.
  intros [<-|[<-|[<-|[]]]]; eexists; (split; [reflexivity|]); (split; [reflexivity|]);
    (split; [|split; [reflexivity|]]).
  - intros other Hne. unfold number_of.
    destruct (String.eqb_spec other "employees"); [congruence|reflexivity].
  - unfold in_range; cbn [employees revenue insurance]. intros H E. split_andb H.
    rewrite E, H1, H0. reflexivity.
  - intros other Hne. unfold number_of.
    destruct (String.eqb_spec other "employees"); [reflexivity|].
    destruct (String.eqb_spec other "revenue"); [congruence|reflexivity].
  - unfold in_range; cbn [employees revenue insurance]. intros H E. split_andb H.
    rewrite E, H, H0. reflexivity.
  - intros other Hne. unfold number_of.
    destruct (String.eqb_spec other "employees"); [reflexivity|].
    destruct (String.eqb_spec other "revenue"); [reflexivity|].
    destruct (String.eqb_spec other "insurance"); [congruence|reflexivity].
  - unfold in_range; cbn [employees revenue insurance]. intros H E. split_andb H.
    rewrite E, H, H1. reflexivity.
Qed.

Lemma set_control field b i :
  In field control_fields ->
  exists i', set_field field (Boolean b) i = Some i'
    /\ control_of field i' = Some b
    /\ (forall other, other <> field -> control_of other i' = control_of other i)
    /\ (forall other, number_of other i' = number_of other i)
    /\ in_range i' = in_range i.
Proof.
  intros [<-|[<-|[<-|[<-|[<-|[]]]]]]; eexists; (split; [reflexivity|]);
    (split; [reflexivity|]); (split; [|split; reflexivity]);
    intros other Hne; unfold control_of;
    repeat match goal with
           | |- context [String.eqb other ?s] =>
               destruct (String.eqb_spec other s); [congruence || reflexivity|]
           end; reflexivity.
Qed.

Section HandlerFacts.

Variable toLocaleString : num -> string.

(** X11. An edit of a number box either is refused, and then the inputs stay
    as they were and the bound message is recorded under the field, or it is
    taken, and then the field holds the edited value, which is within the
    limits, and its message is gone.  The value handed on is
    [parseInt(text) || 0], never [NaN].  The other fields and the messages
    of the other fields are never touched. *)
Theorem edit_outcome field parsed st :
  In field number_fields ->
  exists st' limits,
    onChange toLocaleString (Edit field parsed) st = Some st'
    /\ INPUT_LIMITS field = Some limits
    /\ is_nan (or_zero parsed) = false
    /\ (if in_limits field (or_zero parsed)
        then number_of field (st_inputs st') = Some (or_zero parsed)
             /\ st_inputErrors st' !! field = None
        else st_inputs st' = st_inputs st
             /\ st_inputErrors st' !! field
                = Some (boundMessage toLocaleString limits))
    /\ (forall other, other <> field ->
          number_of other (st_inputs st') = number_of other (st_inputs st)
          /\ st_inputErrors st' !! other = st_inputErrors st !! other)
    /\ (forall other, control_of other (st_inputs st') = control_of other (st_inputs st)).
Proof.
  intros Hf. destruct (number_field_limits field Hf) as (limits & L).
  pose proof (or_zero_not_nan parsed) as N.
  destruct (set_number field (or_zero parsed) (st_inputs st) Hf)
    as (i' & S & G & O & C & _).
  unfold onChange, handleInputChange, validateInput. rewrite L.
  rewrite (rejected_iff field limits _ L N).
  destruct (in_limits field (or_zero parsed)); cbn [negb].
  - rewrite S. cbn [option_map]. exists {| st_inputs := i'; st_inputErrors := delete field (st_inputErrors st) |}, limits.
    cbn [st_inputs st_inputErrors].
    split; [reflexivity|]. split; [reflexivity|]. split; [exact N|].
    split; [split; [exact G|apply lookup_delete_eq]|].
    split; [|exact C].
    intros other Hne. split; [apply O; exact Hne|]. apply lookup_delete_ne. congruence.
  - eexists; exists limits. cbn [st_inputs st_inputErrors].
    split; [reflexivity|]. split; [reflexivity|]. split; [exact N|].
    cbn [st_inputs st_inputErrors].
    split; [split; [reflexivity|apply lookup_insert_eq]|].
    split; [|reflexivity].
    intros other Hne. split; [reflexivity|]. apply lookup_insert_ne. congruence.
Qed.

(** X12. A click on a checkbox always takes effect: the control holds the
    new setting, the other controls and the three numbers stay as they were,
    and the messages are not touched (the validator is not called). *)
Theorem toggle_outcome field checked st :
  In field control_fields ->
  exists st',
    onChange toLocaleString (Toggle field checked) st = Some st'
    /\ control_of field (st_inputs st') = Some checked
    /\ (forall other, other <> field ->
          control_of other (st_inputs st') = control_of other (st_inputs st))
    /\ (forall other, number_of other (st_inputs st') = number_of other (st_inputs st))
    /\ st_inputErrors st' = st_inputErrors st.
Proof.
  intros Hf.
  destruct (set_control field checked (st_inputs st) Hf) as (i' & S & G & O & C & _).
  unfold onChange, handleInputChange. rewrite S. cbn [option_map].
  eexists. split; [reflexivity|]. cbn [st_inputs st_inputErrors]. auto.
Qed.

Lemma in_range_initial : in_range example_inputs = true.
Proof. closed. Qed.

(** X13. Whatever the user types and clicks, the three numbers of the state
    stay within their configured limits (so none is [NaN] or infinite), and
    every recorded message is the bound message of a configured field. *)
Theorem reachable_in_range st :
  reachable toLocaleString st ->
  in_range (st_inputs st) = true
  /\ forall field message,
       st_inputErrors st !! field = Some message ->
       exists limits, INPUT_LIMITS field = Some limits
                      /\ message = boundMessage toLocaleString limits.
Proof.
  induction 1 as [|st ev st' _ [IR IE] W E].
  - split; [exact in_range_initial|]. intros field message H.
    cbn [initial st_inputErrors] in H. rewrite lookup_empty in H. discriminate.
  - destruct ev as [field parsed|field checked]; cbn [wired] in W.
    + destruct (number_field_limits field W) as (limits & L).
      pose proof (or_zero_not_nan parsed) as N.
      destruct (set_number field (or_zero parsed) (st_inputs st) W)
        as (i' & S & _ & _ & _ & R).
      unfold onChange, handleInputChange, validateInput in E. rewrite L in E.
      rewrite (rejected_iff field limits _ L N) in E.
      destruct (in_limits field (or_zero parsed)) eqn:A; cbn [negb] in E.
      * rewrite S in E. injection E as <-. cbn [st_inputs st_inputErrors].
        split; [apply R; [exact IR|reflexivity]|].
        intros f m H. destruct (String.eqb_spec f field) as [->|Hne].
        -- rewrite lookup_delete_eq in H. discriminate.
        -- rewrite lookup_delete_ne in H by congruence. exact (IE f m H).
      * injection E as <-. cbn [st_inputs st_inputErrors].
        split; [exact IR|].
        intros f m H. destruct (String.eqb_spec f field) as [->|Hne].
        -- rewrite lookup_insert_eq in H. injection H as <-. exists limits. auto.
        -- rewrite lookup_insert_ne in H by congruence. exact (IE f m H).
    + destruct (set_control field checked (st_inputs st) W) as (i' & S & _ & _ & _ & R).
      unfold onChange, handleInputChange in E. rewrite S in E. injection E as <-.
      cbn [st_inputs st_inputErrors]. rewrite R. split; assumption.
Qed.

(** X14. The message state keeps only the last verdict on a field: on the
    three configured fields, a validation overwrites what an earlier
    validation of the same field left, and validations of two different
    fields commute. *)
Theorem validateInput_last_wins field value value' other value''
    (errors : gmap string string) :
  In field number_fields -> In other number_fields -> other <> field ->
  snd (validateInput toLocaleString field value'
         (snd (validateInput toLocaleString field value errors)))
  = snd (validateInput toLocaleString field value' errors)
  /\ snd (validateInput toLocaleString field value
            (snd (validateInput toLocaleString other value'' errors)))
     = snd (validateInput toLocaleString other value''
              (snd (validateInput toLocaleString field value errors))).
Proof.
  intros Hf Ho Hne.
  destruct (number_field_limits field Hf) as (limits & L).
  destruct (number_field_limits other Ho) as (limits' & L').
  unfold validateInput. rewrite L, L'. split.
  - destruct (nlt value (min limits) || ngt value (max limits)),
      (nlt value' (min limits) || ngt value' (max limits)); cbn [snd].
    + apply insert_insert_eq.
    + apply delete_insert_eq.
    + apply insert_delete_eq.
    + apply delete_delete_eq.
  - destruct (nlt value (min limits) || ngt value (max limits)),
      (nlt value'' (min limits') || ngt value'' (max limits')); cbn [snd].
    + apply insert_insert_ne. congruence.
    + apply insert_delete_ne. congruence.
    + apply delete_insert_ne. congruence.
    + apply delete_delete.
Qed.

End HandlerFacts.

(** ** The data of the two charts *)

(** Rounding a rounded value changes nothing. *)
Lemma Math_round_idem x : Math_round (Math_round x) = Math_round x.
Proof.
  destruct x as [| |k]; try reflexivity. cbn [Math_round]. f_equal.
  set (q := Z.shiftr (2 * k + U) 1075). pose proof U_pos as HU.
  rewrite Z.shiftr_div_pow2 by lia.
  replace (2 ^ 1075) with (2 * U) by reflexivity.
  replace (2 * (q * U) + U) with (U + q * (2 * U)) by lia.
  rewrite Z.div_add by lia. rewrite Z.div_small by lia. reflexivity.
Qed.

(** X15. The bar chart has one point per scenario and percentile, the
    scenarios in the order of the catalog and the percentiles from the 5th to
    the 95th, and the value of a point is the percentile itself: the second
    [Math.round] changes nothing.  Without a result the chart is empty. *)
Theorem chartData_points approx inputs :
  exists r,
    Engine.results approx inputs = Some r
    /\ map (fun p => (c_scenario p, c_percentile p)) (chartData (Some r))
       = [ ("Phishing", "5th"); ("Phishing", "25th"); ("Phishing", "Median");
           ("Phishing", "75th"); ("Phishing", "95th");
           ("Ransomware", "5th"); ("Ransomware", "25th"); ("Ransomware", "Median");
           ("Ransomware", "75th"); ("Ransomware", "95th");
           ("Vendor Breach", "5th"); ("Vendor Breach", "25th");
           ("Vendor Breach", "Median"); ("Vendor Breach", "75th");
           ("Vendor Breach", "95th") ]
    /\ map c_value (chartData (Some r))
       = flat_map (fun s => map snd (entries (percentiles s))) (r_scenarios r)
    /\ chartData None = [].
Proof.
  eexists. split; [reflexivity|]. split; [reflexivity|]. split; [|reflexivity].
  cbn [chartData r_scenarios]. unfold Engine.scenarios.
  generalize (Engine.organizationFactors approx inputs) as f. intros f.
  induction THREAT_SCENARIOS as [|sc l IH]; [reflexivity|].
  cbn [map flat_map]. rewrite map_app, IH. f_equal.
  cbn [percentiles entries generateRealisticPercentiles map c_value snd
       p5th p25th Median p75th p95th].
  rewrite !Math_round_idem. reflexivity.
Qed.

(** X16. The pie chart shows the first six categories of the breakdown and no
    other, each under the part of its name before the slash and with its
    adjusted cost. *)
Theorem pieData_slices approx inputs :
  exists r,
    Engine.results approx inputs = Some r
    /\ map p_name (pieData (Some r))
       = [ "Emergency IT"; "Legal"; "PR"; "Revenue Loss"; "Temporary Systems";
           "Staff Overtime" ]
    /\ map p_value (pieData (Some r)) = firstn 6 (map e_adjustedCost (r_costBreakdown r))
    /\ pieData None = [].
Proof.
  eexists. split; [reflexivity|]. split; [reflexivity|]. split; reflexivity.
Qed.

(** ** The further properties at concrete inputs *)

Lemma edit_outcome_witness :
  exists st' limits,
    onChange toLocaleString_enUS (Edit "employees" NaN) initial = Some st'
    /\ INPUT_LIMITS "employees" = Some limits
    /\ is_nan (or_zero NaN) = false
    /\ (if in_limits "employees" (or_zero NaN)
        then number_of "employees" (st_inputs st') = Some (or_zero NaN)
             /\ st_inputErrors st' !! "employees" = None
        else st_inputs st' = st_inputs initial
             /\ st_inputErrors st' !! "employees"
                = Some (boundMessage toLocaleString_enUS limits))
    /\ (forall other, other <> "employees" ->
          number_of other (st_inputs st') = number_of other (st_inputs initial)
          /\ st_inputErrors st' !! other = st_inputErrors initial !! other)
    /\ (forall other,
          control_of other (st_inputs st') = control_of other (st_inputs initial)).
Proof.
  apply (edit_outcome toLocaleString_enUS "employees" NaN initial).
  cbn [number_fields In]. left. reflexivity.
Defined.

Lemma toggle_outcome_witness :
  exists st',
    onChange toLocaleString_enUS (Toggle "mfaEnabled" false) initial = Some st'
    /\ control_of "mfaEnabled" (st_inputs st') = Some false
    /\ (forall other, other <> "mfaEnabled" ->
          control_of other (st_inputs st') = control_of other (st_inputs initial))
    /\ (forall other, number_of other (st_inputs st') = number_of other (st_inputs initial))
    /\ st_inputErrors st' = st_inputErrors initial.
Proof.
  apply (toggle_outcome toLocaleString_enUS "mfaEnabled" false initial).
  cbn [control_fields In]. right. left. reflexivity.
Defined.

Lemma reachable_in_range_witness :
  in_range (st_inputs {| st_inputs := no_controls (int 250) (int 50000000) (int 1000000);
                         st_inputErrors := ∅ |}) = true
  /\ forall field message,
       st_inputErrors {| st_inputs := no_controls (int 250) (int 50000000) (int 1000000);
                         st_inputErrors := ∅ |} !! field = Some message ->
       exists limits, INPUT_LIMITS field = Some limits
                      /\ message = boundMessage toLocaleString_enUS limits.
Proof.
  apply (reachable_in_range toLocaleString_enUS).
  refine (reachable_step toLocaleString_enUS _ (Toggle "irTabletop" false) _
            (reachable_step toLocaleString_enUS _ (Toggle "vendorReviews" false) _
               (reachable_step toLocaleString_enUS _ (Toggle "phishingTraining" false) _
                  (reachable_step toLocaleString_enUS _ (Toggle "mfaEnabled" false) _
                     (reachable_step toLocaleString_enUS _ (Toggle "backupsIsolated" false) _
                        (reachable_initial toLocaleString_enUS) _ eq_refl) _ eq_refl)
                  _ eq_refl) _ eq_refl) _ eq_refl);
    cbn [wired control_fields In]; auto 6.
Defined.

Lemma validateInput_last_wins_witness :
  snd (validateInput toLocaleString_enUS "employees" (int 300)
         (snd (validateInput toLocaleString_enUS "employees" (int 0) ∅)))
  = snd (validateInput toLocaleString_enUS "employees" (int 300) ∅)
  /\ snd (validateInput toLocaleString_enUS "employees" (int 0)
            (snd (validateInput toLocaleString_enUS "revenue" (int 300) ∅)))
     = snd (validateInput toLocaleString_enUS "revenue" (int 300)
              (snd (validateInput toLocaleString_enUS "employees" (int 0) ∅))).
Proof.
  apply (validateInput_last_wins toLocaleString_enUS "employees" (int 0) (int 300)
           "revenue" (int 300) ∅).
  - cbn [number_fields In]. left. reflexivity.
  - cbn [number_fields In]. right. left. reflexivity.
  - discriminate.
Defined.

Lemma approx_step_sign : log10_sign approx_step.
Proof.
  intros k Hk. unfold approx_step. pose proof U_pos.
  destruct (Z.ltb_spec k U); [|lia]. apply nle_Fin. lia.
Qed.

Lemma approx_step_bounded : log10_bounded approx_step.
Proof.
  intros k Hk. unfold approx_step. pose proof U_pos.
  destruct (Z.ltb_spec k U); eexists; (split; [reflexivity|lia]).
Qed.

Lemma approx_step_monotone : log10_monotone approx_step.
Proof.
  intros k k' H. unfold Math_log10, approx_step. pose proof U_pos.
  destruct (Z.eqb_spec k U), (Z.eqb_spec k 0), (Z.ltb_spec k 0), (Z.ltb_spec k U),
    (Z.eqb_spec k' U), (Z.eqb_spec k' 0), (Z.ltb_spec k' 0), (Z.ltb_spec k' U);
    try lia; apply nle_Fin; lia.
Qed.

Lemma factors_are_one_witness :
  (nle (employees (no_controls (int 50) (int 5000000) (int 0))) (int 100) = true ->
   Engine.sizeFactor approx_step (no_controls (int 50) (int 5000000) (int 0)) = int 1)
  /\ (nle (revenue (no_controls (int 50) (int 5000000) (int 0))) (int 10000000) = true ->
      Engine.revenueFactor approx_step (no_controls (int 50) (int 5000000) (int 0)) = int 1).
Proof.
  apply (factors_are_one approx_step (no_controls (int 50) (int 5000000) (int 0))).
  exact approx_step_sign.
Defined.

Lemma generateRealisticPercentiles_mono_witness :
  percentiles_le
    (generateRealisticPercentiles (int 300000)
       {| f_sizeFactor := int 1; f_revenueFactor := int 1; f_riskReduction := int 0 |})
    (generateRealisticPercentiles (int 800000)
       {| f_sizeFactor := int 1; f_revenueFactor := int 1; f_riskReduction := int 0 |})
  = true.
Proof.
  apply (generateRealisticPercentiles_mono _ _ _ _ (300000 * U) (800000 * U)).
  - vm_compute. reflexivity.
  - vm_compute. reflexivity.
  - pose proof U_pos. lia.
Defined.

Lemma more_controls_lower_estimate_witness :
  exists r r',
    Engine.results approx_sample (no_controls (int 250) (int 50000000) (int 1000000)) = Some r
    /\ Engine.results approx_sample example_inputs = Some r'
    /\ nle (r_totalCost r') (r_totalCost r) = true
    /\ Forall2 (fun s' s => percentiles_le (percentiles s') (percentiles s) = true)
               (r_scenarios r') (r_scenarios r).
Proof.
  apply (more_controls_lower_estimate approx_sample
           (no_controls (int 250) (int 50000000) (int 1000000)) example_inputs).
  - exact approx_sample_bounded.
  - vm_compute. reflexivity.
  - reflexivity.
  - reflexivity.
  - reflexivity.
Defined.

Lemma costlier_scenario_witness :
  percentiles_le
    (generateRealisticPercentiles
       (sc_baseCost {| sc_name := "Phishing"; sc_baseCost := int 300000;
                       sc_frequency := lit 3 10; sc_severity := lit 7 10 |})
       (Engine.organizationFactors approx_sample example_inputs))
    (generateRealisticPercentiles
       (sc_baseCost {| sc_name := "Ransomware"; sc_baseCost := int 800000;
                       sc_frequency := lit 15 100; sc_severity := lit 9 10 |})
       (Engine.organizationFactors approx_sample example_inputs)) = true.
Proof.
  apply (costlier_scenario_higher_percentiles approx_sample example_inputs).
  - exact approx_sample_bounded.
  - vm_compute. reflexivity.
  - cbn [THREAT_SCENARIOS In]. left. reflexivity.
  - cbn [THREAT_SCENARIOS In]. right. left. reflexivity.
  - vm_compute. reflexivity.
Defined.

Lemma growth_monotone_witness :
  exists r r',
    Engine.results approx_step example_inputs = Some r
    /\ Engine.results approx_step (resize (int 500) (int 60000000) example_inputs) = Some r'
    /\ nle (r_totalCost r) (r_totalCost r') = true
    /\ Forall2 (fun s s' => percentiles_le (percentiles s) (percentiles s') = true)
               (r_scenarios r) (r_scenarios r').
Proof.
  apply (growth_monotone approx_step example_inputs (int 500) (int 60000000)).
  - exact approx_step_bounded.
  - exact approx_step_monotone.
  - vm_compute. reflexivity.
  - vm_compute. reflexivity.
  - vm_compute. reflexivity.
  - vm_compute. reflexivity.
Defined.

Lemma total_is_exact_sum_witness :
  exists r ns,
    Engine.results approx_sample example_inputs = Some r
    /\ map e_adjustedCost (r_costBreakdown r) = map int ns
    /\ Forall (fun n => 0 <= n <= 2 ^ 28) ns
    /\ r_totalCost r = int (fold_left Z.add ns 0).
Proof.
  apply (total_is_exact_sum approx_sample example_inputs).
  - exact approx_sample_bounded.
  - vm_compute. reflexivity.
Defined.

Lemma insurance_gap_witness :
  exists r,
    Engine.results approx_sample (no_controls (int 250) (int 50000000) (int 1000000)) = Some r
    /\ nlt (int 0) (fsub (r_totalCost r) (int 1000000)) = true
    /\ nlt (int 1000000) (fmul (r_totalCost r) (lit 15 10)) = true.
Proof.
  eexists. split; [reflexivity|].
  apply (insurance_gap approx_sample (no_controls (int 250) (int 50000000) (int 1000000))
           _ eq_refl).
  vm_compute. reflexivity.
Defined.

(** ** The model against the hardware

    The primitive floats of the proof assistant are the binary64 values of
    the machine.  The operations of the model return what the machine
    returns: on the constants of the program and on the corner cases of the
    rounding (ties, subnormal results, overflow). *)

Module Hardware.

Example literal_015 : of_prim 0x1.3333333333333p-3%float = lit 15 100.
Proof. vm_compute. reflexivity. Qed.

Example score_all :
  of_prim (0x1.3333333333333p-3 + 0x1.999999999999ap-3 + 0x1.3333333333333p-3
           + 0.25 + 0x1.999999999999ap-4 + 0x1.3333333333333p-3)%float
  = Engine.securityScore example_inputs.
Proof. vm_compute. reflexivity. Qed.

Example size_factor :
  of_prim (0x1.977d95ec10c02p-2 * 0x1.999999999999ap-3 + 1)%float
  = Engine.sizeFactor approx_sample example_inputs.
Proof. vm_compute. reflexivity. Qed.

Example quotient : of_prim (250 / 100)%float = fdiv (int 250) (int 100).
Proof. vm_compute. reflexivity. Qed.

Example third : of_prim (1 / 3)%float = fdiv (int 1) (int 3).
Proof. vm_compute. reflexivity. Qed.

Example adjusted_base :
  of_prim (300000 * (0x1.977d95ec10c02p-2 * 0x1.999999999999ap-3 + 1)
           * (0x1.65df657b04301p-1 * 0x1.3333333333333p-3 + 1)
           * (1 - 0x1.4cccccccccccdp-1))%float
  = adjustedBase (int 300000) (Engine.organizationFactors approx_sample example_inputs).
Proof. vm_compute. reflexivity. Qed.

Example negative_product :
  of_prim (- 0x1.3333333333333p-3 * 0x1.4cccccccccccdp-1)%float
  = fmul (fneg (lit 15 100)) (lit 65 100).
Proof. vm_compute. reflexivity. Qed.

Example tie_to_even_down :
  of_prim (0x1p53 + 1)%float = fadd (Fin (2 ^ 53 * U)) (int 1).
Proof. vm_compute. reflexivity. Qed.

Example tie_to_even_up :
  of_prim (0x1.0000000000001p53 + 1)%float = fadd (Fin ((2 ^ 53 + 2) * U)) (int 1).
Proof. vm_compute. reflexivity. Qed.

Example subnormal_half : of_prim (0x1p-1074 * 0.5)%float = fmul (Fin 1) (lit 5 10).
Proof. vm_compute. reflexivity. Qed.

Example subnormal_three_quarters :
  of_prim (0x1p-1074 * 0.75)%float = fmul (Fin 1) (lit 75 100).
Proof. vm_compute. reflexivity. Qed.

Example subnormal_tie : of_prim (0x3p-1074 * 0.5)%float = fmul (Fin 3) (lit 5 10).
Proof. vm_compute. reflexivity. Qed.

Example subnormal_literal : of_prim 0x1p-1074%float = Fin 1.
Proof. vm_compute. reflexivity. Qed.

Example overflow_product :
  of_prim (0x1.fffffffffffffp1023 * 2)%float = fmul (Fin (OVF - 2 ^ 2045)) (int 2).
Proof. vm_compute. reflexivity. Qed.

Example overflow_tie :
  of_prim (0x1.fffffffffffffp1023 + 0x1p970)%float
  = fadd (Fin (OVF - 2 ^ 2045)) (Fin (2 ^ 2044)).
Proof. vm_compute. reflexivity. Qed.

Example largest_kept :
  of_prim (0x1.fffffffffffffp1023 + 0x1p969)%float
  = fadd (Fin (OVF - 2 ^ 2045)) (Fin (2 ^ 2043)).
Proof. vm_compute. reflexivity. Qed.

Example infinity_minus_infinity :
  of_prim (infinity - infinity)%float = fsub (Inf false) (Inf false).
Proof. vm_compute. reflexivity. Qed.

Example zero_times_infinity :
  of_prim (0 * infinity)%float = fmul (Fin 0) (Inf false).
Proof. vm_compute. reflexivity. Qed.

End Hardware.

